(** * Coverage eligibility and PM2.5 aggregation: a shallow embedding

    The development follows [src/lib/eligibility.py] and
    [src/pipeline/aggregate.py].  Data frames are lists of row records,
    one record field per column; a float column that may hold NaN is an
    [option Q] ([None] is NaN), so arithmetic is exact rational arithmetic
    and every value is kept in lowest terms.  Row order inside a frame is
    the order of first occurrence; no statement below depends on it. *)

From Stdlib Require Import ZArith QArith Qround String List Sorted Lia Lqa Floats Uint63.
From stdpp Require Import base decidable option list gmap strings sets fin_sets.

#[local] Set Warnings "-clear-no-such-hyp,-inexact-float".

Close Scope Q_scope.
Local Open Scope string_scope.
Local Open Scope Z_scope.

(** ** Cells and columns *)

(** A float64 cell. *)
Definition Float := option Q.

Definition Qz (z : Z) : Q := inject_Z z.

(** A calendar date (a normalized timestamp). *)
Record Date := mkDate { dt_y : Z; dt_m : Z; dt_d : Z }.

#[global] Instance Date_eq_dec : EqDecision Date.
Proof. solve_decision. Defined.

#[global] Instance Date_countable : Countable Date.
Proof.
  refine (inj_countable' (λ d, (dt_y d, dt_m d, dt_d d))
                         (λ t, mkDate t.1.1 t.1.2 t.2) _).
  by intros [].
Defined.

(** [a >= b] on timestamps. *)
Definition date_geb (a b : Date) : bool :=
  (dt_y b <? dt_y a) ||
  ((dt_y b =? dt_y a) &&
   ((dt_m b <? dt_m a) || ((dt_m b =? dt_m a) && (dt_d b <=? dt_d a)))).

(** A cell of a [date_local] column: a timestamp, NaT, or an object that
    [pd.to_datetime] cannot parse. *)
Inductive DateCell :=
| Timestamp (d : Date)
| NaT
| Unparseable (raw : string).

#[global] Instance DateCell_eq_dec : EqDecision DateCell.
Proof. solve_decision. Defined.

(** [pd.to_datetime(col, errors="coerce")]. *)
Definition to_datetime (c : DateCell) : DateCell :=
  match c with
  | Timestamp d => Timestamp d
  | NaT => NaT
  | Unparseable _ => NaT
  end.

(** The non-null value of a datetime cell. *)
Definition cell_date (c : DateCell) : option Date :=
  match c with Timestamp d => Some d | _ => None end.

(** [col.dt.year] and [col.dt.month]: NaN on NaT. *)
Definition dt_year (c : DateCell) : option Z := dt_y <$> cell_date c.
Definition dt_month (c : DateCell) : option Z := dt_m <$> cell_date c.

Inductive Period := pre_war | wartime.

#[global] Instance Period_eq_dec : EqDecision Period.
Proof. solve_decision. Defined.

Inductive Season := winter | spring | summer | autumn.

Definition _season_from_month (month : Z) : Season :=
  if bool_decide (month ∈ [12; 1; 2]) then winter
  else if bool_decide (month ∈ [3; 4; 5]) then spring
  else if bool_decide (month ∈ [6; 7; 8]) then summer
  else autumn.

(** ** Exceptions *)

Inductive PyError :=
| RuntimeError (msg : string)
| ValueError (msg : string)
| FileNotFoundError (msg : string).

Inductive Result (A : Type) :=
| Ok (a : A)
| Raise (e : PyError).
Arguments Ok {A} a.
Arguments Raise {A} e.

Definition rbind {A B} (m : Result A) (k : A → Result B) : Result B :=
  match m with Ok a => k a | Raise e => Raise e end.

(** ** Series reductions (pandas semantics: NaN is skipped) *)

Definition dropna_values (s : list Float) : list Q := omap id s.

Definition Qsum (v : list Q) : Q := foldr Qplus 0%Q v.

Fixpoint insert_sorted (x : Q) (v : list Q) : list Q :=
  match v with
  | [] => [x]
  | y :: v' => if Qle_bool x y then x :: y :: v' else y :: insert_sorted x v'
  end.

Definition sort_values (v : list Q) : list Q := foldr insert_sorted [] v.

(** ["mean"]. *)
Definition series_mean (s : list Float) : Float :=
  match dropna_values s with
  | [] => None
  | v => Some (Qred (Qsum v / Qz (Z.of_nat (length v))))
  end.

(** [s.quantile(q)], linear interpolation between the two nearest ranks. *)
Definition series_quantile (q : Q) (s : list Float) : Float :=
  match sort_values (dropna_values s) with
  | [] => None
  | (x :: _) as v =>
      let pos := (Qz (Z.of_nat (length v) - 1) * q)%Q in
      let lo := Qfloor pos in
      let frac := (pos - Qz lo)%Q in
      let a := nth (Z.to_nat lo) v x in
      let b := nth (Z.to_nat (lo + 1)) v a in
      Some (Qred (a + (b - a) * frac))
  end.

(** ["median"]. *)
Definition series_median (s : list Float) : Float := series_quantile (1 # 2) s.

(** ["max"]. *)
Definition series_max (s : list Float) : Float :=
  match dropna_values s with
  | [] => None
  | x :: v => Some (foldr (λ a b, if Qle_bool a b then b else a) x v)
  end.

(** ["nunique"]: distinct non-null cells. *)
Definition series_nunique {A} `{EqDecision A} (s : list (option A)) : Z :=
  Z.of_nat (length (remove_dups (omap id s))).

(** [(s >= 18).sum()] on an integer column. *)
Definition count_ge18 (s : list Z) : Z :=
  Z.of_nat (length (filter (λ h, 18 ≤ h) s)).

(** ** groupby *)

Section GroupBy.
Context {A K : Type} `{EqDecision K}.

(** [df.groupby(cols, dropna=False)]: one group per distinct key. *)
Definition groupby (key : A → K) (df : list A) : list (K * list A) :=
  (λ k, (k, filter (λ r, key r = k) df)) <$> remove_dups (key <$> df).
End GroupBy.

(** ** Hourly records (after [_enrich_hourly]) *)

(** The columns of the enriched hourly table that the daily stage and the
    eligibility join read, plus the UTC timestamp and the local hour. *)
Record Hourly := mkHourly {
  h_city_id : Z;
  h_logged_at : Z;                  (* UTC, seconds since the epoch *)
  h_city_name : option string;      (* NaN when the metadata join misses *)
  h_region_name : option string;
  h_date_local : Date;
  h_hour_local : Z;
  h_year : Z;
  h_pm25 : Float;
  h_aqi : Float;
  h_is_valid : bool;
}.

(** [col.between(lo, hi, inclusive="both")]: False on NaN. *)
Definition between (lo hi : Q) (x : Float) : bool :=
  match x with
  | Some v => Qle_bool lo v && Qle_bool v hi
  | None => false
  end.

Definition isna {A} (x : option A) : bool :=
  match x with Some _ => false | None => true end.

Definition pm25_valid (h : Hourly) : bool :=
  between 0 1000 (h_pm25 h) || isna (h_pm25 h).
Definition aqi_valid (h : Hourly) : bool :=
  between 0 500 (h_aqi h) || isna (h_aqi h).

(** The validity columns written by [_enrich_hourly]. *)
Definition mark_valid (h : Hourly) : Hourly :=
  mkHourly (h_city_id h) (h_logged_at h) (h_city_name h) (h_region_name h)
           (h_date_local h) (h_hour_local h) (h_year h) (h_pm25 h) (h_aqi h)
           (pm25_valid h && aqi_valid h).

(** [pm25 > guideline]: False on NaN. *)
Definition exceed (guideline : Q) (x : Float) : bool :=
  match x with
  | Some v => negb (Qle_bool v guideline)
  | None => false
  end.

(** ** Daily aggregates *)

(** The columns of the daily table; [weekday] is left out (no rollup and no
    filter reads it). *)
Record Daily := mkDaily {
  d_city_id : Z;
  d_city_name : option string;
  d_region_name : option string;
  d_date_local : DateCell;
  d_pm25_mean : Float;
  d_pm25_median : Float;
  d_pm25_p90 : Float;
  d_pm25_p10 : Float;
  d_pm25_max : Float;
  d_available_hours : Z;
  d_exceedance_hours : Z;
  d_aqi_mean : Float;
  d_exceedance_share : Float;
  d_year : option Z;
  d_month : option Z;
  d_season : option Season;
  d_is_wartime : bool;
  d_period : Period;
}.

(** The four grouping columns of [_daily_aggregates]. *)
Definition DailyKey : Type := Z * string * string * Date.

(** [groupby] drops a row whose key holds a null (the default
    [dropna=True]); this is the key of a row that stays. *)
Definition daily_key (h : Hourly) : option DailyKey :=
  n ← h_city_name h; r ← h_region_name h;
  Some (h_city_id h, n, r, h_date_local h).

Definition np_where_share (available exceedance : Z) : Float :=
  if decide (0 < available)
  then Some (Qred (Qz exceedance / Qz available))
  else None.

Definition period_of (is_wartime : bool) : Period :=
  if is_wartime then wartime else pre_war.

Definition daily_row (pm25_guideline : Q) (wartime_start : Date)
    (k : DailyKey) (g : list Hourly) : Daily :=
  let '(cid, name, region, date) := k in
  let pm25 := h_pm25 <$> g in
  let available_hours := Z.of_nat (length pm25) in
  let exceedance_hours :=
    Z.of_nat (length (filter (λ x, exceed pm25_guideline x) pm25)) in
  let date_local := Timestamp date in
  let is_wartime := date_geb date wartime_start in
  {| d_city_id := cid;
     d_city_name := Some name;
     d_region_name := Some region;
     d_date_local := date_local;
     d_pm25_mean := series_mean pm25;
     d_pm25_median := series_median pm25;
     d_pm25_p90 := series_quantile (9 # 10) pm25;
     d_pm25_p10 := series_quantile (1 # 10) pm25;
     d_pm25_max := series_max pm25;
     d_available_hours := available_hours;
     d_exceedance_hours := exceedance_hours;
     d_aqi_mean := series_mean (h_aqi <$> g);
     d_exceedance_share := np_where_share available_hours exceedance_hours;
     d_year := dt_year date_local;
     d_month := dt_month date_local;
     d_season := _season_from_month <$> dt_month date_local;
     d_is_wartime := is_wartime;
     d_period := period_of is_wartime |}.

(** The groups of [valid.groupby(group_cols)]: rows with a null key cell
    are left out, the others are grouped on their key. *)
Definition daily_groups (valid : list Hourly) : list (option DailyKey * list Hourly) :=
  groupby daily_key (filter (λ h, is_Some (daily_key h)) valid).

Definition _daily_aggregates (hourly : list Hourly) (pm25_guideline : Q)
    (wartime_start : Date) : Result (list Daily) :=
  let valid := filter (λ h, h_is_valid h) hourly in
  match valid with
  | [] => Raise (RuntimeError "No valid hourly records available for aggregation")
  | _ =>
      Ok (omap (λ '(k, g), (λ k', daily_row pm25_guideline wartime_start k' g) <$> k)
               (daily_groups valid))
  end.

(** ** City distributions and the region rollup *)

Record Dist := mkDist {
  dist_city_id : Z;
  dist_city_name : option string;
  dist_region_name : option string;
  dist_period : option Period;      (* NaN on year-level rows *)
  dist_year : option Z;             (* NaN on period-level rows *)
  dist_days : Z;
  dist_pm25_mean : Float;
  dist_pm25_median : Float;
  dist_pm25_p90 : Float;
  dist_pm25_p10 : Float;
  dist_exceedance_share : Float;
  dist_available_hours_mean : Float;
  dist_days_with_coverage_ge18 : Z; (* float((series >= 18).sum()): an integral count *)
  dist_aggregation_level : string;
}.

(** A non-null cell, as ["count"] sees it. *)
Definition cell_notna (c : DateCell) : bool :=
  match c with NaT => false | _ => true end.

Definition int_column (s : list Z) : list Float := (λ h, Some (Qz h)) <$> s.

(** The [aggregations] dictionary of [_city_distributions], applied to one
    group [g]; the key cells and the level tag are filled in by the caller. *)
Definition dist_row (cid : Z) (name region : option string)
    (period : option Period) (year : option Z) (level : string)
    (g : list Daily) : Dist :=
  {| dist_city_id := cid;
     dist_city_name := name;
     dist_region_name := region;
     dist_period := period;
     dist_year := year;
     dist_days := Z.of_nat (length (filter (λ c, cell_notna c) (d_date_local <$> g)));
     dist_pm25_mean := series_mean (d_pm25_mean <$> g);
     dist_pm25_median := series_median (d_pm25_median <$> g);
     dist_pm25_p90 := series_quantile (9 # 10) (d_pm25_median <$> g);
     dist_pm25_p10 := series_quantile (1 # 10) (d_pm25_median <$> g);
     dist_exceedance_share := series_mean (d_exceedance_share <$> g);
     dist_available_hours_mean := series_mean (int_column (d_available_hours <$> g));
     dist_days_with_coverage_ge18 := count_ge18 (d_available_hours <$> g);
     dist_aggregation_level := level |}.

Definition period_key (r : Daily) : Z * option string * option string * Period :=
  (d_city_id r, d_city_name r, d_region_name r, d_period r).

Definition year_key (r : Daily) : Z * option string * option string * option Z :=
  (d_city_id r, d_city_name r, d_region_name r, d_year r).

Definition period_summary (daily : list Daily) : list Dist :=
  (λ '((cid, name, region, p), g), dist_row cid name region (Some p) None "period" g)
    <$> groupby period_key daily.

Definition year_summary (daily : list Daily) : list Dist :=
  (λ '((cid, name, region, y), g), dist_row cid name region None y "year" g)
    <$> groupby year_key daily.

Definition _city_distributions (daily : list Daily) : list Dist :=
  period_summary daily ++ year_summary daily.

Record RegionPeriod := mkRegionPeriod {
  rp_region_name : option string;
  rp_period : Period;
  rp_cities : Z;
  rp_days : Z;
  rp_pm25_mean : Float;
  rp_pm25_median : Float;
  rp_pm25_p90 : Float;
  rp_exceedance_share : Float;
}.

Definition _region_period_summary (daily : list Daily) : list RegionPeriod :=
  (λ '((region, p), g),
     {| rp_region_name := region;
        rp_period := p;
        rp_cities := series_nunique (Some <$> (d_city_id <$> g));
        rp_days := Z.of_nat (length (filter (λ c, cell_notna c) (d_date_local <$> g)));
        rp_pm25_mean := series_mean (d_pm25_mean <$> g);
        rp_pm25_median := series_median (d_pm25_median <$> g);
        rp_pm25_p90 := series_quantile (9 # 10) (d_pm25_median <$> g);
        rp_exceedance_share := series_mean (d_exceedance_share <$> g) |})
    <$> groupby (λ r, (d_region_name r, d_period r)) daily.

(** ** Eligibility ([src/lib/eligibility.py]) *)

Definition MIN_COVERAGE_RATIO : Q := 7 # 10.
Definition MIN_TOTAL_YEARS : Z := 4.
Definition MIN_PREWAR_YEARS : Z := 2.
Definition MIN_WARTIME_YEARS : Z := 2.

(** A row of the coverage frame. *)
Record Coverage := mkCoverage {
  c_city_id : Z;
  c_city_name : option string;
  c_year : option Z;
  c_days : Z;
  c_coverage_days : Z;
  c_coverage_ratio : Q;
}.

(** [np.where(days > 0, coverage_days / days, 0.0)]. *)
Definition np_where_ratio (days coverage_days : Z) : Q :=
  if decide (0 < days) then Qred (Qz coverage_days / Qz days) else 0%Q.

Definition coverage_key (r : Daily) : Z * option string * option Z :=
  (d_city_id r, d_city_name r, d_year r).

Definition coverage_row (k : Z * option string * option Z) (g : list Daily) : Coverage :=
  let days := series_nunique (cell_date <$> (d_date_local <$> g)) in
  let coverage_days := count_ge18 (d_available_hours <$> g) in
  mkCoverage k.1.1 k.1.2 k.2 days coverage_days (np_where_ratio days coverage_days).

(** The frame before the final filter of [_compute_good_years]. *)
Definition coverage_frame (df : list Daily) : list Coverage :=
  (λ kg, coverage_row kg.1 kg.2) <$> groupby coverage_key df.

Definition ratio_ok (c : Coverage) : bool :=
  Qle_bool MIN_COVERAGE_RATIO (c_coverage_ratio c).

Definition _compute_good_years (df : list Daily) : list Coverage :=
  filter (λ c, ratio_ok c) (coverage_frame df).

(** [year <= bound] and [year >= bound] on a column that may hold NaN. *)
Definition year_le (y : option Z) (bound : Z) : bool :=
  match y with Some v => bool_decide (v ≤ bound) | None => false end.
Definition year_ge (y : option Z) (bound : Z) : bool :=
  match y with Some v => bool_decide (bound ≤ v) | None => false end.

(** [frame.groupby("city_id")["year"].nunique()]: a Series indexed by city. *)
Definition year_nunique_by_city (frame : list Coverage) : gmap Z Z :=
  list_to_map ((λ kg, (kg.1, series_nunique (c_year <$> kg.2)))
                 <$> groupby c_city_id frame).

Definition _eligible_city_ids (good_years : list Coverage) : gset Z :=
  let total_counts := year_nunique_by_city good_years in
  let prewar_counts :=
    year_nunique_by_city (filter (λ g, year_le (c_year g) 2021) good_years) in
  let wartime_counts :=
    year_nunique_by_city (filter (λ g, year_ge (c_year g) 2022) good_years) in
  foldr (λ item (eligible : gset Z),
           let city_id := item.1 in
           let total := item.2 in
           let pre := default 0 (prewar_counts !! city_id) in
           let war := default 0 (wartime_counts !! city_id) in
           if bool_decide (MIN_TOTAL_YEARS ≤ total ∧ MIN_PREWAR_YEARS ≤ pre
                           ∧ MIN_WARTIME_YEARS ≤ war)
           then {[city_id]} ∪ eligible
           else eligible)
        ∅ (map_to_list total_counts).

(** The two column assignments at the top of
    [eligible_city_year_pairs_from_daily]. *)
Definition with_year (r : Daily) : Daily :=
  let date_local := to_datetime (d_date_local r) in
  mkDaily (d_city_id r) (d_city_name r) (d_region_name r) date_local
          (d_pm25_mean r) (d_pm25_median r) (d_pm25_p90 r) (d_pm25_p10 r)
          (d_pm25_max r) (d_available_hours r) (d_exceedance_hours r)
          (d_aqi_mean r) (d_exceedance_share r) (dt_year date_local)
          (d_month r) (d_season r) (d_is_wartime r) (d_period r).

(** [(int(row.city_id), int(row.year))]; [int] raises on NaN. *)
Definition pair_of_row (row : Coverage) : Result (Z * Z) :=
  match c_year row with
  | Some y => Ok (c_city_id row, y)
  | None => Raise (ValueError "cannot convert float NaN to integer")
  end.

Fixpoint collect {A B} (f : A → Result B) (l : list A) : Result (list B) :=
  match l with
  | [] => Ok []
  | a :: l' => rbind (f a) (λ b, rbind (collect f l') (λ bs, Ok (b :: bs)))
  end.

Definition eligible_city_year_pairs_from_daily (daily : list Daily)
    : Result (gset (Z * Z)) :=
  match daily with
  | [] => Ok ∅
  | _ =>
      let df := with_year <$> daily in
      let good_years := _compute_good_years df in
      let eligible_ids := _eligible_city_ids good_years in
      let filtered := filter (λ g, c_city_id g ∈ eligible_ids) good_years in
      rbind (collect pair_of_row filtered) (λ pairs, Ok (list_to_set pairs))
  end.

Definition eligible_city_ids_from_daily (daily : list Daily) : Result (gset Z) :=
  rbind (eligible_city_year_pairs_from_daily daily)
        (λ pairs, Ok (set_map (D:=gset Z) fst pairs)).

Definition eligible_city_ids_from_distributions (distributions : list Dist)
    : gset Z :=
  let year_level :=
    filter (λ x, dist_aggregation_level x = "year" ∧ is_Some (dist_year x))
           distributions in
  match year_level with
  | [] => ∅
  | _ =>
      let good_years :=
        (λ x, mkCoverage (dist_city_id x) (dist_city_name x) (dist_year x)
                         (dist_days x) (dist_days_with_coverage_ge18 x)
                         (np_where_ratio (dist_days x)
                                         (dist_days_with_coverage_ge18 x)))
          <$> filter (λ x, 0 < dist_days x) year_level in
      _eligible_city_ids (filter (λ c, ratio_ok c) good_years)
  end.

(** ** The aggregation pipeline ([aggregate_data], from the daily stage on) *)

Inductive Table :=
| HourlyTable (rows : list Hourly)
| DailyTable (rows : list Daily)
| DistTable (rows : list Dist)
| RegionTable (rows : list RegionPeriod).

(** The parquet files under [processed_dir], by file name. *)
Abbreviation Files := (gmap string Table).

(** Computations that may raise and that write files. *)
Definition Pipeline (A : Type) : Type := Files → Result A * Files.

Definition pure {A} (a : A) : Pipeline A := λ fs, (Ok a, fs).

Definition bind {A B} (m : Pipeline A) (k : A → Pipeline B) : Pipeline B :=
  λ fs, match m fs with
        | (Ok a, fs') => k a fs'
        | (Raise e, fs') => (Raise e, fs')
        end.

Definition lift {A} (r : Result A) : Pipeline A := λ fs, (r, fs).

Definition raise {A} (e : PyError) : Pipeline A := lift (Raise e).

Definition to_parquet (path : string) (t : Table) : Pipeline unit :=
  λ fs, (Ok tt, <[path := t]> fs).

Notation "x ⟵ m ;; k" := (bind m (λ x, k))
  (at level 100, m at next level, right associativity, only parsing).
Notation "m ;;; k" := (bind m (λ _, k))
  (at level 100, right associativity, only parsing).

(** [left.merge(eligible_pairs_df, on=["city_id", "year"], how="inner")]:
    one output row per matching pair of rows; the right frame only holds
    the two key columns, so the output row is the left row. *)
Definition merge_inner {A} (key : A → option (Z * Z)) (left : list A)
    (right : list (Z * Z)) : list A :=
  l ← left; (λ _, l) <$> filter (λ r, key l = Some r) right.

Definition hourly_pair (h : Hourly) : option (Z * Z) :=
  Some (h_city_id h, h_year h).

Definition daily_pair (d : Daily) : option (Z * Z) :=
  y ← d_year d; Some (d_city_id d, y).

Record AggregationResult := mkAggregationResult {
  hourly_rows : Z;
  daily_rows : Z;
  city_distribution_rows : Z;
  region_period_rows : Z;
  eligible_cities : Z;
}.

Definition len {A} (l : list A) : Z := Z.of_nat (length l).

(** [aggregate_data] from the call of [_daily_aggregates] on, without
    administrative boundaries (the [else] branch of the region output);
    loading, the metadata join and the time-zone conversion come before and
    write nothing. *)
Definition aggregate_data (hourly_enriched : list Hourly) (wartime_start : Date)
    (pm25_guideline : Q) : Pipeline AggregationResult :=
  daily ⟵ lift (_daily_aggregates hourly_enriched pm25_guideline wartime_start) ;;
  eligible_pairs ⟵ lift (eligible_city_year_pairs_from_daily daily) ;;
  if decide (eligible_pairs = ∅)
  then raise (RuntimeError "No cities meet coverage criteria for analysis")
  else
    let eligible_pairs_df := elements eligible_pairs in
    let eligible_ids : gset Z := list_to_set (fst <$> eligible_pairs_df) in
    let hourly_enriched := merge_inner hourly_pair hourly_enriched eligible_pairs_df in
    let daily := merge_inner daily_pair daily eligible_pairs_df in
    to_parquet "city_hourly_pm25.parquet" (HourlyTable hourly_enriched) ;;;
    to_parquet "city_daily_pm25.parquet" (DailyTable daily) ;;;
    let distributions := _city_distributions daily in
    to_parquet "city_distributions.parquet" (DistTable distributions) ;;;
    let region_period := _region_period_summary daily in
    to_parquet "region_period_pm25.parquet" (RegionTable region_period) ;;;
    pure {| hourly_rows := len hourly_enriched;
            daily_rows := len daily;
            city_distribution_rows := len distributions;
            region_period_rows := len region_period;
            eligible_cities := Z.of_nat (size eligible_ids) |}.

(** ** Specification-side notions *)

(** The (city_id, year) pair of a row is in the eligible set. *)
Definition pair_in (pairs : gset (Z * Z)) (k : option (Z * Z)) : bool :=
  match k with Some p => bool_decide (p ∈ pairs) | None => false end.

(** The pair of a good-year row, when its year is not null. *)
Definition pair_opt (row : Coverage) : option (Z * Z) :=
  y ← c_year row; Some (c_city_id row, y).

(** A daily row whose date survives [pd.to_datetime]. *)
Definition well_dated (r : Daily) : Prop :=
  is_Some (cell_date (to_datetime (d_date_local r))).

#[global] Instance well_dated_dec (r : Daily) : Decision (well_dated r).
Proof. unfold well_dated. apply _. Defined.

(** The distinct good years of a city, as a set. *)
Definition good_year_set (good_years : list Coverage) (city : Z) : gset Z :=
  list_to_set (omap c_year (filter (λ g, c_city_id g = city) good_years)).

Definition prewar_years (ys : gset Z) : gset Z := filter (λ y, y ≤ 2021) ys.
Definition wartime_years (ys : gset Z) : gset Z := filter (λ y, 2022 ≤ y) ys.

(** The frame of good years that [eligible_city_ids_from_distributions]
    hands to [_eligible_city_ids]. *)
Definition distribution_good_years (distributions : list Dist) : list Coverage :=
  filter (λ c, ratio_ok c)
    ((λ x, mkCoverage (dist_city_id x) (dist_city_name x) (dist_year x)
                      (dist_days x) (dist_days_with_coverage_ge18 x)
                      (np_where_ratio (dist_days x)
                                      (dist_days_with_coverage_ge18 x)))
       <$> filter (λ x, 0 < dist_days x)
             (filter (λ x, dist_aggregation_level x = "year"
                           ∧ is_Some (dist_year x)) distributions)).

(** The eligibility rule in the words of the specification. *)
Definition eligible_rule (ys : gset Z) : Prop :=
  (4 ≤ size ys ∧ 2 ≤ size (prewar_years ys) ∧ 2 ≤ size (wartime_years ys))%nat.

(** Removing every row of one city-year from a frame of good years. *)
Definition remove_year (city year : Z) (good_years : list Coverage)
    : list Coverage :=
  filter (λ g, ¬ (c_city_id g = city ∧ c_year g = Some year)) good_years.

(** The year of a daily row, read off its local date. *)
Definition row_year (r : Daily) : option Z := dt_year (to_datetime (d_date_local r)).

(** days = distinct dates observed, over the rows of one group. *)
Definition distinct_dates (rows : list Daily) : Z :=
  Z.of_nat (size (list_to_set (C:=gset Date)
     (omap (λ r, cell_date (to_datetime (d_date_local r))) rows))).

(** coverage_days = count of days with available_hours >= 18. *)
Definition covered_days (rows : list Daily) : Z :=
  len (filter (λ r, 18 ≤ d_available_hours r) rows).

(** The daily rows of one city-year. *)
Definition city_year_rows (daily : list Daily) (city year : Z) : list Daily :=
  filter (λ r, d_city_id r = city ∧ row_year r = Some year) daily.

Definition days_observed (daily : list Daily) (city year : Z) : Z :=
  distinct_dates (city_year_rows daily city year).

Definition days_ge18 (daily : list Daily) (city year : Z) : Z :=
  covered_days (city_year_rows daily city year).

(** The daily rows of one city-year under one city name. *)
Definition named_rows (daily : list Daily) (city : Z) (name : option string)
    (year : Z) : list Daily :=
  filter (λ r, d_city_id r = city ∧ d_city_name r = name ∧ row_year r = Some year)
         daily.

(** A daily table and a distribution table describe the same coverage:
    every city-year of the daily table has a year-level row, and every
    year-level row carries the counts of its city-year. *)
Record coverage_equivalent (daily : list Daily) (distributions : list Dist)
    : Prop := {
  ce_present : ∀ r y, r ∈ daily → row_year r = Some y →
    ∃ x, x ∈ distributions ∧ dist_aggregation_level x = "year"
         ∧ dist_city_id x = d_city_id r ∧ dist_year x = Some y;
  ce_counts : ∀ x y, x ∈ distributions → dist_aggregation_level x = "year" →
    dist_year x = Some y →
    dist_days x = days_observed daily (dist_city_id x) y
    ∧ dist_days_with_coverage_ge18 x = days_ge18 daily (dist_city_id x) y;
}.

(** The same, with the city name as part of the key on both sides, as in
    the frames the code builds. *)
Record coverage_equivalent_named (daily : list Daily) (distributions : list Dist)
    : Prop := {
  cen_present : ∀ r y, r ∈ daily → row_year r = Some y →
    ∃ x, x ∈ distributions ∧ dist_aggregation_level x = "year"
         ∧ dist_city_id x = d_city_id r ∧ dist_city_name x = d_city_name r
         ∧ dist_year x = Some y;
  cen_counts : ∀ x y, x ∈ distributions → dist_aggregation_level x = "year" →
    dist_year x = Some y →
    dist_days x
    = distinct_dates (named_rows daily (dist_city_id x) (dist_city_name x) y)
    ∧ dist_days_with_coverage_ge18 x
      = covered_days (named_rows daily (dist_city_id x) (dist_city_name x) y);
}.

(** One name per city (the metadata table has one row per city). *)
Definition one_name_per_city (daily : list Daily) : Prop :=
  ∀ r1 r2, r1 ∈ daily → r2 ∈ daily → d_city_id r1 = d_city_id r2 →
           d_city_name r1 = d_city_name r2.


(** ** Concrete tables *)

Definition default_wartime_start : Date := mkDate 2022 2 24.

(** Four valid records of one city on one local date, with pm25
    10, 20, 30 and NaN. *)
Definition scenario_day (cid : Z) (name region : string) (date : Date)
    (a1 a2 a3 a4 : Float) : list Hourly :=
  [ mkHourly cid 0 (Some name) (Some region) date 0 (dt_y date) (Some 10%Q) a1 true;
    mkHourly cid 3600 (Some name) (Some region) date 1 (dt_y date) (Some 20%Q) a2 true;
    mkHourly cid 7200 (Some name) (Some region) date 2 (dt_y date) (Some 30%Q) a3 true;
    mkHourly cid 10800 (Some name) (Some region) date 3 (dt_y date) None a4 true ].

Definition kyiv_scenario : list Hourly :=
  scenario_day 7 "Kyiv" "Kyivska" (mkDate 2023 1 15) None None None None.

Definition kyiv_scenario_row : Daily :=
  daily_row 15 default_wartime_start (7, "Kyiv", "Kyivska", mkDate 2023 1 15)
            kyiv_scenario.

(** One record per UTC hour over the local date 2023-10-29 in Europe/Kyiv,
    the day the clocks go back: 25 hours, local hour 3 occurring twice. *)
Definition dst_hours : list Z :=
  [0; 1; 2; 3; 3; 4; 5; 6; 7; 8; 9; 10; 11; 12; 13; 14; 15; 16; 17; 18; 19;
   20; 21; 22; 23].

Definition dst_day : list Hourly :=
  imap (λ i hour,
          mark_valid (mkHourly 7 (1698526800 + 3600 * Z.of_nat i) (Some "Kyiv")
                               (Some "Kyivska") (mkDate 2023 10 29) hour 2023
                               (Some 12%Q) (Some 50%Q) false))
       dst_hours.

Definition dst_day_row : Daily :=
  daily_row 15 default_wartime_start (7, "Kyiv", "Kyivska", mkDate 2023 10 29)
            dst_day.

(** A daily row that only fills the columns the eligibility engine reads. *)
Definition coverage_day (cid : Z) (name : option string) (cell : DateCell)
    (hours : Z) : Daily :=
  mkDaily cid name (Some "Kyivska") cell (Some 12%Q) (Some 11%Q) (Some 20%Q)
          (Some 5%Q) (Some 30%Q) hours 0 None (Some 0%Q) (dt_year cell)
          (dt_month cell) (_season_from_month <$> dt_month cell) false pre_war.

(** Ten days of January [year]: the first [good] days with 20 valid hours,
    the others with 6. *)
Definition january (cid : Z) (name : string) (year : Z) (good : nat) : list Daily :=
  imap (λ i (_ : unit),
          coverage_day cid (Some name) (Timestamp (mkDate year 1 (Z.of_nat i + 1)))
                       (if bool_decide (i < good)%nat then 20 else 6))
       (replicate 10 ()).



(** A frame with four good years of city 1, two before and two after 2022. *)
Definition four_good_years : list Coverage :=
  (λ y, mkCoverage 1 (Some "Kyiv") (Some y) 10 8 (4 # 5)) <$> [2019; 2021; 2022; 2024].

(** ** The ratio test in binary64 *)

Definition float_of_count (n : Z) : float := PrimFloat.of_uint63 (Uint63.of_Z n).

(** [coverage_days / days >= MIN_COVERAGE_RATIO] on float64, under the
    [days > 0] guard of [np.where]. *)
Definition ratio_ok_float64 (days coverage_days : Z) : bool :=
  if bool_decide (0 < days)
  then PrimFloat.leb 0.7%float
         (PrimFloat.div (float_of_count coverage_days) (float_of_count days))
  else false.

(** The exact test and the float64 test give the same answer for all
    counts of days and of covered days up to [n]. *)
Definition float64_agrees_upto (n : nat) : bool :=
  forallb (λ d, forallb (λ c,
      Bool.eqb (ratio_ok_float64 (Z.of_nat d) (Z.of_nat c))
               (Qle_bool MIN_COVERAGE_RATIO (np_where_ratio (Z.of_nat d) (Z.of_nat c))))
    (seq 0 (S n))) (seq 0 (S n)).

(** Eighteen valid hourly records on the first of January of [year]. *)
Definition covered_day (cid : Z) (name region : string) (year : Z) : list Hourly :=
  imap (λ i (_ : unit),
          mark_valid (mkHourly cid ((year - 1970) * 31536000 + 3600 * Z.of_nat i)
                               (Some name) (Some region) (mkDate year 1 1)
                               (Z.of_nat i) year (Some 12%Q) None false))
       (replicate 18 ()).

(** City 1 is covered in 2019, 2021, 2022 and 2024; city 2 only in 2020. *)
Definition pipeline_hourly : list Hourly :=
  ([2019; 2021; 2022; 2024] ≫= covered_day 1 "Kyiv" "Kyivska")
  ++ covered_day 2 "Lviv" "Lvivska" 2020.

Definition pipeline_result : AggregationResult :=
  {| hourly_rows := 72; daily_rows := 4; city_distribution_rows := 6;
     region_period_rows := 2; eligible_cities := 1 |}.

(** Two pre-war days of city 1 whose daily means (12, 20) and daily
    medians (11, 13) differ. *)
Definition pm_day (day : Z) (mean median : Q) : Daily :=
  let cell := Timestamp (mkDate 2020 1 day) in
  mkDaily 1 (Some "Kyiv") (Some "Kyivska") cell (Some mean) (Some median)
          (Some 25%Q) (Some 4%Q) (Some 30%Q) 24 6 None (Some (1 # 4)%Q)
          (dt_year cell) (dt_month cell) (_season_from_month <$> dt_month cell)
          false pre_war.

Definition two_days : list Daily := [pm_day 1 12 11; pm_day 2 20 13].

Definition two_days_year_row : Dist :=
  dist_row 1 (Some "Kyiv") (Some "Kyivska") None (Some 2020) "year" two_days.

(** A covered day whose date cannot be parsed. *)
Definition malformed_table : list Daily :=
  [coverage_day 1 (Some "Kyiv") (Unparseable "2020-13-45") 20].

(** Four good years of city 1 and one row with an unparseable date. *)
Definition mixed_table : list Daily :=
  ([2019; 2021; 2022; 2024] ≫= λ y, january 1 "Kyiv" y 8) ++ malformed_table.

(** City 1 with one covered day in each of four years, city 2 with one
    poorly covered day; and the distribution table rolled up from it. *)
Definition agree_daily : list Daily :=
  ((λ y, coverage_day 1 (Some "Kyiv") (Timestamp (mkDate y 3 1)) 20)
     <$> [2019; 2021; 2022; 2024])
  ++ [coverage_day 2 (Some "Lviv") (Timestamp (mkDate 2020 3 1)) 6].

Definition agree_distributions : list Dist := _city_distributions agree_daily.

(** City 1 recorded under two names in 2019, one covered day under each. *)
Definition renamed_daily : list Daily :=
  coverage_day 1 (Some "Kiev") (Timestamp (mkDate 2019 3 2)) 20 :: agree_daily.

Definition renamed_distributions : list Dist := _city_distributions renamed_daily.

(** A year-level row that only fills the columns the eligibility engine
    reads. *)
Definition year_level_row (cid : Z) (name : string) (year days ge18 : Z) : Dist :=
  mkDist cid (Some name) (Some "Kyivska") None (Some year) days
         None None None None None None ge18 "year".

(** City 1 recorded under two names in 2019: a covered day as "Kyiv" and a
    poorly covered day as "Kiev"; and a year-level table with the counts of
    each (city_id, year): 2 days, 1 of them covered, for city 1 in 2019. *)
Definition split_daily : list Daily :=
  coverage_day 1 (Some "Kiev") (Timestamp (mkDate 2019 3 2)) 6 :: agree_daily.

Definition split_distributions : list Dist :=
  [year_level_row 1 "Kyiv" 2019 2 1; year_level_row 1 "Kyiv" 2021 1 1;
   year_level_row 1 "Kyiv" 2022 1 1; year_level_row 1 "Kyiv" 2024 1 1;
   year_level_row 2 "Lviv" 2020 1 0].


(** ** Further definitions *)

(** [series.sum()] on an integer column. *)
Definition sum_Z (s : list Z) : Z := foldr Z.add 0 s.

(** The key cells of a daily row. *)
Definition daily_row_key (r : Daily) : Z * option string * option string * DateCell :=
  (d_city_id r, d_city_name r, d_region_name r, d_date_local r).

(** An hourly record belongs to the day of a daily row. *)
Definition same_day (row : Daily) (h : Hourly) : Prop :=
  d_city_id row = h_city_id h ∧ d_city_name row = h_city_name h
  ∧ d_region_name row = h_region_name h
  ∧ d_date_local row = Timestamp (h_date_local h).

#[global] Instance same_day_dec (row : Daily) (h : Hourly) :
  Decision (same_day row h).
Proof. unfold same_day. apply _. Defined.

(** The Kyiv day, plus a valid record of a city without metadata. *)
Definition orphan_hourly : list Hourly :=
  kyiv_scenario
  ++ [mark_valid (mkHourly 9 0 None None (mkDate 2023 1 15) 0 2023 (Some 5%Q) None false)].

(** A day of three valid records without any pm25 reading. *)
Definition nan_day : list Hourly :=
  (λ i, mark_valid (mkHourly 7 (3600 * i) (Some "Kyiv") (Some "Kyivska")
                             (mkDate 2023 1 16) i 2023 None (Some 40%Q) false))
    <$> [0; 1; 2].

Definition nan_day_row : Daily :=
  daily_row 15 default_wartime_start (7, "Kyiv", "Kyivska", mkDate 2023 1 16) nan_day.

(** The years paired with a city in a set of pairs. *)
Definition years_of (pairs : gset (Z * Z)) (city : Z) : gset Z :=
  set_map snd (filter (λ p, p.1 = city) pairs).

(** The eligible pairs of [mixed_table]. *)
Definition mixed_pairs : gset (Z * Z) :=
  {[ (1, 2019); (1, 2021); (1, 2022); (1, 2024) ]}.

(** The daily table of [pipeline_hourly]. *)
Definition pipeline_daily : list Daily :=
  match _daily_aggregates pipeline_hourly 15 default_wartime_start with
  | Ok daily => daily
  | Raise _ => []
  end.

(** The four files that [aggregate_data] writes. *)
Definition output_files : list string :=
  ["city_hourly_pm25.parquet"; "city_daily_pm25.parquet";
   "city_distributions.parquet"; "region_period_pm25.parquet"].

(** A float cell is NaN or lies between two bounds. *)
Definition in_range (lo hi : Q) (x : Float) : Prop :=
  ∀ v, x = Some v → (lo <= v)%Q ∧ (v <= hi)%Q.

(** The daily rows that the pipeline keeps for [pipeline_hourly], and the
    2019 row of their year-level rollup. *)
Definition pipeline_kept : list Daily :=
  merge_inner daily_pair pipeline_daily (elements mixed_pairs).

Definition pipeline_year_row : Dist :=
  dist_row 1 (Some "Kyiv") (Some "Kyivska") None (Some 2019) "year"
    (filter (λ r, year_key r = (1, Some "Kyiv", Some "Kyivska", Some 2019))
            pipeline_kept).

Definition pipeline_region_row : RegionPeriod :=
  match _region_period_summary pipeline_kept with
  | x :: _ => x
  | [] => mkRegionPeriod None pre_war 0 0 None None None None
  end.

(** ** The metadata join and the validity flags of [_enrich_hourly] *)

(** A row of the city metadata, as [_prepare_metadata] returns it; a blank
    cell is NaN. *)
Record Meta := mkMeta {
  m_city_id : Z;
  m_city_name : option string;
  m_region_name : option string;
  m_koatuu : option string;
  m_katottg : option string;
}.

(** An hourly record after the time-zone conversion of [_enrich_hourly],
    before the join. *)
Record Localized := mkLocalized {
  l_city_id : Z;
  l_logged_at : Z;
  l_date_local : Date;
  l_hour_local : Z;
  l_year : Z;
  l_pm25 : Float;
  l_aqi : Float;
}.

(** One output row of the left join: the record with the metadata cells of
    a matching row, or with null cells when none matches.  The columns
    [koatuu] and [katottg] are not carried further: no later stage reads
    them. *)
Definition with_meta (l : Localized) (name region : option string) : Hourly :=
  mkHourly (l_city_id l) (l_logged_at l) name region (l_date_local l)
           (l_hour_local l) (l_year l) (l_pm25 l) (l_aqi l) false.

(** [hourly.merge(meta, on="city_id", how="left")]. *)
Definition merge_meta (hourly : list Localized) (meta : list Meta) : list Hourly :=
  l ← hourly;
  match filter (λ m, m_city_id m = l_city_id l) meta with
  | [] => [with_meta l None None]
  | matches => (λ m, with_meta l (m_city_name m) (m_region_name m)) <$> matches
  end.

(** [_enrich_hourly] from the join on: the join, then the validity flags. *)
Definition enrich_joined (hourly : list Localized) (meta : list Meta) : list Hourly :=
  mark_valid <$> merge_meta hourly meta.

(** Two records of a city that is in the metadata and one of a city that
    is not. *)
Definition sample_meta : list Meta :=
  [mkMeta 7 (Some "Kyiv") (Some "Kyivska") (Some "8000000000") None].

Definition sample_localized : list Localized :=
  [mkLocalized 7 0 (mkDate 2023 1 15) 2 2023 (Some 10%Q) None;
   mkLocalized 7 3600 (mkDate 2023 1 15) 3 2023 (Some 2000%Q) None;
   mkLocalized 9 0 (mkDate 2023 1 15) 2 2023 (Some 5%Q) None].

(** ** The QA stage ([src/pipeline/qa.py]) *)

(** [_share_ge_threshold]. *)
Definition _share_ge_threshold (series : list Z) (threshold : Q) : Float :=
  match series with
  | [] => None
  | _ =>
      Some (Qred (Qz (len (filter (λ h, Qle_bool threshold (Qz h)) series))
                  / Qz (len series)))
  end.

Record QACoverage := mkQACoverage {
  qc_city_id : Z;
  qc_city_name : option string;
  qc_region_name : option string;
  qc_year : option Z;
  qc_days_observed : Z;
  qc_mean_available_hours : Float;
  qc_median_available_hours : Float;
  qc_share_days_ge18 : Float;
  qc_mean_exceedance_share : Float;
}.

Record QAPeriod := mkQAPeriod {
  qp_period : Period;
  qp_pm25_median : Float;
  qp_exceedance_share : Float;
}.

Record QASummary := mkQASummary {
  qs_cities : Z;
  qs_years : list Z;
  qs_daily_rows : Z;
  qs_pm25_guideline : Q;
}.

(** What [run_qa] writes ([city_year_coverage.csv], [period_summary.csv],
    [qa_summary.json]) and returns (the summary). *)
Record QAReport := mkQAReport {
  qa_coverage : list QACoverage;
  qa_period_summary : list QAPeriod;
  qa_summary : QASummary;
}.

Fixpoint insert_Z (x : Z) (l : list Z) : list Z :=
  match l with
  | [] => [x]
  | y :: l' => if bool_decide (x ≤ y) then x :: y :: l' else y :: insert_Z x l'
  end.

(** [sorted(...)] on integers. *)
Definition sorted (l : list Z) : list Z := foldr insert_Z [] l.

(** [daily["date_local"] = pd.to_datetime(daily["date_local"], errors="coerce")]. *)
Definition with_datetime (r : Daily) : Daily :=
  mkDaily (d_city_id r) (d_city_name r) (d_region_name r)
          (to_datetime (d_date_local r))
          (d_pm25_mean r) (d_pm25_median r) (d_pm25_p90 r) (d_pm25_p10 r)
          (d_pm25_max r) (d_available_hours r) (d_exceedance_hours r)
          (d_aqi_mean r) (d_exceedance_share r) (d_year r)
          (d_month r) (d_season r) (d_is_wartime r) (d_period r).

Definition qa_coverage_row (k : Z * option string * option string * option Z)
    (g : list Daily) : QACoverage :=
  {| qc_city_id := k.1.1.1;
     qc_city_name := k.1.1.2;
     qc_region_name := k.1.2;
     qc_year := k.2;
     qc_days_observed :=
       len (filter (λ c, cell_notna c) (d_date_local <$> g));
     qc_mean_available_hours := series_mean (int_column (d_available_hours <$> g));
     qc_median_available_hours :=
       series_median (int_column (d_available_hours <$> g));
     qc_share_days_ge18 := _share_ge_threshold (d_available_hours <$> g) 18;
     qc_mean_exceedance_share := series_mean (d_exceedance_share <$> g) |}.

(** [run_qa]; [daily_file] is the table in [city_daily_pm25.parquet], if the
    file exists. *)
Definition run_qa (daily_file : option (list Daily)) (pm25_guideline : Q)
    : Result QAReport :=
  match daily_file with
  | None =>
      Raise (FileNotFoundError
               "Daily processed data not found. Run aggregate stage first.")
  | Some [] =>
      Raise (RuntimeError "Daily dataset is empty; cannot compute QA metrics.")
  | Some daily =>
      let daily := with_datetime <$> daily in
      let coverage :=
        (λ kg, qa_coverage_row kg.1 kg.2) <$> groupby year_key daily in
      let period_summary :=
        (λ kg, {| qp_period := kg.1;
                  qp_pm25_median := series_median (d_pm25_median <$> kg.2);
                  qp_exceedance_share :=
                    series_mean (d_exceedance_share <$> kg.2) |})
          <$> groupby d_period daily in
      let summary :=
        {| qs_cities := series_nunique (Some <$> (d_city_id <$> daily));
           qs_years := sorted (remove_dups (omap d_year daily));
           qs_daily_rows := len daily;
           qs_pm25_guideline := pm25_guideline |} in
      Ok {| qa_coverage := coverage;
            qa_period_summary := period_summary;
            qa_summary := summary |}
  end.

(** The daily table in a directory of processed files. *)
Definition daily_file (fs : Files) : option (list Daily) :=
  match fs !! "city_daily_pm25.parquet" with
  | Some (DailyTable daily) => Some daily
  | _ => None
  end.

(** Each city name of a city goes with one region (as when the metadata
    has one row per city). *)
Definition one_region_per_name (hourly : list Hourly) : Prop :=
  ∀ h1 h2, h1 ∈ hourly → h2 ∈ hourly →
    h_city_id h1 = h_city_id h2 → h_city_name h1 = h_city_name h2 →
    h_region_name h1 = h_region_name h2.

(** The daily row of city 1 on 1 January of a year of [pipeline_hourly]. *)
Definition pipeline_day_row (year : Z) : Daily :=
  daily_row 15 default_wartime_start
    (1, "Kyiv", "Kyivska", mkDate year 1 1)
    (covered_day 1 "Kyiv" "Kyivska" year).
(** * Proofs *)

(** ** Lists, groups and rationals *)

Section GroupByFacts.
Context {A K : Type} `{EqDecision K}.
Implicit Types (key : A → K) (df : list A).

Lemma elem_of_groupby key df k g :
  (k, g) ∈ groupby key df ↔
  (∃ r, r ∈ df ∧ key r = k) ∧ g = filter (λ r, key r = k) df.
Proof.
  unfold groupby. rewrite list_elem_of_fmap. split.
  - intros (k' & [= -> ->] & Hk). split; [|done].
    apply elem_of_remove_dups, list_elem_of_fmap in Hk as (r & -> & Hr).
    eauto.
  - intros [(r & Hr & <-) ->]. exists (key r). split; [done|].
    apply elem_of_remove_dups, list_elem_of_fmap. eauto.
Qed.

Lemma groupby_group_nonempty key df k g :
  (k, g) ∈ groupby key df → g ≠ [].
Proof.
  rewrite elem_of_groupby. intros [(r & Hr & Hk) ->] Hnil.
  assert (r ∈ filter (λ r, key r = k) df) as Hin by (by apply list_elem_of_filter).
  rewrite Hnil in Hin. by apply not_elem_of_nil in Hin.
Qed.

Lemma groupby_keys_NoDup key df : NoDup ((groupby key df).*1).
Proof.
  unfold groupby. rewrite <- list_fmap_compose.
  rewrite (list_fmap_ext _ id (remove_dups (key <$> df))) by done.
  rewrite list_fmap_id. apply NoDup_remove_dups.
Qed.

Lemma remove_dups_const (k : K) (ks : list K) :
  ks ≠ [] → (∀ x, x ∈ ks → x = k) → remove_dups ks = [k].
Proof.
  induction ks as [|x ks IH]; [done|]. intros _ Hall. simpl.
  assert (x = k) as -> by (apply Hall; left).
  destruct ks as [|y ks].
  - simpl. destruct (decide_rel elem_of k []) as [Hk|]; [|done].
    by apply not_elem_of_nil in Hk.
  - assert (y = k) as -> by (apply Hall; right; left).
    destruct (decide_rel elem_of k (k :: ks)) as [_|Hk]; [|by destruct Hk; left].
    apply IH; [done|].
    intros z Hz. apply Hall. by right.
Qed.

Lemma groupby_const key df k :
  df ≠ [] → (∀ r, r ∈ df → key r = k) → groupby key df = [(k, df)].
Proof.
  intros Hne Hall. unfold groupby.
  rewrite (remove_dups_const k).
  - simpl. do 2 f_equal. induction df as [|r df IH]; [done|].
    rewrite filter_cons, decide_True by (apply Hall; left).
    destruct df as [|r' df]; [done|]. f_equal. apply IH; [done|].
    intros z Hz. apply Hall. by right.
  - by destruct df.
  - intros x (r & -> & Hr)%list_elem_of_fmap. by apply Hall.
Qed.
End GroupByFacts.

Lemma filter_fmap_comm {A B} (f : A → B) (P : B → Prop)
    `{!∀ x, Decision (P x)} (l : list A) :
  filter P (f <$> l) = f <$> filter (λ a, P (f a)) l.
Proof.
  induction l as [|a l IH]; [done|]. csimpl. rewrite !filter_cons.
  destruct (decide (P (f a))); csimpl; by rewrite IH.
Qed.

Lemma filter_ext_in {A} (P Q : A → Prop) `{!∀ x, Decision (P x)}
    `{!∀ x, Decision (Q x)} (l : list A) :
  (∀ x, x ∈ l → P x ↔ Q x) → filter P l = filter Q l.
Proof.
  induction l as [|a l IH]; [done|]. intros Hall. rewrite !filter_cons.
  rewrite IH by (intros; apply Hall; by right).
  pose proof (Hall a ltac:(left)) as Ha.
  destruct (decide (P a)), (decide (Q a)); try done; tauto.
Qed.

Lemma filter_all {A} (P : A → Prop) `{!∀ x, Decision (P x)} (l : list A) :
  Forall P l → filter P l = l.
Proof.
  induction 1 as [|a l Ha _ IH]; [done|].
  by rewrite filter_cons, decide_True, IH.
Qed.

Lemma Qz_share_bounds (e a : Z) :
  0 ≤ e ≤ a → 0 < a →
  (0 <= Qred (Qz e / Qz a))%Q ∧ (Qred (Qz e / Qz a) <= 1)%Q.
Proof.
  intros He Ha. rewrite Qred_correct. unfold Qz.
  assert (inject_Z 0 < inject_Z a)%Q as Hq by (by rewrite <- Zlt_Qlt).
  split.
  - apply Qle_shift_div_l; [done|]. rewrite Qmult_0_l.
    change 0%Q with (inject_Z 0). rewrite <- Zle_Qle. lia.
  - apply Qle_shift_div_r; [done|]. rewrite Qmult_1_l.
    rewrite <- Zle_Qle. lia.
Qed.

(** ** Daily aggregation *)

(** Every emitted daily row is the aggregate of the non-empty set of valid
    hourly records that carry its key. *)
Lemma daily_aggregates_rows hourly guideline ws daily row :
  _daily_aggregates hourly guideline ws = Ok daily → row ∈ daily →
  ∃ k g, g = filter (λ h, h_is_valid h ∧ daily_key h = Some k) hourly
         ∧ g ≠ [] ∧ row = daily_row guideline ws k g.
Proof.
  unfold _daily_aggregates. intros Hrun Hrow.
  destruct (filter _ hourly) as [|v0 vs] eqn:Hvalid; [done|].
  injection Hrun as <-.
  apply list_elem_of_omap in Hrow as ([ko g] & Hg & Hk).
  destruct ko as [k|]; [|done]. injection Hk as <-.
  exists k, g. pose proof (groupby_group_nonempty _ _ _ _ Hg) as Hne.
  apply elem_of_groupby in Hg as [_ ->]. rewrite <- Hvalid in *.
  split; [|done]. rewrite !list_filter_filter.
  apply filter_ext_in. intros h _. split.
  - by intros [[? ?] ?].
  - intros [? Hk]. rewrite Hk. by repeat split.
Qed.

Lemma daily_row_hours guideline ws k g :
  d_available_hours (daily_row guideline ws k g) = len g
  ∧ 0 ≤ d_exceedance_hours (daily_row guideline ws k g) ≤ len g
  ∧ d_exceedance_share (daily_row guideline ws k g)
    = np_where_share (len g) (d_exceedance_hours (daily_row guideline ws k g)).
Proof.
  destruct k as [[[cid name] region] date]. unfold len. simpl.
  rewrite length_fmap. split; [done|]. split; [|done].
  split; [lia|]. apply inj_le.
  etrans; [apply length_filter|]. by rewrite length_fmap.
Qed.

(** C2, as the code computes it.  For four valid records of one city and
    one date with pm25 10, 20, 30 and NaN (any aqi cells) and guideline 15,
    the daily table has a single row with available_hours = 4 (the NaN
    record is a valid record and ["size"] counts it), exceedance_hours = 2
    (20 and 30 exceed) and exceedance_share = 1/2. *)
Theorem daily_scenario_counts cid name region date a1 a2 a3 a4 ws :
  ∃ row,
    _daily_aggregates (scenario_day cid name region date a1 a2 a3 a4) 15 ws
    = Ok [row]
    ∧ d_available_hours row = 4
    ∧ d_exceedance_hours row = 2
    ∧ d_exceedance_share row = Some (1 # 2)%Q.
Proof.
  unfold _daily_aggregates, daily_groups.
  rewrite (filter_all (λ h, h_is_valid h)) by (by repeat constructor).
  rewrite (filter_all (λ h, is_Some (daily_key h)))
    by (repeat constructor; by eexists).
  rewrite (groupby_const _ _ (Some (cid, name, region, date)));
    [|done|by apply Forall_forall; repeat constructor].
  eexists. split; [reflexivity|]. by vm_compute.
Qed.

(** C2, the scenario as the specification words it: on the Kyiv day the
    single daily row has none of the three stated values. *)
Lemma daily_scenario_not_3_1_third :
  _daily_aggregates kyiv_scenario 15 default_wartime_start = Ok [kyiv_scenario_row]
  ∧ d_available_hours kyiv_scenario_row ≠ 3
  ∧ d_exceedance_hours kyiv_scenario_row ≠ 1
  ∧ ∀ s, d_exceedance_share kyiv_scenario_row = Some s → ¬ (s == 1 # 3)%Q.
Proof.
  split; [by vm_compute|]. split; [by vm_compute|]. split; [by vm_compute|].
  intros s Hs. vm_compute in Hs. injection Hs as <-. by vm_compute.
Qed.

(** The group of a daily row is the list of valid records of its own
    (city_id, city_name, region_name, date_local). *)
Lemma daily_row_own_group hourly guideline ws daily row :
  _daily_aggregates hourly guideline ws = Ok daily → row ∈ daily →
  ∃ k, row = daily_row guideline ws k
               (filter (λ h, h_is_valid h ∧ same_day row h) hourly)
       ∧ filter (λ h, h_is_valid h ∧ same_day row h) hourly ≠ [].
Proof.
  intros Hrun Hrow.
  destruct (daily_aggregates_rows _ _ _ _ _ Hrun Hrow) as (k & g & Hg & Hne & Hrow').
  assert (g = filter (λ h, h_is_valid h ∧ same_day row h) hourly) as <-.
  { rewrite Hg. apply filter_ext_in. intros h _. rewrite Hrow'.
    destruct k as [[[cid name] region] date]. unfold same_day, daily_key. simpl.
    destruct (h_city_name h), (h_region_name h); simpl; naive_solver. }
  by exists k.
Qed.

Lemma daily_row_exceedance guideline ws k g :
  d_exceedance_hours (daily_row guideline ws k g)
  = len (filter (λ h, exceed guideline (h_pm25 h)) g).
Proof.
  destruct k as [[[cid name] region] date]. unfold len. simpl.
  by rewrite filter_fmap_comm, length_fmap.
Qed.

(** Distinct integers between 0 and 23 are at most 24. *)
Lemma distinct_hours_bound (hours : list Z) :
  NoDup hours → Forall (λ x, 0 ≤ x ≤ 23) hours → len hours ≤ 24.
Proof.
  intros Hnd Hall.
  assert (hours ⊆+ seqZ 0 24) as Hsub.
  { apply NoDup_submseteq; [done|]. intros x Hx.
    apply elem_of_seqZ. apply (proj1 (Forall_forall _ _) Hall) in Hx. lia. }
  apply submseteq_length in Hsub. rewrite length_seqZ in Hsub.
  unfold len. lia.
Qed.

(** C5, as the code computes it.  available_hours of a daily row is the
    number of valid hourly records of the row's own (city_id, city_name,
    region_name, date_local), and exceedance_hours the number of them above
    the guideline.  available_hours is at least 1; the code sets no cap of
    its own, and it is at most 24 when those records have pairwise distinct
    local hours between 0 and 23.  exceedance_share is always defined and
    lies in [0, 1]. *)
Theorem daily_hours_and_share_bounds hourly guideline ws daily row :
  _daily_aggregates hourly guideline ws = Ok daily → row ∈ daily →
  let group := filter (λ h, h_is_valid h ∧ same_day row h) hourly in
  d_available_hours row = len group
  ∧ d_exceedance_hours row
    = len (filter (λ h, exceed guideline (h_pm25 h)) group)
  ∧ 1 ≤ d_available_hours row
  ∧ (NoDup (h_hour_local <$> group) →
     Forall (λ h, 0 ≤ h_hour_local h ≤ 23) group →
     d_available_hours row ≤ 24)
  ∧ ∃ s, d_exceedance_share row = Some s ∧ (0 <= s)%Q ∧ (s <= 1)%Q.
Proof.
  intros Hrun Hrow group.
  destruct (daily_row_own_group _ _ _ _ _ Hrun Hrow) as (k & Hk & Hne).
  fold group in Hk, Hne.
  destruct (daily_row_hours guideline ws k group) as (Hav & Hex & Hsh).
  rewrite <- Hk in Hav, Hex, Hsh.
  assert (1 ≤ len group) as Hpos.
  { unfold len. destruct group; [done|simpl; lia]. }
  pose proof (daily_row_exceedance guideline ws k group) as Hcount.
  rewrite <- Hk in Hcount.
  split; [done|]. split; [done|]. split; [lia|]. split.
  - intros Hnd Hall. rewrite Hav.
    replace (len group) with (len (h_hour_local <$> group))
      by (unfold len; by rewrite length_fmap).
    apply distinct_hours_bound; [done|]. by apply Forall_fmap.
  - rewrite Hsh. unfold np_where_share. rewrite decide_True by lia.
    eexists. split; [done|]. apply Qz_share_bounds; lia.
Qed.

Lemma daily_hours_and_share_bounds_witness :
  let group :=
    filter (λ h, h_is_valid h ∧ same_day kyiv_scenario_row h) kyiv_scenario in
  d_available_hours kyiv_scenario_row = len group
  ∧ d_exceedance_hours kyiv_scenario_row
    = len (filter (λ h, exceed 15 (h_pm25 h)) group)
  ∧ 1 ≤ d_available_hours kyiv_scenario_row
  ∧ (NoDup (h_hour_local <$> group) →
     Forall (λ h, 0 ≤ h_hour_local h ≤ 23) group →
     d_available_hours kyiv_scenario_row ≤ 24)
  ∧ ∃ s, d_exceedance_share kyiv_scenario_row = Some s
         ∧ (0 <= s)%Q ∧ (s <= 1)%Q.
Proof.
  apply (daily_hours_and_share_bounds kyiv_scenario 15 default_wartime_start
           [kyiv_scenario_row] kyiv_scenario_row).
  - vm_compute. reflexivity.
  - left.
Defined.

(** C5, the cap of 24 as the specification words it: on the day the clocks
    go back in Europe/Kyiv a city with one valid record per UTC hour gets a
    daily row with available_hours = 25. *)
Lemma daily_hours_exceed_24 :
  Forall (λ h, h_is_valid h = true) dst_day
  ∧ NoDup (h_logged_at <$> dst_day)
  ∧ _daily_aggregates dst_day 15 default_wartime_start = Ok [dst_day_row]
  ∧ d_available_hours dst_day_row = 25
  ∧ ¬ (0 ≤ d_available_hours dst_day_row ≤ 24).
Proof.
  split; [by apply Forall_forall; intros h Hh; vm_compute in Hh;
             repeat (apply elem_of_cons in Hh as [->|Hh]; [done|]);
             apply not_elem_of_nil in Hh|].
  split; [by apply (bool_decide_unpack (NoDup (h_logged_at <$> dst_day))); vm_compute|].
  split; [by vm_compute|]. split; [by vm_compute|].
  vm_compute. intros [_ H]. by apply H.
Qed.

(** C10.  Every emitted daily row stands for at least one valid hourly
    record of its city and date, so a (city, date) without valid records
    has no row; available_hours is at least 1 and exceedance_share is the
    quotient, never the NaN branch. *)
Theorem daily_rows_have_valid_records hourly guideline ws daily row :
  _daily_aggregates hourly guideline ws = Ok daily → row ∈ daily →
  (∃ h, h ∈ hourly ∧ h_is_valid h ∧ d_city_id row = h_city_id h
        ∧ d_date_local row = Timestamp (h_date_local h))
  ∧ 1 ≤ d_available_hours row
  ∧ d_exceedance_share row
    = Some (Qred (Qz (d_exceedance_hours row) / Qz (d_available_hours row))).
Proof.
  intros Hrun Hrow.
  destruct (daily_aggregates_rows _ _ _ _ _ Hrun Hrow) as (k & g & Hg & Hne & ->).
  destruct (daily_row_hours guideline ws k g) as (Hav & Hex & Hsh).
  assert (1 ≤ len g) as Hpos by (unfold len; destruct g; [done|simpl; lia]).
  split.
  - destruct g as [|h g']; [done|]. exists h.
    assert (h ∈ filter (λ h, h_is_valid h ∧ daily_key h = Some k) hourly)
      as [[Hv Hk] Hin]%list_elem_of_filter by (rewrite <- Hg; left).
    split; [done|]. split; [done|].
    destruct k as [[[cid name] region] date]. unfold daily_key in Hk.
    destruct (h_city_name h), (h_region_name h); simplify_eq/=. done.
  - split; [by rewrite Hav|]. rewrite Hsh, Hav.
    unfold np_where_share. by rewrite decide_True by lia.
Qed.

Lemma daily_rows_have_valid_records_witness :
  (∃ h, h ∈ kyiv_scenario ∧ h_is_valid h
        ∧ d_city_id kyiv_scenario_row = h_city_id h
        ∧ d_date_local kyiv_scenario_row = Timestamp (h_date_local h))
  ∧ 1 ≤ d_available_hours kyiv_scenario_row
  ∧ d_exceedance_share kyiv_scenario_row
    = Some (Qred (Qz (d_exceedance_hours kyiv_scenario_row)
                  / Qz (d_available_hours kyiv_scenario_row))).
Proof.
  apply (daily_rows_have_valid_records kyiv_scenario 15 default_wartime_start
           [kyiv_scenario_row] kyiv_scenario_row).
  - vm_compute. reflexivity.
  - left.
Defined.

(** ** Good years and the eligibility rule *)

Lemma np_where_ratio_ok (days coverage_days : Z) :
  (MIN_COVERAGE_RATIO <= np_where_ratio days coverage_days)%Q
  ↔ 0 < days ∧ 7 * days ≤ 10 * coverage_days.
Proof.
  unfold np_where_ratio, MIN_COVERAGE_RATIO. destruct (decide (0 < days)) as [Hd|Hd].
  - rewrite Qred_correct. destruct days as [|p|p]; try lia.
    unfold Qle, Qdiv, Qmult, Qinv, Qz, inject_Z. simpl. lia.
  - split; [|lia]. intros Hq. by vm_compute in Hq.
Qed.

Lemma ratio_ok_iff (c : Coverage) :
  ratio_ok c ↔ (MIN_COVERAGE_RATIO <= c_coverage_ratio c)%Q.
Proof. unfold ratio_ok. rewrite Is_true_true. apply Qle_bool_iff. Qed.


Lemma nunique_size `{Countable A} (s : list (option A)) :
  series_nunique s = Z.of_nat (size (list_to_set (C:=gset A) (omap id s))).
Proof.
  unfold series_nunique. f_equal.
  rewrite <- (size_list_to_set (C:=gset A) (remove_dups (omap id s)))
    by apply NoDup_remove_dups.
  f_equal. apply set_eq. intros x.
  by rewrite !elem_of_list_to_set, elem_of_remove_dups.
Qed.

Lemma omap_id_fmap {A B} (f : A → option B) (l : list A) :
  omap id (f <$> l) = omap f l.
Proof.
  induction l as [|a l IH]; [done|]. csimpl. rewrite IH. by destruct (f a).
Qed.

(** The Series of per-city distinct-year counts, read at one city. *)
Lemma year_nunique_lookup frame city t :
  year_nunique_by_city frame !! city = Some t ↔
  (∃ r, r ∈ frame ∧ c_city_id r = city)
  ∧ t = series_nunique (c_year <$> filter (λ r, c_city_id r = city) frame).
Proof.
  unfold year_nunique_by_city. rewrite <- elem_of_list_to_map.
  - rewrite list_elem_of_fmap. split.
    + intros ([k g] & [= -> ->] & Hg). simpl.
      apply elem_of_groupby in Hg as [? ->]. done.
    + intros [Hr ->]. eexists (city, _). split; [reflexivity|].
      by apply elem_of_groupby.
  - rewrite <- list_fmap_compose.
    rewrite (list_fmap_ext _ fst (groupby c_city_id frame)) by done.
    apply groupby_keys_NoDup.
Qed.

Lemma year_nunique_default frame city :
  default 0 (year_nunique_by_city frame !! city)
  = series_nunique (c_year <$> filter (λ r, c_city_id r = city) frame).
Proof.
  destruct (year_nunique_by_city frame !! city) as [t|] eqn:Hl.
  - apply year_nunique_lookup in Hl as [_ ->]. done.
  - simpl. destruct (filter (λ r, c_city_id r = city) frame) as [|r l] eqn:Hf;
      [done|].
    assert (r ∈ filter (λ r, c_city_id r = city) frame)
      as [Hc Hr]%list_elem_of_filter by (rewrite Hf; left).
    assert (is_Some (year_nunique_by_city frame !! city)) as [t Ht];
      [|congruence].
    eexists. apply year_nunique_lookup. eauto.
Qed.

Lemma city_years_count good_years city :
  series_nunique (c_year <$> filter (λ r, c_city_id r = city) good_years)
  = Z.of_nat (size (good_year_set good_years city)).
Proof. by rewrite nunique_size, omap_id_fmap. Qed.

Lemma elem_of_good_year_set good_years city y :
  y ∈ good_year_set good_years city ↔
  ∃ g, g ∈ good_years ∧ c_city_id g = city ∧ c_year g = Some y.
Proof.
  unfold good_year_set. rewrite elem_of_list_to_set, list_elem_of_omap.
  setoid_rewrite list_elem_of_filter. naive_solver.
Qed.

Lemma prewar_years_count good_years city :
  series_nunique
    (c_year <$> filter (λ r, c_city_id r = city)
                       (filter (λ g, year_le (c_year g) 2021) good_years))
  = Z.of_nat (size (prewar_years (good_year_set good_years city))).
Proof.
  rewrite city_years_count. do 2 f_equal. apply set_eq. intros y.
  unfold prewar_years. rewrite elem_of_filter, !elem_of_good_year_set.
  setoid_rewrite list_elem_of_filter. split.
  - intros (g & [Hle Hg] & Hc & Hy). rewrite Hy in Hle. simpl in Hle.
    apply bool_decide_unpack in Hle. eauto.
  - intros (Hle & g & Hg & Hc & Hy). exists g. rewrite Hy. simpl.
    split; [|done]. split; [|done]. by apply bool_decide_pack.
Qed.

Lemma wartime_years_count good_years city :
  series_nunique
    (c_year <$> filter (λ r, c_city_id r = city)
                       (filter (λ g, year_ge (c_year g) 2022) good_years))
  = Z.of_nat (size (wartime_years (good_year_set good_years city))).
Proof.
  rewrite city_years_count. do 2 f_equal. apply set_eq. intros y.
  unfold wartime_years. rewrite elem_of_filter, !elem_of_good_year_set.
  setoid_rewrite list_elem_of_filter. split.
  - intros (g & [Hle Hg] & Hc & Hy). rewrite Hy in Hle. simpl in Hle.
    apply bool_decide_unpack in Hle. eauto.
  - intros (Hle & g & Hg & Hc & Hy). exists g. rewrite Hy. simpl.
    split; [|done]. split; [|done]. by apply bool_decide_pack.
Qed.

(** Membership in the set built by the loop over [total_counts.items()]. *)
Lemma elem_of_eligible_loop (ok : Z * Z → Prop) `{!∀ i, Decision (ok i)}
    (items : list (Z * Z)) (city : Z) :
  city ∈ foldr (λ item (eligible : gset Z),
                  if bool_decide (ok item) then {[item.1]} ∪ eligible
                  else eligible) ∅ items
  ↔ ∃ item, item ∈ items ∧ item.1 = city ∧ ok item.
Proof.
  induction items as [|item items IH]; simpl.
  - split; [set_solver|]. intros (? & []%not_elem_of_nil & _).
  - setoid_rewrite elem_of_cons. case_bool_decide as Hok.
    + rewrite elem_of_union, elem_of_singleton, IH. naive_solver.
    + rewrite IH. naive_solver.
Qed.

(** The decision of [_eligible_city_ids], in terms of the set of distinct
    good years of the city. *)
Lemma eligible_city_ids_spec good_years city :
  city ∈ _eligible_city_ids good_years
  ↔ eligible_rule (good_year_set good_years city).
Proof.
  unfold _eligible_city_ids.
  rewrite (elem_of_eligible_loop
    (λ item, MIN_TOTAL_YEARS ≤ item.2
       ∧ MIN_PREWAR_YEARS ≤ default 0 (year_nunique_by_city
           (filter (λ g, year_le (c_year g) 2021) good_years) !! item.1)
       ∧ MIN_WARTIME_YEARS ≤ default 0 (year_nunique_by_city
           (filter (λ g, year_ge (c_year g) 2022) good_years) !! item.1))).
  unfold eligible_rule, MIN_TOTAL_YEARS, MIN_PREWAR_YEARS, MIN_WARTIME_YEARS.
  split.
  - intros ([c t] & Hitem & Hc & Ht & Hp & Hw). simpl in *. subst c.
    apply elem_of_map_to_list, year_nunique_lookup in Hitem as [_ ->].
    rewrite year_nunique_default in Hp, Hw.
    rewrite city_years_count in Ht. rewrite prewar_years_count in Hp.
    rewrite wartime_years_count in Hw. lia.
  - intros (Ht & Hp & Hw).
    exists (city, Z.of_nat (size (good_year_set good_years city))). simpl.
    rewrite !year_nunique_default, prewar_years_count, wartime_years_count.
    split; [|lia].
    apply elem_of_map_to_list, year_nunique_lookup.
    rewrite city_years_count. split; [|done].
    destruct (set_choose_L (good_year_set good_years city)) as [y Hy].
    { intros He. rewrite He, size_empty in Ht. lia. }
    apply elem_of_good_year_set in Hy as (g & Hg & Hc & _). eauto.
Qed.

(** The rational model of the ratio test decides as the float64 code does:
    checked for all counts up to 366, the days of a year. *)
Lemma ratio_test_float64_exact : float64_agrees_upto 366 = true.
Proof. by vm_compute. Qed.



Lemma good_year_set_remove_year good_years city y :
  good_year_set (remove_year city y good_years) city
  = good_year_set good_years city ∖ {[y]}.
Proof.
  apply set_eq. intros z.
  rewrite elem_of_difference, elem_of_singleton, !elem_of_good_year_set.
  unfold remove_year. setoid_rewrite list_elem_of_filter. split.
  - intros (g & [Hne Hg] & Hc & Hz). split; [eauto|]. intros ->. by apply Hne.
  - intros [(g & Hg & Hc & Hz) Hne]. exists g. split; [|done].
    split; [|done]. intros [_ Hy]. congruence.
Qed.

(** C6.  A city is in the eligible set exactly when its distinct good
    years number at least 4, those up to 2021 at least 2 and those from
    2022 on at least 2; a city with exactly 4 good years, 2 and 2, is
    eligible, and is no longer so once any one of them is removed. *)
Theorem eligible_iff_thresholds good_years city :
  let ys := good_year_set good_years city in
  (city ∈ _eligible_city_ids good_years ↔
   (4 ≤ size ys ∧ 2 ≤ size (prewar_years ys) ∧ 2 ≤ size (wartime_years ys))%nat)
  ∧ (size ys = 4%nat → size (prewar_years ys) = 2%nat →
     size (wartime_years ys) = 2%nat →
     city ∈ _eligible_city_ids good_years
     ∧ ∀ y, y ∈ ys →
         city ∉ _eligible_city_ids (remove_year city y good_years)).
Proof.
  intros ys. split; [apply eligible_city_ids_spec|].
  intros Ht Hp Hw. split.
  - apply eligible_city_ids_spec. unfold eligible_rule. fold ys. lia.
  - intros y Hy [Hlt _]%eligible_city_ids_spec.
    rewrite good_year_set_remove_year in Hlt. fold ys in Hlt.
    rewrite size_difference in Hlt by (by apply singleton_subseteq_l).
    rewrite size_singleton in Hlt. lia.
Qed.

Lemma eligible_iff_thresholds_witness :
  1 ∈ _eligible_city_ids four_good_years
  ∧ 1 ∉ _eligible_city_ids (remove_year 1 2021 four_good_years).
Proof.
  destruct (eligible_iff_thresholds four_good_years 1) as [_ Hsplit].
  destruct Hsplit as [Hin Hout]; [by vm_compute..|].
  split; [exact Hin|]. apply Hout.
  apply elem_of_good_year_set.
  exists (mkCoverage 1 (Some "Kyiv") (Some 2021) 10 8 (4 # 5)).
  split; [|done]. unfold four_good_years. cbn. right. left.
Defined.

(** ** The eligibility entry points never raise *)



Lemma nunique_all_null {A} `{EqDecision A} (s : list (option A)) :
  Forall (λ x, x = None) s → series_nunique s = 0.
Proof.
  intros Hs. unfold series_nunique.
  replace (omap id s) with (@nil A); [done|].
  induction Hs as [|x s -> _ IH]; [done|]. by csimpl.
Qed.

(** A group keyed by a null year has no date at all: days = 0. *)
Lemma coverage_null_year daily c :
  c ∈ coverage_frame (with_year <$> daily) → c_year c = None →
  c_days c = 0 ∧ c_coverage_ratio c = 0%Q.
Proof.
  unfold coverage_frame. intros ([k g] & -> & Hg)%list_elem_of_fmap Hy.
  apply elem_of_groupby in Hg as [_ Hg]. simpl in *.
  assert (series_nunique (cell_date <$> (d_date_local <$> g)) = 0) as Hdays.
  { apply nunique_all_null. rewrite Hg, <- list_fmap_compose.
    apply Forall_fmap, Forall_forall. intros r [Hk Hr]%list_elem_of_filter.
    apply list_elem_of_fmap in Hr as (r0 & -> & _). simpl.
    unfold coverage_key in Hk. rewrite <- Hk in Hy. simpl in Hy.
    unfold dt_year in Hy. by destruct (cell_date _). }
  unfold coverage_row. simpl. rewrite Hdays. done.
Qed.

Lemma good_year_has_year daily c :
  c ∈ _compute_good_years (with_year <$> daily) → is_Some (c_year c).
Proof.
  unfold _compute_good_years. intros [Hok Hc]%list_elem_of_filter.
  destruct (c_year c) as [y|] eqn:Hy; [by eexists|].
  destruct (coverage_null_year _ _ Hc Hy) as [_ H0].
  unfold ratio_ok in Hok. rewrite H0 in Hok. by vm_compute in Hok.
Qed.

Lemma collect_pairs_ok (l : list Coverage) :
  Forall (λ c, is_Some (c_year c)) l →
  collect pair_of_row l = Ok (omap pair_opt l).
Proof.
  induction 1 as [|c l [y Hy] _ IH]; [done|].
  simpl. unfold pair_of_row at 1. rewrite Hy. simpl. rewrite IH. simpl.
  unfold pair_opt at 2. csimpl. rewrite Hy. done.
Qed.

(** The value of the raw-daily entry point: the pairs of the good years of
    the eligible cities. *)
Lemma pairs_from_daily_value daily :
  let good_years := _compute_good_years (with_year <$> daily) in
  eligible_city_year_pairs_from_daily daily
  = Ok (list_to_set (omap pair_opt
          (filter (λ g, c_city_id g ∈ _eligible_city_ids good_years) good_years))).
Proof.
  destruct daily as [|r daily]; [done|]. intros good_years.
  unfold eligible_city_year_pairs_from_daily. fold good_years.
  rewrite collect_pairs_ok; [done|].
  apply Forall_forall. intros c [_ Hc]%list_elem_of_filter.
  by eapply good_year_has_year.
Qed.

Lemma elem_of_pairs_from_daily daily pairs city y :
  eligible_city_year_pairs_from_daily daily = Ok pairs →
  (city, y) ∈ pairs ↔
  city ∈ _eligible_city_ids (_compute_good_years (with_year <$> daily))
  ∧ y ∈ good_year_set (_compute_good_years (with_year <$> daily)) city.
Proof.
  rewrite pairs_from_daily_value. intros [= <-].
  generalize (_compute_good_years (with_year <$> daily)). intros good.
  rewrite elem_of_list_to_set, list_elem_of_omap, elem_of_good_year_set.
  setoid_rewrite list_elem_of_filter. unfold pair_opt. split.
  - intros (g & [Hel Hg] & Hp). destruct (c_year g) eqn:Hy; simplify_eq/=.
    split; [done|]. by exists g.
  - intros (Hel & g & Hg & <- & Hy). exists g. rewrite Hy. done.
Qed.

(** ** The eligibility join of the pipeline *)

Lemma filter_key_NoDup (right : list (Z * Z)) (k : option (Z * Z)) :
  NoDup right →
  filter (λ r, k = Some r) right
  = match k with
    | Some p => if decide (p ∈ right) then [p] else []
    | None => []
    end.
Proof.
  induction 1 as [|r right Hr Hnd IH].
  - by destruct k.
  - rewrite filter_cons, IH. destruct k as [p|]; [|by rewrite decide_False].
    destruct (decide (Some p = Some r)) as [[= ->]|Hne].
    + rewrite decide_False by done. by rewrite decide_True by left.
    + destruct (decide (p ∈ right)) as [Hp|Hp].
      * by rewrite decide_True by (by right).
      * rewrite decide_False; [done|]. intros [->|?]%elem_of_cons; done.
Qed.

(** Joining against the rows of a set keeps each left row at most once:
    the inner join is a filter. *)
Lemma merge_inner_elements {A} (key : A → option (Z * Z)) (left : list A)
    (pairs : gset (Z * Z)) :
  merge_inner key left (elements pairs)
  = filter (λ l, pair_in pairs (key l)) left.
Proof.
  unfold merge_inner. induction left as [|l left IH]; [done|].
  rewrite bind_cons, IH, filter_cons.
  rewrite filter_key_NoDup by apply NoDup_elements.
  destruct (key l) as [p|]; [|by rewrite decide_False by (simpl; tauto)].
  destruct (decide (p ∈ elements pairs)) as [Hp|Hp];
    rewrite elem_of_elements in Hp.
  - by rewrite decide_True by (by apply bool_decide_pack).
  - rewrite decide_False; [done|]. by intros ?%bool_decide_unpack.
Qed.

Lemma pair_in_hourly pairs h :
  pair_in pairs (hourly_pair h) ↔ (h_city_id h, h_year h) ∈ pairs.
Proof. unfold pair_in, hourly_pair. by rewrite bool_decide_spec. Qed.

Lemma pair_in_daily pairs d :
  pair_in pairs (daily_pair d)
  ↔ ∃ y, d_year d = Some y ∧ (d_city_id d, y) ∈ pairs.
Proof.
  unfold pair_in, daily_pair. destruct (d_year d) as [y|]; simpl.
  - rewrite bool_decide_spec. naive_solver.
  - naive_solver.
Qed.

(** C8.  When the pipeline succeeds, the hourly and daily files hold
    exactly the input rows whose (city_id, year) pair is in the eligible
    set computed from the daily table, each once: every written row has an
    eligible pair and every input row with an eligible pair is written. *)
Theorem eligibility_join_exact hourly ws guideline fs res fs' :
  aggregate_data hourly ws guideline fs = (Ok res, fs') →
  ∃ daily pairs hourly_out daily_out,
    _daily_aggregates hourly guideline ws = Ok daily
    ∧ eligible_city_year_pairs_from_daily daily = Ok pairs
    ∧ fs' !! "city_hourly_pm25.parquet" = Some (HourlyTable hourly_out)
    ∧ fs' !! "city_daily_pm25.parquet" = Some (DailyTable daily_out)
    ∧ hourly_out = filter (λ h, pair_in pairs (hourly_pair h)) hourly
    ∧ daily_out = filter (λ d, pair_in pairs (daily_pair d)) daily
    ∧ (∀ h, h ∈ hourly_out ↔ h ∈ hourly ∧ (h_city_id h, h_year h) ∈ pairs)
    ∧ (∀ d, d ∈ daily_out ↔
            d ∈ daily ∧ ∃ y, d_year d = Some y ∧ (d_city_id d, y) ∈ pairs).
Proof.
  unfold aggregate_data, bind, lift, raise, lift, to_parquet, pure.
  destruct (_daily_aggregates hourly guideline ws) as [daily|e] eqn:Hd; [|done].
  destruct (eligible_city_year_pairs_from_daily daily) as [pairs|e] eqn:Hp;
    [|done].
  destruct (decide (pairs = ∅)) as [|Hne]; [done|].
  rewrite !merge_inner_elements. intros [= <- <-].
  exists daily, pairs, (filter (λ h, pair_in pairs (hourly_pair h)) hourly),
    (filter (λ d, pair_in pairs (daily_pair d)) daily).
  split; [done|]. split; [done|].
  split; [by rewrite !lookup_insert_ne, lookup_insert_eq by done|].
  split; [by rewrite !lookup_insert_ne, lookup_insert_eq by done|].
  split; [done|]. split; [done|]. split.
  - intros h. rewrite list_elem_of_filter. cbv beta.
    rewrite pair_in_hourly. tauto.
  - intros d. rewrite list_elem_of_filter. cbv beta.
    rewrite pair_in_daily. tauto.
Qed.

Lemma eligibility_join_exact_witness :
  ∃ daily pairs hourly_out daily_out,
    _daily_aggregates pipeline_hourly 15 default_wartime_start = Ok daily
    ∧ eligible_city_year_pairs_from_daily daily = Ok pairs
    ∧ (aggregate_data pipeline_hourly default_wartime_start 15 ∅).2
        !! "city_hourly_pm25.parquet" = Some (HourlyTable hourly_out)
    ∧ (aggregate_data pipeline_hourly default_wartime_start 15 ∅).2
        !! "city_daily_pm25.parquet" = Some (DailyTable daily_out)
    ∧ hourly_out = filter (λ h, pair_in pairs (hourly_pair h)) pipeline_hourly
    ∧ daily_out = filter (λ d, pair_in pairs (daily_pair d)) daily
    ∧ (∀ h, h ∈ hourly_out ↔ h ∈ pipeline_hourly ∧ (h_city_id h, h_year h) ∈ pairs)
    ∧ (∀ d, d ∈ daily_out ↔
            d ∈ daily ∧ ∃ y, d_year d = Some y ∧ (d_city_id d, y) ∈ pairs).
Proof.
  apply (eligibility_join_exact pipeline_hourly default_wartime_start 15 ∅ pipeline_result).
  vm_compute. reflexivity.
Defined.

(** C9.  An empty eligible set makes the pipeline raise before any table
    is written: the files are left as they were.  The eligibility entry
    points themselves always return a set, the empty one on empty input. *)
Theorem empty_eligible_set_is_fatal :
  (∀ hourly ws guideline fs daily,
     _daily_aggregates hourly guideline ws = Ok daily →
     eligible_city_year_pairs_from_daily daily = Ok ∅ →
     aggregate_data hourly ws guideline fs
     = (Raise (RuntimeError "No cities meet coverage criteria for analysis"), fs))
  ∧ (∀ daily, ∃ pairs, eligible_city_year_pairs_from_daily daily = Ok pairs)
  ∧ (∀ daily, ∃ ids, eligible_city_ids_from_daily daily = Ok ids)
  ∧ eligible_city_year_pairs_from_daily [] = Ok ∅
  ∧ eligible_city_ids_from_daily [] = Ok ∅
  ∧ eligible_city_ids_from_distributions [] = ∅.
Proof.
  split; [|split; [|split; [|done]]].
  - intros hourly ws guideline fs daily Hd Hp.
    unfold aggregate_data, bind, lift. rewrite Hd, Hp.
    by rewrite decide_True.
  - intros daily. eexists. apply pairs_from_daily_value.
  - intros daily. unfold eligible_city_ids_from_daily.
    rewrite pairs_from_daily_value. by eexists.
Qed.

Lemma empty_eligible_set_is_fatal_witness :
  aggregate_data kyiv_scenario default_wartime_start 15 ∅
  = (Raise (RuntimeError "No cities meet coverage criteria for analysis"), ∅).
Proof.
  apply (proj1 empty_eligible_set_is_fatal kyiv_scenario default_wartime_start
           15%Q ∅ [kyiv_scenario_row]).
  - by vm_compute.
  - by vm_compute.
Defined.

(** ** City distributions *)

(** C3, as the code computes it.  Every row of the city-distribution table,
    at the period level and at the year level, aggregates the daily rows of
    its group: pm25_median, pm25_p90 and pm25_p10 are the median and the
    quantiles of the daily medians, and pm25_mean is the mean of the daily
    means. *)
Theorem city_distribution_statistics daily x :
  x ∈ _city_distributions daily →
  ∃ g, g ≠ []
    ∧ ((dist_aggregation_level x = "period"
        ∧ ∃ p, dist_period x = Some p
            ∧ g = filter (λ r, period_key r
                    = (dist_city_id x, dist_city_name x, dist_region_name x, p))
                    daily)
       ∨ (dist_aggregation_level x = "year"
          ∧ g = filter (λ r, year_key r
                  = (dist_city_id x, dist_city_name x, dist_region_name x,
                     dist_year x)) daily))
    ∧ dist_pm25_median x = series_median (d_pm25_median <$> g)
    ∧ dist_pm25_p90 x = series_quantile (9 # 10) (d_pm25_median <$> g)
    ∧ dist_pm25_p10 x = series_quantile (1 # 10) (d_pm25_median <$> g)
    ∧ dist_pm25_mean x = series_mean (d_pm25_mean <$> g).
Proof.
  unfold _city_distributions. rewrite elem_of_app.
  unfold period_summary, year_summary. rewrite !list_elem_of_fmap.
  intros [([[[[cid name] region] p] g] & -> & Hg)
         |([[[[cid name] region] y] g] & -> & Hg)];
    exists g; pose proof (groupby_group_nonempty _ _ _ _ Hg) as Hne;
    apply elem_of_groupby in Hg as [_ Hg]; (split; [done|]); simpl.
  - split; [|done]. left. split; [done|]. by exists p.
  - split; [|done]. by right.
Qed.

Lemma city_distribution_statistics_witness :
  ∃ g, g ≠ []
    ∧ ((dist_aggregation_level two_days_year_row = "period"
        ∧ ∃ p, dist_period two_days_year_row = Some p
            ∧ g = filter (λ r, period_key r
                    = (dist_city_id two_days_year_row,
                       dist_city_name two_days_year_row,
                       dist_region_name two_days_year_row, p)) two_days)
       ∨ (dist_aggregation_level two_days_year_row = "year"
          ∧ g = filter (λ r, year_key r
                  = (dist_city_id two_days_year_row,
                     dist_city_name two_days_year_row,
                     dist_region_name two_days_year_row,
                     dist_year two_days_year_row)) two_days))
    ∧ dist_pm25_median two_days_year_row = series_median (d_pm25_median <$> g)
    ∧ dist_pm25_p90 two_days_year_row
      = series_quantile (9 # 10) (d_pm25_median <$> g)
    ∧ dist_pm25_p10 two_days_year_row
      = series_quantile (1 # 10) (d_pm25_median <$> g)
    ∧ dist_pm25_mean two_days_year_row = series_mean (d_pm25_mean <$> g).
Proof.
  apply (city_distribution_statistics two_days two_days_year_row).
  vm_compute. right. left.
Defined.

(** C3, the mean as the specification words it: on two days with daily
    means 12 and 20 and daily medians 11 and 13, both rows of the
    distribution table carry pm25_mean = 16, the mean of the daily means,
    while the mean of the daily medians is 12. *)
Lemma city_mean_is_not_over_medians :
  Forall (λ x, dist_pm25_mean x = Some 16%Q) (_city_distributions two_days)
  ∧ (dist_aggregation_level <$> _city_distributions two_days) = ["period"; "year"]
  ∧ series_mean (d_pm25_median <$> two_days) = Some 12%Q
  ∧ ∃ x, x ∈ _city_distributions two_days
         ∧ dist_pm25_mean x ≠ series_mean (d_pm25_median <$> two_days).
Proof.
  split; [by vm_compute; repeat constructor|]. split; [by vm_compute|].
  split; [by vm_compute|]. exists two_days_year_row.
  split; [vm_compute; right; left|by vm_compute].
Qed.

(** ** Rows without a usable date *)








(** ** The two entry points *)

Section EntryPoints.
Variable daily : list Daily.

Lemma coverage_key_with_year r :
  coverage_key (with_year r) = (d_city_id r, d_city_name r, row_year r).
Proof. done. Qed.

(** The coverage row of a group, in terms of the rows it came from. *)
Lemma coverage_row_rows k (rows : list Daily) :
  coverage_row k (with_year <$> rows)
  = mkCoverage k.1.1 k.1.2 k.2 (distinct_dates rows) (covered_days rows)
      (np_where_ratio (distinct_dates rows) (covered_days rows)).
Proof.
  assert (series_nunique (cell_date <$> (d_date_local <$> (with_year <$> rows)))
          = distinct_dates rows) as Hdays.
  { unfold distinct_dates.
    by rewrite nunique_size, <- !list_fmap_compose, omap_id_fmap. }
  assert (count_ge18 (d_available_hours <$> (with_year <$> rows))
          = covered_days rows) as Hcov.
  { unfold count_ge18, covered_days, len.
    rewrite <- list_fmap_compose, filter_fmap_comm. by rewrite length_fmap. }
  unfold coverage_row. by rewrite Hdays, Hcov.
Qed.

(** The group of a key with a year: the rows of that city, name and year. *)
Lemma group_is_named_rows city name y :
  filter (λ r, coverage_key r = (city, name, Some y)) (with_year <$> daily)
  = with_year <$> named_rows daily city name y.
Proof.
  rewrite filter_fmap_comm. f_equal. unfold named_rows.
  apply filter_ext_in. intros r Hr. rewrite coverage_key_with_year. split.
  - by intros [= -> -> ->].
  - by intros (-> & -> & ->).
Qed.

Lemma distinct_dates_pos (rows : list Daily) :
  0 < distinct_dates rows → ∃ r0, r0 ∈ rows.
Proof.
  destruct rows as [|r0 rows]; [by vm_compute|]. intros _. exists r0. left.
Qed.

(** The good years found from the daily table, in whole numbers. *)
Lemma good_year_from_daily_named city y :
  y ∈ good_year_set (_compute_good_years (with_year <$> daily)) city
  ↔ ∃ name, 0 < distinct_dates (named_rows daily city name y)
      ∧ 7 * distinct_dates (named_rows daily city name y)
        ≤ 10 * covered_days (named_rows daily city name y).
Proof.
  rewrite elem_of_good_year_set. unfold _compute_good_years.
  setoid_rewrite list_elem_of_filter. setoid_rewrite ratio_ok_iff.
  unfold coverage_frame. setoid_rewrite list_elem_of_fmap. split.
  - intros (g & [Hok ([[[c n] yo] grp] & -> & Hgrp)] & Hc & Hy).
    simpl in Hc, Hy. subst c yo.
    apply elem_of_groupby in Hgrp as [_ ->]. cbn [fst snd] in Hok.
    rewrite group_is_named_rows, coverage_row_rows in Hok.
    exists n. by apply np_where_ratio_ok.
  - intros (name & Hok).
    destruct (distinct_dates_pos (named_rows daily city name y))
      as (r0 & [(Hc & Hn & Hy) Hr0]%list_elem_of_filter); [tauto|].
    exists (coverage_row (city, name, Some y)
              (with_year <$> named_rows daily city name y)).
    split; [|done]. split.
    + rewrite coverage_row_rows. by apply np_where_ratio_ok.
    + eexists (_, _). split; [reflexivity|]. apply elem_of_groupby.
      split; [|by rewrite group_is_named_rows].
      exists (with_year r0). rewrite coverage_key_with_year, Hc, Hn, Hy.
      split; [by apply list_elem_of_fmap_2|done].
Qed.

Variable distributions : list Dist.

Lemma from_distributions_value :
  eligible_city_ids_from_distributions distributions
  = _eligible_city_ids (distribution_good_years distributions).
Proof.
  unfold eligible_city_ids_from_distributions, distribution_good_years.
  by destruct (filter _ distributions).
Qed.

(** The good years found from the distribution table: the year-level rows
    with days > 0 and 7 * days <= 10 * days_with_coverage_ge18. *)
Lemma good_year_from_distributions_rows city y :
  y ∈ good_year_set (distribution_good_years distributions) city
  ↔ ∃ x, x ∈ distributions ∧ dist_aggregation_level x = "year"
         ∧ dist_city_id x = city ∧ dist_year x = Some y
         ∧ 0 < dist_days x
         ∧ 7 * dist_days x ≤ 10 * dist_days_with_coverage_ge18 x.
Proof.
  rewrite elem_of_good_year_set. unfold distribution_good_years.
  setoid_rewrite list_elem_of_filter. setoid_rewrite ratio_ok_iff.
  setoid_rewrite list_elem_of_fmap. do 2 setoid_rewrite list_elem_of_filter.
  split.
  - intros (g & [Hok (x & -> & Hd & [Hl _] & Hx)] & Hc & Hy).
    simpl in *. apply np_where_ratio_ok in Hok. exists x. tauto.
  - intros (x & Hx & Hl & Hc & Hy & Hok).
    eexists. split; [split; [|exists x; split; [reflexivity|]]|]; simpl.
    + by apply np_where_ratio_ok.
    + split; [tauto|]. split; [|done]. split; [done|]. by eexists.
    + done.
Qed.

(** Agreement on the good years of every city gives the same eligible set. *)
Lemma eligible_ids_agree :
  (∀ city y,
     y ∈ good_year_set (_compute_good_years (with_year <$> daily)) city
     ↔ y ∈ good_year_set (distribution_good_years distributions) city) →
  _eligible_city_ids (_compute_good_years (with_year <$> daily))
  = _eligible_city_ids (distribution_good_years distributions).
Proof.
  intros Hsame. apply set_eq. intros city. rewrite !eligible_city_ids_spec.
  replace (good_year_set (distribution_good_years distributions) city)
    with (good_year_set (_compute_good_years (with_year <$> daily)) city);
    [done|].
  apply set_eq. intros y. apply Hsame.
Qed.

(** Tables equivalent under the named key have the same good years. *)
Lemma good_years_agree_named city y :
  coverage_equivalent_named daily distributions →
  y ∈ good_year_set (_compute_good_years (with_year <$> daily)) city
  ↔ y ∈ good_year_set (distribution_good_years distributions) city.
Proof.
  intros Hequiv.
  rewrite good_year_from_daily_named, good_year_from_distributions_rows. split.
  - intros (name & Hok).
    destruct (distinct_dates_pos (named_rows daily city name y))
      as (r0 & [(Hc & Hn & Hy) Hr0]%list_elem_of_filter); [tauto|].
    destruct (cen_present _ _ Hequiv r0 y Hr0 Hy) as (x & Hx & Hl & Hxc & Hxn & Hxy).
    destruct (cen_counts _ _ Hequiv x y Hx Hl Hxy) as [Hdays Hcov].
    exists x. rewrite Hdays, Hcov, Hxc, Hxn, Hc, Hn. tauto.
  - intros (x & Hx & Hl & Hc & Hy & Hok).
    destruct (cen_counts _ _ Hequiv x y Hx Hl Hy) as [Hdays Hcov].
    exists (dist_city_name x). rewrite <- Hc, <- Hdays, <- Hcov. done.
Qed.

Hypothesis Hname : one_name_per_city daily.

(** With one name per city, the rows under the name of a row of the city
    are all the rows of the city-year. *)
Lemma named_rows_city_year r0 y :
  r0 ∈ daily →
  named_rows daily (d_city_id r0) (d_city_name r0) y
  = city_year_rows daily (d_city_id r0) y.
Proof.
  intros Hr0. unfold named_rows, city_year_rows.
  apply filter_ext_in. intros r Hr. split; [tauto|].
  intros [Hc Hy]. by rewrite (Hname r r0 Hr Hr0 Hc).
Qed.

Lemma good_year_from_daily city y :
  y ∈ good_year_set (_compute_good_years (with_year <$> daily)) city
  ↔ 0 < days_observed daily city y
    ∧ 7 * days_observed daily city y ≤ 10 * days_ge18 daily city y.
Proof.
  rewrite good_year_from_daily_named. unfold days_observed, days_ge18. split.
  - intros (name & Hok).
    destruct (distinct_dates_pos (named_rows daily city name y))
      as (r0 & [(<- & <- & Hy) Hr0]%list_elem_of_filter); [tauto|].
    by rewrite named_rows_city_year in Hok.
  - intros Hok.
    destruct (distinct_dates_pos (city_year_rows daily city y))
      as (r0 & [(<- & Hy) Hr0]%list_elem_of_filter); [tauto|].
    exists (d_city_name r0). by rewrite named_rows_city_year.
Qed.

(** Tables equivalent per city-year have the same good years. *)
Lemma good_years_agree city y :
  coverage_equivalent daily distributions →
  y ∈ good_year_set (_compute_good_years (with_year <$> daily)) city
  ↔ y ∈ good_year_set (distribution_good_years distributions) city.
Proof.
  intros Hequiv.
  rewrite good_year_from_daily, good_year_from_distributions_rows. split.
  - intros Hok.
    destruct (distinct_dates_pos (city_year_rows daily city y))
      as (r0 & [(Hc & Hy) Hr0]%list_elem_of_filter); [unfold days_observed in Hok; tauto|].
    destruct (ce_present _ _ Hequiv r0 y Hr0 Hy) as (x & Hx & Hl & Hxc & Hxy).
    destruct (ce_counts _ _ Hequiv x y Hx Hl Hxy) as [Hdays Hcov].
    exists x. rewrite Hdays, Hcov, Hxc, Hc. tauto.
  - intros (x & Hx & Hl & Hc & Hy & Hok).
    destruct (ce_counts _ _ Hequiv x y Hx Hl Hy) as [Hdays Hcov].
    by rewrite <- Hc, <- Hdays, <- Hcov.
Qed.

End EntryPoints.

(** The cities of the eligible pairs are the eligible cities. *)
Lemma ids_from_daily_value (daily : list Daily) :
  eligible_city_ids_from_daily daily
  = Ok (_eligible_city_ids (_compute_good_years (with_year <$> daily))).
Proof.
  unfold eligible_city_ids_from_daily.
  destruct (eligible_city_year_pairs_from_daily daily) as [pairs|e] eqn:Hp.
  2: { rewrite pairs_from_daily_value in Hp. done. }
  simpl. f_equal. apply set_eq. intros city. rewrite elem_of_map. split.
  - intros ([c y] & -> & Hin). simpl.
    by apply (elem_of_pairs_from_daily _ _ _ _ Hp) in Hin as [? _].
  - intros Hel. pose proof Hel as [Hsize _]%eligible_city_ids_spec.
    destruct (set_choose_L
      (good_year_set (_compute_good_years (with_year <$> daily)) city))
      as [y Hy].
    { intros He. rewrite He, size_empty in Hsize. lia. }
    exists (city, y). split; [done|].
    by apply (elem_of_pairs_from_daily _ _ _ _ Hp).
Qed.

(** C1, as the code computes it.  On a daily table with one name per city
    and a distribution table whose year-level rows carry, for each city and
    year, the number of distinct dates and the number of days with at least
    18 available hours of the daily table, the two entry points return the
    same set of cities.  Without the condition on names the same holds when
    the counts are taken per city, name and year, the key of the frames the
    code builds. *)
Theorem entry_points_agree (daily : list Daily) (distributions : list Dist) :
  (one_name_per_city daily → coverage_equivalent daily distributions →
   eligible_city_ids_from_daily daily
   = Ok (eligible_city_ids_from_distributions distributions))
  ∧ (coverage_equivalent_named daily distributions →
     eligible_city_ids_from_daily daily
     = Ok (eligible_city_ids_from_distributions distributions)).
Proof.
  rewrite ids_from_daily_value, from_distributions_value. split.
  - intros Hname Hequiv. f_equal. apply eligible_ids_agree.
    intros city y. by apply good_years_agree.
  - intros Hequiv. f_equal. apply eligible_ids_agree.
    intros city y. by apply good_years_agree_named.
Qed.

Ltac elem_of_cases H :=
  repeat (apply elem_of_cons in H as [->|H]);
  [..|by apply not_elem_of_nil in H].

Lemma agree_daily_one_name : one_name_per_city agree_daily.
Proof.
  intros r1 r2 H1 H2. unfold agree_daily in H1, H2. cbn in H1, H2.
  elem_of_cases H1; elem_of_cases H2; done.
Qed.

Lemma agree_tables_equivalent : coverage_equivalent agree_daily agree_distributions.
Proof.
  split.
  - intros r y Hr Hy. unfold agree_daily in Hr. cbn in Hr.
    elem_of_cases Hr; vm_compute in Hy; injection Hy as <-;
      apply Exists_exists, (bool_decide_unpack _); by vm_compute.
  - intros x y Hx Hl Hy. vm_compute in Hx.
    elem_of_cases Hx; vm_compute in Hl; try done;
      vm_compute in Hy; injection Hy as <-; by vm_compute.
Qed.

Lemma renamed_tables_equivalent :
  coverage_equivalent_named renamed_daily renamed_distributions.
Proof.
  split.
  - intros r y Hr Hy. unfold renamed_daily, agree_daily in Hr. cbn in Hr.
    elem_of_cases Hr; vm_compute in Hy; injection Hy as <-;
      apply Exists_exists, (bool_decide_unpack _); by vm_compute.
  - intros x y Hx Hl Hy. vm_compute in Hx.
    elem_of_cases Hx; vm_compute in Hl; try done;
      vm_compute in Hy; injection Hy as <-; by vm_compute.
Qed.

Lemma entry_points_agree_witness :
  (eligible_city_ids_from_daily agree_daily
   = Ok (eligible_city_ids_from_distributions agree_distributions)
   ∧ eligible_city_ids_from_distributions agree_distributions = {[ 1 ]})
  ∧ (eligible_city_ids_from_daily renamed_daily
     = Ok (eligible_city_ids_from_distributions renamed_distributions)
     ∧ eligible_city_ids_from_distributions renamed_distributions = {[ 1 ]}).
Proof.
  split; (split; [|by vm_compute]).
  - apply (proj1 (entry_points_agree agree_daily agree_distributions)).
    + exact agree_daily_one_name.
    + exact agree_tables_equivalent.
  - apply (proj2 (entry_points_agree renamed_daily renamed_distributions)).
    exact renamed_tables_equivalent.
Defined.

Lemma split_tables_equivalent :
  coverage_equivalent split_daily split_distributions.
Proof.
  split.
  - intros r y Hr Hy. unfold split_daily, agree_daily in Hr. cbn in Hr.
    elem_of_cases Hr; vm_compute in Hy; injection Hy as <-;
      apply Exists_exists, (bool_decide_unpack _); by vm_compute.
  - intros x y Hx Hl Hy. vm_compute in Hx.
    elem_of_cases Hx; vm_compute in Hl; try done;
      vm_compute in Hy; injection Hy as <-; by vm_compute.
Qed.

(** C1, the equivalence as the specification words it, on counts per
    (city_id, year) alone: city 1 has in 2019 a covered day under the name
    "Kyiv" and a poorly covered day under the name "Kiev", and one covered
    day in each of 2021, 2022 and 2024.  The daily entry point groups by
    name, finds the good year (1, "Kyiv", 2019) and returns city 1; the
    year-level table with the same counts per (city_id, year) has 1 covered
    day out of 2 in 2019, and the distribution entry point returns no
    city. *)
Lemma entry_points_disagree_on_split_names :
  coverage_equivalent split_daily split_distributions
  ∧ eligible_city_ids_from_daily split_daily = Ok {[ 1 ]}
  ∧ eligible_city_ids_from_distributions split_distributions = ∅
  ∧ eligible_city_ids_from_daily split_daily
    ≠ Ok (eligible_city_ids_from_distributions split_distributions).
Proof.
  split; [exact split_tables_equivalent|].
  split; [by vm_compute|]. split; [by vm_compute|].
  by vm_compute.
Qed.


(** * Further properties of the code *)

(** ** Groups partition a frame *)

Section Partition.
Context {A K : Type} `{EqDecision K}.
Implicit Types (key : A → K) (df : list A).

Lemma sum_indicator (k0 : K) (ks : list K) :
  NoDup ks → k0 ∈ ks →
  sum_Z ((λ k, if decide (k0 = k) then 1 else 0) <$> ks) = 1.
Proof.
  induction 1 as [|k ks Hk Hnd IH]; [by intros ?%not_elem_of_nil|].
  intros Hin. csimpl. destruct (decide (k0 = k)) as [->|Hne].
  - assert (sum_Z ((λ k', if decide (k = k') then 1 else 0) <$> ks) = 0) as ->; [|done].
    clear IH Hin Hnd. induction ks as [|k' ks IH]; [done|]. csimpl.
    rewrite decide_False by (intros ->; apply Hk; left).
    rewrite IH; [done|]. intros ?. apply Hk. by right.
  - apply elem_of_cons in Hin as [?|Hin]; [done|]. by rewrite IH.
Qed.

Lemma sum_Z_add {B} (f g : B → Z) (l : list B) :
  sum_Z ((λ x, f x + g x) <$> l) = sum_Z (f <$> l) + sum_Z (g <$> l).
Proof. induction l as [|x l IH]; [done|]. csimpl. lia. Qed.

Lemma sum_Z_zero {B} (l : list B) : sum_Z ((λ _, 0) <$> l) = 0.
Proof. induction l as [|x l IH]; [done|]. csimpl. lia. Qed.

(** The sizes of the groups of distinct keys that cover a frame add up to
    the size of the frame. *)
Lemma sum_group_sizes key df (ks : list K) :
  NoDup ks → (∀ r, r ∈ df → key r ∈ ks) →
  sum_Z ((λ k, len (filter (λ r, key r = k) df)) <$> ks) = len df.
Proof.
  intros Hnd. induction df as [|r df IH]; intros Hcover.
  - unfold len. simpl. apply sum_Z_zero.
  - rewrite (list_fmap_ext _
      (λ k, (if decide (key r = k) then 1 else 0)
            + len (filter (λ r, key r = k) df)) ks).
    + rewrite sum_Z_add, sum_indicator, IH; [unfold len; simpl; lia| |done|].
      * intros r' Hr'. apply Hcover. by right.
      * apply Hcover. left.
    + intros _ k _. rewrite filter_cons. unfold len.
      destruct (decide (key r = k)); simpl; lia.
Qed.

Lemma groupby_sizes key df (P : A → Prop) `{!∀ x, Decision (P x)} :
  sum_Z ((λ kg, len (filter P kg.2)) <$> groupby key df) = len (filter P df).
Proof.
  unfold groupby. rewrite <- list_fmap_compose.
  rewrite <- (sum_group_sizes key (filter P df) (remove_dups (key <$> df))).
  - apply (f_equal sum_Z), list_fmap_ext. intros _ k _. simpl.
    f_equal. rewrite !list_filter_filter. apply filter_ext_in. tauto.
  - apply NoDup_remove_dups.
  - intros r [_ Hr]%list_elem_of_filter.
    apply elem_of_remove_dups. by apply list_elem_of_fmap_2.
Qed.
End Partition.

Lemma NoDup_omap_id {A} (l : list (option A)) : NoDup l → NoDup (omap id l).
Proof.
  induction 1 as [|x l Hx Hnd IH]; [constructor|]. csimpl.
  destruct x as [a|]; [|done]. simpl. constructor; [|done].
  intros (y & Hy & Hya)%list_elem_of_omap. simpl in Hya. by subst y.
Qed.

(** ** More on the daily table *)

Lemma daily_row_key_eq guideline ws k g :
  daily_row_key (daily_row guideline ws k g)
  = (k.1.1.1, Some k.1.1.2, Some k.1.2, Timestamp k.2).
Proof. by destruct k as [[[cid name] region] date]. Qed.

Lemma daily_aggregates_value hourly guideline ws daily :
  _daily_aggregates hourly guideline ws = Ok daily →
  daily = omap (λ '(k, g), (λ k', daily_row guideline ws k' g) <$> k)
               (daily_groups (filter (λ h, h_is_valid h) hourly)).
Proof.
  unfold _daily_aggregates. destruct (filter _ hourly); [done|]. by intros [= <-].
Qed.

(** The daily table has one row per (city_id, city_name, region_name,
    date_local). *)
Lemma daily_keys_NoDup hourly guideline ws daily :
  _daily_aggregates hourly guideline ws = Ok daily →
  NoDup (daily_row_key <$> daily).
Proof.
  intros ->%daily_aggregates_value.
  set (groups := daily_groups _).
  assert (daily_row_key <$> omap (λ '(k, g),
            (λ k', daily_row guideline ws k' g) <$> k) groups
          = (λ k : DailyKey, (k.1.1.1, Some k.1.1.2, Some k.1.2, Timestamp k.2))
              <$> omap id (groups.*1)) as ->.
  { generalize groups. intros l. induction l as [|[[k|] g] l IH]; [done|..]; csimpl.
    - by rewrite IH, daily_row_key_eq.
    - done. }
  apply NoDup_fmap_2.
  - intros [[[c1 n1] r1] d1] [[[c2 n2] r2] d2] [=]. by simplify_eq.
  - apply NoDup_omap_id, groupby_keys_NoDup.
Qed.





(** A record whose city name or region is null (no metadata match) is in no
    group: every daily row carries a name and a region, and a city whose
    valid records all lack one of them has no daily row at all. *)
Theorem daily_rows_need_metadata hourly guideline ws daily :
  _daily_aggregates hourly guideline ws = Ok daily →
  (∀ row, row ∈ daily →
     is_Some (d_city_name row) ∧ is_Some (d_region_name row))
  ∧ (∀ city,
       (∀ h, h ∈ hourly → h_is_valid h → h_city_id h = city →
             h_city_name h = None ∨ h_region_name h = None) →
       ∀ row, row ∈ daily → d_city_id row ≠ city).
Proof.
  intros Hrun. split.
  - intros row Hrow.
    destruct (daily_aggregates_rows _ _ _ _ _ Hrun Hrow)
      as ([[[cid name] region] date] & g & _ & _ & ->).
    split; by eexists.
  - intros city Hnull row Hrow Hcity.
    destruct (daily_aggregates_rows _ _ _ _ _ Hrun Hrow)
      as (k & g & Hg & Hne & ->).
    destruct g as [|h g]; [done|].
    assert (h ∈ filter (λ h, h_is_valid h ∧ daily_key h = Some k) hourly)
      as [[Hv Hk] Hin]%list_elem_of_filter by (rewrite <- Hg; left).
    destruct k as [[[cid name] region] date]. change (cid = city) in Hcity.
    unfold daily_key in Hk.
    destruct (h_city_name h) eqn:Hn, (h_region_name h) eqn:Hr; simplify_eq/=.
    destruct (Hnull h Hin Hv eq_refl); congruence.
Qed.

Lemma daily_rows_need_metadata_witness :
  _daily_aggregates orphan_hourly 15 default_wartime_start = Ok [kyiv_scenario_row]
  ∧ d_city_id kyiv_scenario_row ≠ 9.
Proof.
  assert (_daily_aggregates orphan_hourly 15 default_wartime_start
          = Ok [kyiv_scenario_row]) as Hrun by (by vm_compute).
  split; [exact Hrun|].
  apply (proj2 (daily_rows_need_metadata orphan_hourly 15 default_wartime_start
                  [kyiv_scenario_row] Hrun) 9); [|left].
  intros h Hh _ Hc. unfold orphan_hourly, kyiv_scenario, scenario_day in Hh.
  cbn in Hh. repeat (apply elem_of_cons in Hh as [->|Hh]; [by (done || left)|]).
  by apply not_elem_of_nil in Hh.
Defined.

(** ** Days without a reading *)

Lemma insert_sorted_not_nil x v : insert_sorted x v ≠ [].
Proof. destruct v as [|y v]; [done|]. simpl. by destruct (Qle_bool x y). Qed.

Lemma sort_values_nil v : sort_values v = [] ↔ v = [].
Proof.
  split; [|by intros ->]. destruct v as [|x v]; [done|]. simpl.
  intros H. by apply insert_sorted_not_nil in H.
Qed.

Lemma series_mean_None s : series_mean s = None ↔ dropna_values s = [].
Proof. unfold series_mean. by destruct (dropna_values s). Qed.

Lemma series_quantile_None q s :
  series_quantile q s = None ↔ dropna_values s = [].
Proof.
  unfold series_quantile. rewrite <- sort_values_nil.
  by destruct (sort_values (dropna_values s)).
Qed.

Lemma series_max_None s : series_max s = None ↔ dropna_values s = [].
Proof. unfold series_max. by destruct (dropna_values s). Qed.

Lemma dropna_values_nil (s : list Float) :
  dropna_values s = [] ↔ Forall (λ x, x = None) s.
Proof.
  unfold dropna_values. induction s as [|[x|] s IH]; csimpl.
  - split; [constructor|done].
  - split; [done|]. by intros [[=] _]%Forall_cons.
  - rewrite IH, Forall_cons. tauto.
Qed.

Lemma exceed_count_zero guideline (s : list Float) :
  Forall (λ x, x = None) s → filter (λ x, exceed guideline x) s = [].
Proof.
  induction 1 as [|x s -> _ IH]; [done|].
  by rewrite filter_cons, decide_False, IH by (simpl; tauto).
Qed.

Lemma Qred_zero_div (a : Z) : 0 < a → Qred (Qz 0 / Qz a) = 0%Q.
Proof. destruct a as [|p|p]; try lia. intros _. done. Qed.

(** The members of the group of a daily row are the valid records of its
    day. *)
Lemma daily_row_group hourly guideline ws daily row :
  _daily_aggregates hourly guideline ws = Ok daily → row ∈ daily →
  ∃ k g, row = daily_row guideline ws k g ∧ g ≠ []
    ∧ ∀ h, h ∈ g ↔ h ∈ hourly ∧ h_is_valid h ∧ same_day row h.
Proof.
  intros Hrun Hrow.
  destruct (daily_aggregates_rows _ _ _ _ _ Hrun Hrow) as (k & g & Hg & Hne & ->).
  exists k, g. split; [done|]. split; [done|]. intros h.
  rewrite Hg, list_elem_of_filter.
  destruct k as [[[cid name] region] date]. unfold same_day, daily_key. simpl.
  destruct (h_city_name h), (h_region_name h); simpl; naive_solver.
Qed.

Lemma daily_row_stats guideline ws k g :
  d_pm25_mean (daily_row guideline ws k g) = series_mean (h_pm25 <$> g)
  ∧ d_pm25_median (daily_row guideline ws k g) = series_median (h_pm25 <$> g)
  ∧ d_pm25_max (daily_row guideline ws k g) = series_max (h_pm25 <$> g)
  ∧ d_exceedance_hours (daily_row guideline ws k g)
    = len (filter (λ x, exceed guideline x) (h_pm25 <$> g)).
Proof. by destruct k as [[[cid name] region] date]. Qed.

(** A valid record with a NaN reading still counts as an available hour.
    The daily mean, median and maximum are NaN exactly when no valid record
    of the day has a reading; such a day has exceedance_hours = 0 and
    exceedance_share = 0, not NaN. *)
Theorem day_without_readings hourly guideline ws daily row :
  _daily_aggregates hourly guideline ws = Ok daily → row ∈ daily →
  let no_reading :=
    ∀ h, h ∈ hourly → h_is_valid h → same_day row h → h_pm25 h = None in
  (d_pm25_mean row = None ↔ no_reading)
  ∧ (d_pm25_median row = None ↔ no_reading)
  ∧ (d_pm25_max row = None ↔ no_reading)
  ∧ (no_reading →
     1 ≤ d_available_hours row ∧ d_exceedance_hours row = 0
     ∧ d_exceedance_share row = Some 0%Q).
Proof.
  intros Hrun Hrow no_reading.
  destruct (daily_row_group _ _ _ _ _ Hrun Hrow) as (k & g & -> & Hne & Hg).
  assert (Forall (λ x, x = None) (h_pm25 <$> g) ↔ no_reading) as Hnone.
  { rewrite Forall_fmap, Forall_forall. unfold no_reading.
    split; intros H h; [intros ???|intros ?]; apply H; apply Hg; tauto. }
  destruct (daily_row_hours guideline ws k g) as (Hav & _ & Hsh).
  assert (1 ≤ len g) as Hpos by (unfold len; destruct g; [done|simpl; lia]).
  destruct (daily_row_stats guideline ws k g) as (-> & -> & -> & Hex).
  rewrite series_mean_None, series_max_None.
  unfold series_median. rewrite series_quantile_None, dropna_values_nil.
  split; [done|]. split; [done|]. split; [done|].
  intros Hno%Hnone. rewrite Hsh, Hex, Hav, (exceed_count_zero _ _ Hno).
  split; [done|]. split; [done|].
  unfold np_where_share. rewrite decide_True by lia.
  change (len []) with 0. by rewrite Qred_zero_div by lia.
Qed.

Lemma day_without_readings_witness :
  d_pm25_mean nan_day_row = None ∧ d_available_hours nan_day_row = 3
  ∧ d_exceedance_share nan_day_row = Some 0%Q.
Proof.
  assert (_daily_aggregates nan_day 15 default_wartime_start = Ok [nan_day_row])
    as Hrun by (by vm_compute).
  assert (nan_day_row ∈ [nan_day_row]) as Hrow by left.
  destruct (day_without_readings nan_day 15 default_wartime_start
              [nan_day_row] nan_day_row Hrun Hrow) as (Hmean & _ & _ & Hshare).
  assert (∀ h, h ∈ nan_day → h_is_valid h → same_day nan_day_row h
               → h_pm25 h = None) as Hno.
  { intros h Hh _ _. unfold nan_day in Hh. cbn in Hh.
    repeat (apply elem_of_cons in Hh as [->|Hh]; [done|]).
    by apply not_elem_of_nil in Hh. }
  split; [by apply Hmean|]. split; [by vm_compute|]. by apply Hshare.
Defined.

(** ** More on the eligibility rule *)

Lemma good_years_split (ys : gset Z) :
  size ys = (size (prewar_years ys) + size (wartime_years ys))%nat.
Proof.
  rewrite <- size_union.
  - f_equal. apply set_eq. intros y. unfold prewar_years, wartime_years.
    rewrite elem_of_union, !elem_of_filter. split; [|tauto].
    intros Hy. destruct (decide (y ≤ 2021)); [left|right]; split; (done || lia).
  - intros y. unfold prewar_years, wartime_years.
    rewrite !elem_of_filter. lia.
Qed.

(** The years up to 2021 and the years from 2022 on never overlap, so the
    test on the total number of good years adds nothing: a city is eligible
    exactly when it has 2 good years before and 2 good years in wartime. *)
Theorem total_years_test_is_implied good_years city :
  city ∈ _eligible_city_ids good_years
  ↔ (2 ≤ size (prewar_years (good_year_set good_years city))
     ∧ 2 ≤ size (wartime_years (good_year_set good_years city)))%nat.
Proof.
  rewrite eligible_city_ids_spec. unfold eligible_rule.
  rewrite (good_years_split (good_year_set good_years city)). lia.
Qed.

Lemma good_year_set_mono (gy gy' : list Coverage) city :
  (∀ g, g ∈ gy → g ∈ gy') → good_year_set gy city ⊆ good_year_set gy' city.
Proof.
  intros Hsub y. rewrite !elem_of_good_year_set. naive_solver.
Qed.

(** More good years never cost a city its eligibility. *)
Theorem eligible_city_ids_monotone (gy gy' : list Coverage) :
  (∀ g, g ∈ gy → g ∈ gy') →
  _eligible_city_ids gy ⊆ _eligible_city_ids gy'.
Proof.
  intros Hsub city. rewrite !eligible_city_ids_spec. unfold eligible_rule.
  pose proof (good_year_set_mono gy gy' city Hsub) as Hys.
  pose proof (subseteq_size _ _ Hys).
  assert (prewar_years (good_year_set gy city)
          ⊆ prewar_years (good_year_set gy' city)) as Hp.
  { unfold prewar_years. intros y. rewrite !elem_of_filter. set_solver. }
  assert (wartime_years (good_year_set gy city)
          ⊆ wartime_years (good_year_set gy' city)) as Hw.
  { unfold wartime_years. intros y. rewrite !elem_of_filter. set_solver. }
  apply subseteq_size in Hp, Hw. lia.
Qed.

Lemma eligible_city_ids_monotone_witness :
  _eligible_city_ids (remove_year 1 2021 four_good_years)
  ⊆ _eligible_city_ids four_good_years.
Proof.
  apply (eligible_city_ids_monotone (remove_year 1 2021 four_good_years)
           four_good_years).
  intros g Hg. unfold remove_year in Hg.
  by apply list_elem_of_filter in Hg as [_ Hg].
Defined.

Lemma elem_of_years_of pairs city y : y ∈ years_of pairs city ↔ (city, y) ∈ pairs.
Proof.
  unfold years_of. rewrite elem_of_map. split.
  - intros ([c y'] & -> & [Hc Hin]%elem_of_filter). simpl in *. by subst c.
  - intros Hin. exists (city, y). split; [done|]. by apply elem_of_filter.
Qed.

(** The result is closed under the rule: a city that appears in one
    eligible pair appears in at least four, at least two of them up to
    2021 and at least two from 2022 on. *)
Theorem eligible_pairs_come_in_fours daily pairs city y :
  eligible_city_year_pairs_from_daily daily = Ok pairs →
  (city, y) ∈ pairs →
  (4 ≤ size (years_of pairs city)
   ∧ 2 ≤ size (prewar_years (years_of pairs city))
   ∧ 2 ≤ size (wartime_years (years_of pairs city)))%nat.
Proof.
  intros Hp Hin.
  pose proof Hin as [Hel _]%(elem_of_pairs_from_daily _ _ _ _ Hp).
  replace (years_of pairs city)
    with (good_year_set (_compute_good_years (with_year <$> daily)) city).
  - by apply eligible_city_ids_spec.
  - apply set_eq. intros y'.
    rewrite elem_of_years_of, (elem_of_pairs_from_daily _ _ _ _ Hp). tauto.
Qed.

Lemma covered_days_pos (rows : list Daily) :
  0 < covered_days rows → ∃ r, r ∈ rows ∧ 18 ≤ d_available_hours r.
Proof.
  unfold covered_days, len.
  destruct (filter _ rows) as [|r l] eqn:Hf; [simpl; lia|]. intros _.
  assert (r ∈ filter (λ r, 18 ≤ d_available_hours r) rows)
    as [? ?]%list_elem_of_filter by (rewrite Hf; left).
  eauto.
Qed.

(** Every eligible pair stands on data: the daily table holds a row of
    that city, dated in that year, with at least 18 available hours. *)
Theorem eligible_pairs_have_covered_days daily pairs city y :
  eligible_city_year_pairs_from_daily daily = Ok pairs →
  (city, y) ∈ pairs →
  ∃ r, r ∈ daily ∧ d_city_id r = city ∧ row_year r = Some y
       ∧ 18 ≤ d_available_hours r.
Proof.
  intros Hp [_ Hy]%(elem_of_pairs_from_daily _ _ _ _ Hp).
  apply good_year_from_daily_named in Hy as (name & Hd & Hr).
  destruct (covered_days_pos (named_rows daily city name y)) as (r & Hin & H18);
    [lia|].
  apply list_elem_of_filter in Hin as [(Hc & _ & Hyr) Hin]. eauto.
Qed.

Lemma mixed_table_pairs :
  eligible_city_year_pairs_from_daily mixed_table = Ok mixed_pairs.
Proof. by vm_compute. Qed.

Lemma eligible_pairs_come_in_fours_witness :
  (4 ≤ size (years_of mixed_pairs 1)
   ∧ 2 ≤ size (prewar_years (years_of mixed_pairs 1))
   ∧ 2 ≤ size (wartime_years (years_of mixed_pairs 1)))%nat.
Proof.
  apply (eligible_pairs_come_in_fours mixed_table mixed_pairs 1 2019).
  - exact mixed_table_pairs.
  - apply (bool_decide_unpack _). by vm_compute.
Defined.

Lemma eligible_pairs_have_covered_days_witness :
  ∃ r, r ∈ mixed_table ∧ d_city_id r = 1 ∧ row_year r = Some 2019
       ∧ 18 ≤ d_available_hours r.
Proof.
  apply (eligible_pairs_have_covered_days mixed_table mixed_pairs 1 2019).
  - exact mixed_table_pairs.
  - apply (bool_decide_unpack _). by vm_compute.
Defined.

(** ** Row order *)

Lemma distinct_dates_perm (rows rows' : list Daily) :
  rows ≡ₚ rows' → distinct_dates rows = distinct_dates rows'.
Proof.
  intros Hp. unfold distinct_dates. do 2 f_equal. apply set_eq. intros d.
  by rewrite !elem_of_list_to_set, Hp.
Qed.

Lemma covered_days_perm (rows rows' : list Daily) :
  rows ≡ₚ rows' → covered_days rows = covered_days rows'.
Proof. intros Hp. unfold covered_days, len. by rewrite Hp. Qed.

Lemma named_rows_perm (daily daily' : list Daily) city name y :
  daily ≡ₚ daily' → named_rows daily city name y ≡ₚ named_rows daily' city name y.
Proof. intros Hp. unfold named_rows. by rewrite Hp. Qed.

Lemma good_year_set_perm (daily daily' : list Daily) city :
  daily ≡ₚ daily' →
  good_year_set (_compute_good_years (with_year <$> daily)) city
  = good_year_set (_compute_good_years (with_year <$> daily')) city.
Proof.
  intros Hp. apply set_eq. intros y. rewrite !good_year_from_daily_named.
  apply exist_proper. intros name.
  by rewrite (distinct_dates_perm _ _ (named_rows_perm _ _ city name y Hp)),
             (covered_days_perm _ _ (named_rows_perm _ _ city name y Hp)).
Qed.

Lemma good_year_set_dist_ext (dist dist' : list Dist) city :
  (∀ x, x ∈ dist ↔ x ∈ dist') →
  good_year_set (distribution_good_years dist) city
  = good_year_set (distribution_good_years dist') city.
Proof.
  intros Hsame. apply set_eq. intros y.
  rewrite !good_year_from_distributions_rows.
  apply exist_proper. intros x. by rewrite Hsame.
Qed.

Lemma eligible_ids_ext (gy gy' : list Coverage) :
  (∀ city, good_year_set gy city = good_year_set gy' city) →
  _eligible_city_ids gy = _eligible_city_ids gy'.
Proof.
  intros Hsame. apply set_eq. intros city.
  by rewrite !eligible_city_ids_spec, Hsame.
Qed.

(** The order of the rows does not matter to either entry point: the
    raw-daily one gives the same pairs on any permutation of the daily
    table, and the distribution one depends only on which rows the table
    holds (neither order nor repetition). *)
Theorem eligibility_ignores_row_order :
  (∀ daily daily' : list Daily, daily ≡ₚ daily' →
     eligible_city_year_pairs_from_daily daily
     = eligible_city_year_pairs_from_daily daily')
  ∧ (∀ dist dist' : list Dist, (∀ x, x ∈ dist ↔ x ∈ dist') →
       eligible_city_ids_from_distributions dist
       = eligible_city_ids_from_distributions dist').
Proof.
  split.
  - intros daily daily' Hp.
    destruct (eligible_city_year_pairs_from_daily daily) as [pairs|] eqn:H1;
      [|by rewrite pairs_from_daily_value in H1].
    destruct (eligible_city_year_pairs_from_daily daily') as [pairs'|] eqn:H2;
      [|by rewrite pairs_from_daily_value in H2].
    f_equal. apply set_eq. intros [c y].
    rewrite (elem_of_pairs_from_daily _ _ _ _ H1),
            (elem_of_pairs_from_daily _ _ _ _ H2).
    rewrite (eligible_ids_ext _ (_compute_good_years (with_year <$> daily')))
      by (intros; by apply good_year_set_perm).
    by rewrite (good_year_set_perm daily daily').
  - intros dist dist' Hsame. rewrite !from_distributions_value.
    apply eligible_ids_ext. intros city. by apply good_year_set_dist_ext.
Qed.

Lemma eligibility_ignores_row_order_witness :
  eligible_city_year_pairs_from_daily (reverse mixed_table)
  = eligible_city_year_pairs_from_daily mixed_table.
Proof.
  apply (proj1 eligibility_ignores_row_order). apply reverse_Permutation.
Defined.

(** ** Filtering on the eligible pairs, and filtering again *)

(** In the table of [_daily_aggregates] the [year] column is the year of
    the date, and every date is a timestamp. *)
Lemma daily_year_column hourly guideline ws daily r :
  _daily_aggregates hourly guideline ws = Ok daily → r ∈ daily →
  d_year r = row_year r ∧ ∃ d, d_date_local r = Timestamp d.
Proof.
  intros Hrun Hr.
  destruct (daily_aggregates_rows _ _ _ _ _ Hrun Hr)
    as ([[[cid name] region] date] & g & _ & _ & ->).
  split; [done|]. by eexists.
Qed.

Lemma filter_none {A} (P : A → Prop) `{!∀ x, Decision (P x)} (l : list A) :
  (∀ x, x ∈ l → ¬ P x) → filter P l = [].
Proof.
  induction l as [|a l IH]; [done|]. intros Hall.
  rewrite filter_cons, decide_False by (apply Hall; left).
  apply IH. intros x Hx. apply Hall. by right.
Qed.

Section Refilter.
Variable daily : list Daily.
Variable pairs : gset (Z * Z).
Hypothesis Hyear : ∀ r, r ∈ daily → d_year r = row_year r.
Hypothesis Hpairs : eligible_city_year_pairs_from_daily daily = Ok pairs.

Lemma named_rows_kept city name y :
  (city, y) ∈ pairs →
  named_rows (filter (λ d, pair_in pairs (daily_pair d)) daily) city name y
  = named_rows daily city name y.
Proof.
  intros Hin. unfold named_rows. rewrite list_filter_filter.
  apply filter_ext_in. intros r Hr. split; [tauto|].
  intros (Hc & Hn & Hy). split; [done|].
  apply pair_in_daily. exists y. by rewrite (Hyear r Hr), Hc.
Qed.

Lemma named_rows_dropped city name y :
  (city, y) ∉ pairs →
  named_rows (filter (λ d, pair_in pairs (daily_pair d)) daily) city name y = [].
Proof.
  intros Hout. unfold named_rows. rewrite list_filter_filter.
  apply filter_none. intros r Hr [(Hc & Hn & Hy) Hp].
  apply pair_in_daily in Hp as (y' & Hy' & Hin).
  rewrite (Hyear r Hr), Hy in Hy'. injection Hy' as <-. by rewrite Hc in Hin.
Qed.

Lemma good_years_after_filter city y :
  y ∈ good_year_set (_compute_good_years
        (with_year <$> filter (λ d, pair_in pairs (daily_pair d)) daily)) city
  ↔ (city, y) ∈ pairs.
Proof.
  rewrite good_year_from_daily_named.
  destruct (decide ((city, y) ∈ pairs)) as [Hin|Hout].
  - setoid_rewrite (named_rows_kept _ _ _ Hin).
    rewrite <- good_year_from_daily_named. split; [done|]. intros _.
    by apply (elem_of_pairs_from_daily _ _ _ _ Hpairs) in Hin as [_ ?].
  - setoid_rewrite (named_rows_dropped _ _ _ Hout). split; [|done].
    intros (_ & Hpos & _). by vm_compute in Hpos.
Qed.

Lemma eligible_after_filter city :
  city ∈ _eligible_city_ids (_compute_good_years
        (with_year <$> filter (λ d, pair_in pairs (daily_pair d)) daily))
  ↔ city ∈ _eligible_city_ids (_compute_good_years (with_year <$> daily)).
Proof.
  rewrite !eligible_city_ids_spec.
  destruct (decide (city ∈ _eligible_city_ids
              (_compute_good_years (with_year <$> daily)))) as [Hel|Hnel].
  - replace (good_year_set (_compute_good_years (with_year <$>
               filter (λ d, pair_in pairs (daily_pair d)) daily)) city)
      with (good_year_set (_compute_good_years (with_year <$> daily)) city);
      [done|].
    apply set_eq. intros y.
    rewrite good_years_after_filter, (elem_of_pairs_from_daily _ _ _ _ Hpairs).
    tauto.
  - replace (good_year_set (_compute_good_years (with_year <$>
               filter (λ d, pair_in pairs (daily_pair d)) daily)) city)
      with (∅ : gset Z).
    + split; [|by intros ?%eligible_city_ids_spec].
      unfold eligible_rule. rewrite size_empty. lia.
    + symmetry. apply set_eq. intros y.
      rewrite good_years_after_filter, (elem_of_pairs_from_daily _ _ _ _ Hpairs).
      set_solver.
Qed.

Lemma pairs_after_filter :
  eligible_city_year_pairs_from_daily
    (filter (λ d, pair_in pairs (daily_pair d)) daily) = Ok pairs.
Proof.
  destruct (eligible_city_year_pairs_from_daily (filter _ daily))
    as [pairs'|] eqn:H'; [|by rewrite pairs_from_daily_value in H'].
  f_equal. apply set_eq. intros [c y].
  rewrite (elem_of_pairs_from_daily _ _ _ _ H').
  rewrite eligible_after_filter, good_years_after_filter.
  rewrite (elem_of_pairs_from_daily _ _ _ _ Hpairs). tauto.
Qed.

End Refilter.

(** The eligibility filter is stable: the eligible pairs of the daily table
    that the pipeline writes (the rows of the eligible pairs) are the
    eligible pairs it was filtered with. *)
Theorem eligibility_filter_is_stable hourly guideline ws daily pairs :
  _daily_aggregates hourly guideline ws = Ok daily →
  eligible_city_year_pairs_from_daily daily = Ok pairs →
  eligible_city_year_pairs_from_daily
    (merge_inner daily_pair daily (elements pairs)) = Ok pairs.
Proof.
  intros Hrun Hpairs. rewrite merge_inner_elements.
  apply pairs_after_filter; [|done].
  intros r Hr. by apply (daily_year_column _ _ _ _ _ Hrun Hr).
Qed.

Lemma eligibility_filter_is_stable_witness :
  eligible_city_year_pairs_from_daily
    (merge_inner daily_pair pipeline_daily (elements mixed_pairs)) = Ok mixed_pairs.
Proof.
  apply (eligibility_filter_is_stable pipeline_hourly 15 default_wartime_start).
  - by vm_compute.
  - by vm_compute.
Defined.

(** ** Outcomes of the pipeline *)

Lemma length_remove_dups {A} `{EqDecision A} (l : list A) :
  (length (remove_dups l) ≤ length l)%nat.
Proof.
  induction l as [|x l IH]; [done|]. simpl.
  destruct (decide_rel elem_of x l); simpl; lia.
Qed.

Lemma size_list_to_set_le `{Countable A} (l : list A) :
  (size (list_to_set (C:=gset A) l) ≤ length l)%nat.
Proof.
  replace (list_to_set (C:=gset A) l) with (list_to_set (C:=gset A) (remove_dups l)).
  - rewrite size_list_to_set by apply NoDup_remove_dups. apply length_remove_dups.
  - apply set_eq. intros x. by rewrite !elem_of_list_to_set, elem_of_remove_dups.
Qed.

Lemma length_omap_le {A B} (f : A → option B) (l : list A) :
  (length (omap f l) ≤ length l)%nat.
Proof. induction l as [|x l IH]; [done|]. csimpl. destruct (f x); simpl; lia. Qed.

(** The pipeline stops on exactly two conditions, both before anything is
    written: no valid hourly record, or an empty set of eligible pairs. *)
Theorem aggregate_data_failures hourly ws guideline fs :
  (Forall (λ h, ¬ h_is_valid h) hourly →
   aggregate_data hourly ws guideline fs
   = (Raise (RuntimeError "No valid hourly records available for aggregation"), fs))
  ∧ (∀ e fs', aggregate_data hourly ws guideline fs = (Raise e, fs') →
       fs' = fs
       ∧ ((e = RuntimeError "No valid hourly records available for aggregation"
           ∧ Forall (λ h, ¬ h_is_valid h) hourly)
          ∨ (e = RuntimeError "No cities meet coverage criteria for analysis"
             ∧ ∃ daily, _daily_aggregates hourly guideline ws = Ok daily
                 ∧ eligible_city_year_pairs_from_daily daily = Ok ∅))).
Proof.
  split.
  - intros Hinv. unfold aggregate_data, bind, lift, _daily_aggregates.
    by rewrite (filter_none _ hourly)
      by (by intros h Hh; apply (proj1 (Forall_forall _ _) Hinv)).
  - intros e fs'. unfold aggregate_data, bind, lift, raise, lift, to_parquet, pure.
    destruct (_daily_aggregates hourly guideline ws) as [daily|e0] eqn:Hd.
    + rewrite pairs_from_daily_value.
      destruct (decide (_ = ∅)) as [He|Hne]; [|done]. intros [= <- <-].
      split; [done|]. right. split; [done|]. exists daily. split; [done|].
      by rewrite pairs_from_daily_value, He.
    + intros [= <- <-]. split; [done|]. left.
      unfold _daily_aggregates in Hd.
      destruct (filter _ hourly) as [|h l] eqn:Hf; [|done].
      injection Hd as <-. split; [done|].
      apply Forall_forall. intros h Hh Hv.
      assert (h ∈ filter (λ h, h_is_valid h) hourly) as Hin
        by (by apply list_elem_of_filter).
      rewrite Hf in Hin. by apply not_elem_of_nil in Hin.
Qed.

Lemma aggregate_data_failures_witness :
  aggregate_data [] default_wartime_start 15 ∅
  = (Raise (RuntimeError "No valid hourly records available for aggregation"), ∅).
Proof.
  apply (proj1 (aggregate_data_failures [] default_wartime_start 15%Q ∅)).
  constructor.
Defined.

Lemma pair_has_row daily pairs city y :
  eligible_city_year_pairs_from_daily daily = Ok pairs →
  (city, y) ∈ pairs →
  ∃ r, r ∈ daily ∧ d_city_id r = city ∧ row_year r = Some y.
Proof.
  intros Hp [_ Hy]%(elem_of_pairs_from_daily _ _ _ _ Hp).
  apply good_year_from_daily_named in Hy as (name & Hd & _).
  destruct (distinct_dates_pos (named_rows daily city name y) Hd) as (r & Hin).
  apply list_elem_of_filter in Hin as [(Hc & _ & Hyr) Hin]. eauto.
Qed.

Lemma pair_years_size daily pairs city y :
  eligible_city_year_pairs_from_daily daily = Ok pairs →
  (city, y) ∈ pairs → (4 ≤ size (years_of pairs city))%nat.
Proof.
  intros Hp Hin.
  pose proof Hin as [[H4 _]%eligible_city_ids_spec _]%(elem_of_pairs_from_daily _ _ _ _ Hp).
  replace (years_of pairs city)
    with (good_year_set (_compute_good_years (with_year <$> daily)) city); [done|].
  apply set_eq. intros y'.
  rewrite elem_of_years_of, (elem_of_pairs_from_daily _ _ _ _ Hp).
  split; [|tauto]. intros Hy'. split; [|done].
  by apply (elem_of_pairs_from_daily _ _ _ _ Hp) in Hin as [? _].
Qed.

Lemma kept_daily_rows_at_least_four (daily : list Daily) pairs :
  (∀ r, r ∈ daily → d_year r = row_year r) →
  eligible_city_year_pairs_from_daily daily = Ok pairs → pairs ≠ ∅ →
  4 ≤ len (filter (λ d, pair_in pairs (daily_pair d)) daily).
Proof.
  intros Hyear Hp Hne.
  destruct (set_choose_L pairs Hne) as [[city y] Hin].
  pose proof (pair_years_size _ _ _ _ Hp Hin) as H4.
  set (kept := filter (λ d, pair_in pairs (daily_pair d)) daily).
  assert (years_of pairs city ⊆ list_to_set (omap d_year kept)) as Hsub.
  { intros y' Hy'%elem_of_years_of.
    destruct (pair_has_row _ _ _ _ Hp Hy') as (r & Hr & Hc & Hyr).
    rewrite elem_of_list_to_set, list_elem_of_omap. exists r.
    rewrite (Hyear r Hr). split; [|done]. apply list_elem_of_filter.
    split; [|done]. apply pair_in_daily. exists y'.
    by rewrite (Hyear r Hr), Hc. }
  apply subseteq_size in Hsub.
  pose proof (size_list_to_set_le (omap d_year kept)).
  pose proof (length_omap_le d_year kept). unfold len. lia.
Qed.

(** A successful run leaves every other file as it was, writes the two
    rollups of the filtered daily table, and reports the sizes of the four
    tables it wrote; it has at least one eligible city and at least four
    daily rows. *)
Theorem aggregate_data_success hourly ws guideline fs res fs' :
  aggregate_data hourly ws guideline fs = (Ok res, fs') →
  ∃ daily pairs,
    _daily_aggregates hourly guideline ws = Ok daily
    ∧ eligible_city_year_pairs_from_daily daily = Ok pairs
    ∧ pairs ≠ ∅
    ∧ (∀ path, path ∉ output_files → fs' !! path = fs !! path)
    ∧ fs' !! "city_distributions.parquet"
      = Some (DistTable (_city_distributions
                (filter (λ d, pair_in pairs (daily_pair d)) daily)))
    ∧ fs' !! "region_period_pm25.parquet"
      = Some (RegionTable (_region_period_summary
                (filter (λ d, pair_in pairs (daily_pair d)) daily)))
    ∧ hourly_rows res = len (filter (λ h, pair_in pairs (hourly_pair h)) hourly)
    ∧ daily_rows res = len (filter (λ d, pair_in pairs (daily_pair d)) daily)
    ∧ city_distribution_rows res
      = len (_city_distributions (filter (λ d, pair_in pairs (daily_pair d)) daily))
    ∧ region_period_rows res
      = len (_region_period_summary
               (filter (λ d, pair_in pairs (daily_pair d)) daily))
    ∧ eligible_cities res = Z.of_nat (size (set_map (D:=gset Z) fst pairs))
    ∧ 1 ≤ eligible_cities res
    ∧ 4 ≤ daily_rows res.
Proof.
  unfold aggregate_data, bind, lift, raise, lift, to_parquet, pure.
  destruct (_daily_aggregates hourly guideline ws) as [daily|e] eqn:Hd; [|done].
  destruct (eligible_city_year_pairs_from_daily daily) as [pairs|e] eqn:Hp;
    [|done].
  destruct (decide (pairs = ∅)) as [|Hne]; [done|].
  rewrite !merge_inner_elements. intros [= <- <-].
  exists daily, pairs. simpl.
  split; [done|]. split; [done|]. split; [done|]. split.
  { intros path Hpath. unfold output_files in Hpath.
    rewrite !lookup_insert_ne; [done|..]; intros <-; apply Hpath;
      repeat first [left|right]. }
  split; [by rewrite !lookup_insert_ne, lookup_insert_eq by done|].
  split; [by rewrite lookup_insert_eq|].
  do 5 (split; [done|]). split.
  - destruct (set_choose_L pairs Hne) as [p Hin].
    assert (p.1 ∈ set_map (D:=gset Z) fst pairs) as Hp1 by (by apply elem_of_map_2).
    assert (size (set_map (D:=gset Z) fst pairs) ≠ 0%nat) as Hsz.
    { intros H0. apply size_empty_inv in H0. set_solver. }
    unfold set_map in Hsz. lia.
  - apply kept_daily_rows_at_least_four; [|done..].
    intros r Hr. by apply (daily_year_column _ _ _ _ _ Hd Hr).
Qed.

Lemma aggregate_data_success_witness :
  ∃ daily pairs,
    _daily_aggregates pipeline_hourly 15 default_wartime_start = Ok daily
    ∧ eligible_city_year_pairs_from_daily daily = Ok pairs
    ∧ pairs ≠ ∅
    ∧ (∀ path, path ∉ output_files →
         (aggregate_data pipeline_hourly default_wartime_start 15 ∅).2 !! path
         = (∅ : Files) !! path)
    ∧ (aggregate_data pipeline_hourly default_wartime_start 15 ∅).2
        !! "city_distributions.parquet"
      = Some (DistTable (_city_distributions
                (filter (λ d, pair_in pairs (daily_pair d)) daily)))
    ∧ (aggregate_data pipeline_hourly default_wartime_start 15 ∅).2
        !! "region_period_pm25.parquet"
      = Some (RegionTable (_region_period_summary
                (filter (λ d, pair_in pairs (daily_pair d)) daily)))
    ∧ hourly_rows pipeline_result
      = len (filter (λ h, pair_in pairs (hourly_pair h)) pipeline_hourly)
    ∧ daily_rows pipeline_result
      = len (filter (λ d, pair_in pairs (daily_pair d)) daily)
    ∧ city_distribution_rows pipeline_result
      = len (_city_distributions (filter (λ d, pair_in pairs (daily_pair d)) daily))
    ∧ region_period_rows pipeline_result
      = len (_region_period_summary
               (filter (λ d, pair_in pairs (daily_pair d)) daily))
    ∧ eligible_cities pipeline_result
      = Z.of_nat (size (set_map (D:=gset Z) fst pairs))
    ∧ 1 ≤ eligible_cities pipeline_result
    ∧ 4 ≤ daily_rows pipeline_result.
Proof.
  apply (aggregate_data_success pipeline_hourly default_wartime_start 15 ∅
           pipeline_result).
  vm_compute. reflexivity.
Defined.

(** ** Ranges of the statistics *)

Lemma dropna_in_range lo hi (s : list Float) :
  Forall (in_range lo hi) s →
  Forall (λ v, (lo <= v)%Q ∧ (v <= hi)%Q) (dropna_values s).
Proof.
  unfold dropna_values. induction 1 as [|x s Hx _ IH]; [constructor|].
  csimpl. destruct x as [v|]; simpl; [|done]. constructor; [by apply Hx|done].
Qed.

Lemma Qsum_bounds lo hi (v : list Q) :
  Forall (λ x, (lo <= x)%Q ∧ (x <= hi)%Q) v →
  (lo * Qz (Z.of_nat (length v)) <= Qsum v)%Q
  ∧ (Qsum v <= hi * Qz (Z.of_nat (length v)))%Q.
Proof.
  induction 1 as [|x v [Hlo Hhi] _ [IHlo IHhi]].
  - unfold Qsum, Qz. simpl. change (inject_Z (Z.of_nat 0)) with 0%Q.
    split; lra.
  - simpl length. rewrite Nat2Z.inj_succ. unfold Z.succ, Qz in *.
    rewrite inject_Z_plus. change (inject_Z 1) with 1%Q.
    change (Qsum (x :: v)) with (x + Qsum v)%Q. split; lra.
Qed.

Lemma series_mean_in_range lo hi (s : list Float) :
  Forall (in_range lo hi) s → in_range lo hi (series_mean s).
Proof.
  intros Hs%dropna_in_range m. unfold series_mean.
  destruct (dropna_values s) as [|x v] eqn:Hv; [done|]. intros [= <-].
  destruct (Qsum_bounds lo hi (x :: v) Hs) as [Hlo Hhi].
  assert (0 < Qz (Z.of_nat (length (x :: v))))%Q as Hn.
  { unfold Qz. change 0%Q with (inject_Z 0). rewrite <- Zlt_Qlt. simpl. lia. }
  rewrite Qred_correct. split.
  - by apply Qle_shift_div_l.
  - by apply Qle_shift_div_r.
Qed.

Lemma elem_of_insert_sorted x y v : y ∈ insert_sorted x v ↔ y = x ∨ y ∈ v.
Proof.
  induction v as [|z v IH]; simpl.
  - rewrite list_elem_of_singleton. set_solver.
  - destruct (Qle_bool x z); rewrite !elem_of_cons; [tauto|].
    rewrite IH. tauto.
Qed.

Lemma elem_of_sort_values y v : y ∈ sort_values v ↔ y ∈ v.
Proof.
  induction v as [|x v IH]; [done|]. simpl.
  rewrite elem_of_insert_sorted, elem_of_cons, IH. tauto.
Qed.

Lemma nth_default_or_elem {A} (i : nat) (v : list A) (d : A) :
  nth i v d = d ∨ nth i v d ∈ v.
Proof.
  destruct (nth_in_or_default i v d) as [Hin|Heq]; [right|by left].
  by apply list_elem_of_In.
Qed.

Lemma Qfloor_fraction (p : Q) :
  (0 <= p - Qz (Qfloor p))%Q ∧ (p - Qz (Qfloor p) <= 1)%Q.
Proof.
  pose proof (Qfloor_le p) as Hle. pose proof (Qlt_floor p) as Hlt.
  rewrite inject_Z_plus in Hlt. change (inject_Z 1) with 1%Q in Hlt.
  unfold Qz. split; lra.
Qed.

Lemma Q_interpolation lo hi a b f :
  (lo <= a)%Q → (a <= hi)%Q → (lo <= b)%Q → (b <= hi)%Q →
  (0 <= f)%Q → (f <= 1)%Q →
  (lo <= a + (b - a) * f)%Q ∧ (a + (b - a) * f <= hi)%Q.
Proof. intros. split; nra. Qed.

Lemma series_quantile_in_range lo hi q (s : list Float) :
  Forall (in_range lo hi) s → in_range lo hi (series_quantile q s).
Proof.
  intros Hs%dropna_in_range m. unfold series_quantile.
  destruct (sort_values (dropna_values s)) as [|x v] eqn:Hv; [done|].
  intros [= <-]. rewrite Qred_correct.
  assert (∀ y, y ∈ x :: v → (lo <= y)%Q ∧ (y <= hi)%Q) as Hall.
  { intros y Hy. rewrite <- Hv in Hy.
    apply (proj1 (elem_of_sort_values _ _)) in Hy.
    exact (proj1 (Forall_forall _ _) Hs y Hy). }
  set (pos := (Qz (Z.of_nat (length (x :: v)) - 1) * q)%Q).
  set (a := nth (Z.to_nat (Qfloor pos)) (x :: v) x).
  set (b := nth (Z.to_nat (Qfloor pos + 1)) (x :: v) a).
  assert ((lo <= a)%Q ∧ (a <= hi)%Q) as [Ha1 Ha2].
  { destruct (nth_default_or_elem (Z.to_nat (Qfloor pos)) (x :: v) x) as [Heq|Hin].
    - unfold a. rewrite Heq. apply Hall. left.
    - by apply Hall. }
  assert ((lo <= b)%Q ∧ (b <= hi)%Q) as [Hb1 Hb2].
  { destruct (nth_default_or_elem (Z.to_nat (Qfloor pos + 1)) (x :: v) a)
      as [Heq|Hin].
    - unfold b. by rewrite Heq.
    - by apply Hall. }
  destruct (Qfloor_fraction pos) as [Hf1 Hf2].
  by apply Q_interpolation.
Qed.

Lemma max_fold_keeps (P : Q → Prop) (x : Q) (v : list Q) :
  P x → Forall P v → P (foldr (λ a b, if Qle_bool a b then b else a) x v).
Proof.
  intros Hx. induction 1 as [|y v Hy _ IH]; [done|].
  simpl. by destruct (Qle_bool y _).
Qed.

Lemma series_max_in_range lo hi (s : list Float) :
  Forall (in_range lo hi) s → in_range lo hi (series_max s).
Proof.
  intros Hs%dropna_in_range m. unfold series_max.
  destruct (dropna_values s) as [|x v]; [done|]. intros [= <-].
  apply Forall_cons in Hs as [Hx Hs].
  by apply (max_fold_keeps (λ y, (lo <= y)%Q ∧ (y <= hi)%Q)).
Qed.

Lemma valid_pm25_in_range h : pm25_valid h → in_range 0 1000 (h_pm25 h).
Proof.
  unfold pm25_valid, between. intros Hv v Hpm. rewrite Hpm in Hv. simpl in Hv.
  rewrite orb_false_r in Hv. apply andb_prop_elim in Hv as [H1 H2].
  apply Is_true_true in H1, H2. by rewrite !Qle_bool_iff in *.
Qed.

Lemma valid_aqi_in_range h : aqi_valid h → in_range 0 500 (h_aqi h).
Proof.
  unfold aqi_valid, between. intros Hv v Hpm. rewrite Hpm in Hv. simpl in Hv.
  rewrite orb_false_r in Hv. apply andb_prop_elim in Hv as [H1 H2].
  apply Is_true_true in H1, H2. by rewrite !Qle_bool_iff in *.
Qed.

(** The statistics of a group of records that pass the range tests. *)
Lemma group_statistics_in_range (g : list Hourly) :
  (∀ h, h ∈ g → pm25_valid h ∧ aqi_valid h) →
  Forall (in_range 0 1000) (h_pm25 <$> g) ∧ Forall (in_range 0 500) (h_aqi <$> g).
Proof.
  intros Hvalid. split; apply Forall_fmap, Forall_forall; intros h Hh.
  - apply valid_pm25_in_range, Hvalid, Hh.
  - apply valid_aqi_in_range, Hvalid, Hh.
Qed.

Lemma daily_group_passes_range_tests hourly k (g : list Hourly) :
  (∀ h, h ∈ hourly → h_is_valid h = pm25_valid h && aqi_valid h) →
  g = filter (λ h, h_is_valid h ∧ daily_key h = Some k) hourly →
  ∀ h, h ∈ g → pm25_valid h ∧ aqi_valid h.
Proof.
  intros Hflag -> h [[Hv _] Hin]%list_elem_of_filter.
  rewrite (Hflag h Hin) in Hv. by apply andb_prop_elim in Hv.
Qed.

(** Readings outside the valid ranges never reach the daily table: when the
    validity flag is the one [_enrich_hourly] sets, every daily pm25
    statistic lies in [0, 1000] and the daily aqi mean in [0, 500], or is
    NaN. *)
Theorem daily_statistics_in_range hourly guideline ws daily row :
  (∀ h, h ∈ hourly → h_is_valid h = pm25_valid h && aqi_valid h) →
  _daily_aggregates hourly guideline ws = Ok daily → row ∈ daily →
  in_range 0 1000 (d_pm25_mean row)
  ∧ in_range 0 1000 (d_pm25_median row)
  ∧ in_range 0 1000 (d_pm25_p90 row)
  ∧ in_range 0 1000 (d_pm25_p10 row)
  ∧ in_range 0 1000 (d_pm25_max row)
  ∧ in_range 0 500 (d_aqi_mean row).
Proof.
  intros Hflag Hrun Hrow.
  destruct (daily_aggregates_rows _ _ _ _ _ Hrun Hrow) as (k & g & Hg & _ & ->).
  destruct (group_statistics_in_range g
              (daily_group_passes_range_tests _ _ _ Hflag Hg)) as [Hpm Haqi].
  destruct k as [[[cid name] region] date]. simpl. unfold series_median.
  split; [by apply series_mean_in_range|].
  do 3 (split; [by apply series_quantile_in_range|]).
  split; [by apply series_max_in_range|by apply series_mean_in_range].
Qed.

Lemma dst_day_flags :
  ∀ h, h ∈ dst_day → h_is_valid h = pm25_valid h && aqi_valid h.
Proof.
  apply Forall_forall, (bool_decide_unpack _). by vm_compute.
Qed.

Lemma daily_statistics_in_range_witness :
  in_range 0 1000 (d_pm25_mean dst_day_row)
  ∧ in_range 0 1000 (d_pm25_median dst_day_row)
  ∧ in_range 0 1000 (d_pm25_p90 dst_day_row)
  ∧ in_range 0 1000 (d_pm25_p10 dst_day_row)
  ∧ in_range 0 1000 (d_pm25_max dst_day_row)
  ∧ in_range 0 500 (d_aqi_mean dst_day_row).
Proof.
  apply (daily_statistics_in_range dst_day 15 default_wartime_start [dst_day_row]).
  - exact dst_day_flags.
  - by vm_compute.
  - left.
Defined.

(** ** The city-distribution table *)

Lemma dist_row_counts cid name region p y level (g : list Daily) :
  dist_days (dist_row cid name region p y level g)
  = len (filter (λ r, cell_notna (d_date_local r)) g)
  ∧ dist_days_with_coverage_ge18 (dist_row cid name region p y level g)
    = len (filter (λ r, 18 ≤ d_available_hours r) g).
Proof.
  unfold dist_row, count_ge18, len. simpl.
  by rewrite !filter_fmap_comm, !length_fmap.
Qed.

Lemma period_summary_level daily x :
  x ∈ period_summary daily → dist_aggregation_level x = "period".
Proof.
  unfold period_summary.
  by intros ([[[[cid name] region] p] g] & -> & _)%list_elem_of_fmap.
Qed.

Lemma year_summary_level daily x :
  x ∈ year_summary daily → dist_aggregation_level x = "year".
Proof.
  unfold year_summary.
  by intros ([[[[cid name] region] y] g] & -> & _)%list_elem_of_fmap.
Qed.

Lemma city_distributions_levels daily :
  filter (λ x, dist_aggregation_level x = "period") (_city_distributions daily)
  = period_summary daily
  ∧ filter (λ x, dist_aggregation_level x = "year") (_city_distributions daily)
    = year_summary daily.
Proof.
  unfold _city_distributions. rewrite !filter_app. split.
  - rewrite filter_all, filter_none, app_nil_r; [done|..].
    + intros x Hx%year_summary_level. by rewrite Hx.
    + apply Forall_forall. intros x. apply period_summary_level.
  - rewrite filter_none, filter_all; [done|..].
    + apply Forall_forall. intros x. apply year_summary_level.
    + intros x Hx%period_summary_level. by rewrite Hx.
Qed.

Lemma sum_Z_ext {B} (f g : B → Z) (l : list B) :
  (∀ x, x ∈ l → f x = g x) → sum_Z (f <$> l) = sum_Z (g <$> l).
Proof.
  induction l as [|x l IH]; [done|]. intros Hfg. csimpl.
  rewrite (Hfg x) by left. rewrite IH; [done|]. intros y Hy. apply Hfg. by right.
Qed.

(** Each granularity of the city-distribution table accounts for every
    daily row once: at the period level and at the year level alike, the
    days add up to the number of daily rows with a date, and the days with
    coverage to the number of daily rows with at least 18 available hours. *)
Theorem city_distributions_account_for_every_day (daily : list Daily) :
  ∀ level, level = "period" ∨ level = "year" →
    let rows := filter (λ x, dist_aggregation_level x = level)
                       (_city_distributions daily) in
    sum_Z (dist_days <$> rows)
    = len (filter (λ r, cell_notna (d_date_local r)) daily)
    ∧ sum_Z (dist_days_with_coverage_ge18 <$> rows)
      = len (filter (λ r, 18 ≤ d_available_hours r) daily).
Proof.
  destruct (city_distributions_levels daily) as [Hp Hy].
  intros level [-> | ->]; simpl; [rewrite Hp|rewrite Hy].
  - unfold period_summary. rewrite <- !list_fmap_compose.
    rewrite <- !(groupby_sizes period_key daily). split; apply sum_Z_ext;
      intros [[[[cid name] region] p] g] _;
      apply (dist_row_counts cid name region (Some p) None "period" g).
  - unfold year_summary. rewrite <- !list_fmap_compose.
    rewrite <- !(groupby_sizes year_key daily). split; apply sum_Z_ext;
      intros [[[[cid name] region] y] g] _;
      apply (dist_row_counts cid name region None y "year" g).
Qed.

Lemma city_distributions_account_for_every_day_witness :
  sum_Z (dist_days <$> filter (λ x, dist_aggregation_level x = "year")
                              (_city_distributions mixed_table))
  = len (filter (λ r, cell_notna (d_date_local r)) mixed_table)
  ∧ sum_Z (dist_days_with_coverage_ge18
             <$> filter (λ x, dist_aggregation_level x = "year")
                        (_city_distributions mixed_table))
    = len (filter (λ r, 18 ≤ d_available_hours r) mixed_table).
Proof.
  apply (city_distributions_account_for_every_day mixed_table "year").
  by right.
Defined.

(** What the rollups rely on in a row of the daily table. *)
Lemma daily_row_facts hourly guideline ws daily r :
  (∀ h, h ∈ hourly → h_is_valid h = pm25_valid h && aqi_valid h) →
  _daily_aggregates hourly guideline ws = Ok daily → r ∈ daily →
  cell_notna (d_date_local r)
  ∧ (∃ s, d_exceedance_share r = Some s ∧ (0 <= s)%Q ∧ (s <= 1)%Q)
  ∧ in_range 0 1000 (d_pm25_mean r) ∧ in_range 0 1000 (d_pm25_median r).
Proof.
  intros Hflag Hrun Hr.
  destruct (daily_aggregates_rows _ _ _ _ _ Hrun Hr) as (k & g & Hg & Hne & ->).
  destruct (group_statistics_in_range g
              (daily_group_passes_range_tests _ _ _ Hflag Hg)) as [Hpm _].
  destruct (daily_row_hours guideline ws k g) as (Hav & Hex & Hsh).
  assert (1 ≤ len g) as Hpos by (unfold len; destruct g; [done|simpl; lia]).
  destruct (daily_row_stats guideline ws k g) as (-> & -> & _ & _).
  split; [by destruct k as [[[??]?]?]|]. split.
  - rewrite Hsh. unfold np_where_share. rewrite decide_True by lia.
    eexists. split; [done|]. apply Qz_share_bounds; lia.
  - split; [by apply series_mean_in_range|by apply series_quantile_in_range].
Qed.

Lemma series_mean_defined (s : list Float) :
  s ≠ [] → Forall (λ x, is_Some x) s → is_Some (series_mean s).
Proof.
  intros Hne Hs. destruct (series_mean s) eqn:Hm; [by eexists|].
  apply series_mean_None, dropna_values_nil in Hm.
  destruct s as [|x s]; [done|].
  apply Forall_cons in Hs as [[v ->] _]. by apply Forall_cons in Hm as [? _].
Qed.

(** The statistics of one group of rows of the daily table. *)
Lemma rollup_group_facts hourly guideline ws daily (g : list Daily) :
  (∀ h, h ∈ hourly → h_is_valid h = pm25_valid h && aqi_valid h) →
  _daily_aggregates hourly guideline ws = Ok daily →
  g ≠ [] → (∀ r, r ∈ g → r ∈ daily) →
  len (filter (λ r, cell_notna (d_date_local r)) g) = len g
  ∧ 1 ≤ len g
  ∧ (∃ m, series_mean (d_exceedance_share <$> g) = Some m
          ∧ (0 <= m)%Q ∧ (m <= 1)%Q)
  ∧ in_range 0 1000 (series_mean (d_pm25_mean <$> g))
  ∧ ∀ q, in_range 0 1000 (series_quantile q (d_pm25_median <$> g)).
Proof.
  intros Hflag Hrun Hne Hsub.
  assert (∀ r, r ∈ g →
    cell_notna (d_date_local r)
    ∧ (∃ s, d_exceedance_share r = Some s ∧ (0 <= s)%Q ∧ (s <= 1)%Q)
    ∧ in_range 0 1000 (d_pm25_mean r) ∧ in_range 0 1000 (d_pm25_median r)) as Hrows.
  { intros r Hr. by apply (daily_row_facts hourly guideline ws daily), Hsub. }
  split; [|split; [|split; [|split]]].
  - by rewrite filter_all by (apply Forall_forall; intros r Hr; apply Hrows, Hr).
  - unfold len. destruct g; [done|simpl; lia].
  - assert (Forall (in_range 0 1) (d_exceedance_share <$> g)) as Hin.
    { apply Forall_fmap, Forall_forall. intros r Hr v Hv.
      destruct (Hrows r Hr) as (_ & (s & Hs & Hb) & _). simpl in Hv. congruence. }
    destruct (series_mean_defined (d_exceedance_share <$> g)) as [m Hm].
    + by destruct g.
    + apply Forall_fmap, Forall_forall. intros r Hr.
      destruct (Hrows r Hr) as (_ & (s & Hs & _) & _). simpl. by rewrite Hs.
    + exists m. split; [done|]. by apply (series_mean_in_range 0 1 _ Hin).
  - apply series_mean_in_range, Forall_fmap, Forall_forall.
    intros r Hr. apply Hrows, Hr.
  - intros q. apply series_quantile_in_range, Forall_fmap, Forall_forall.
    intros r Hr. apply Hrows, Hr.
Qed.

(** On the daily table of the pipeline, or any part of it, every row of
    the city-distribution table covers at least one day, has no more days
    with coverage than days, a mean exceedance share in [0, 1], and pm25
    statistics in [0, 1000] or NaN. *)
Theorem city_distribution_bounds hourly guideline ws daily (kept : list Daily) x :
  (∀ h, h ∈ hourly → h_is_valid h = pm25_valid h && aqi_valid h) →
  _daily_aggregates hourly guideline ws = Ok daily →
  (∀ r, r ∈ kept → r ∈ daily) →
  x ∈ _city_distributions kept →
  1 ≤ dist_days x
  ∧ 0 ≤ dist_days_with_coverage_ge18 x ≤ dist_days x
  ∧ (∃ m, dist_exceedance_share x = Some m ∧ (0 <= m)%Q ∧ (m <= 1)%Q)
  ∧ in_range 0 1000 (dist_pm25_mean x)
  ∧ in_range 0 1000 (dist_pm25_median x)
  ∧ in_range 0 1000 (dist_pm25_p90 x)
  ∧ in_range 0 1000 (dist_pm25_p10 x).
Proof.
  intros Hflag Hrun Hsub Hx.
  assert (∃ cid name region p y level g,
            x = dist_row cid name region p y level g ∧ g ≠ []
            ∧ ∀ r, r ∈ g → r ∈ kept) as (cid & name & region & p & y & level & g & -> & Hne & Hg).
  { unfold _city_distributions, period_summary, year_summary in Hx.
    apply elem_of_app in Hx as [Hx|Hx];
      apply list_elem_of_fmap in Hx as ([[[[c n] rg] k] g] & -> & Hg);
      pose proof (groupby_group_nonempty _ _ _ _ Hg) as Hne;
      apply elem_of_groupby in Hg as [_ ->];
      do 7 eexists; (split; [reflexivity|]); (split; [exact Hne|]);
      by intros r [_ ?]%list_elem_of_filter. }
  destruct (rollup_group_facts hourly guideline ws daily g Hflag Hrun Hne)
    as (Hdays & Hpos & Hshare & Hmean & Hq); [by intros r Hr; apply Hsub, Hg|].
  destruct (dist_row_counts cid name region p y level g) as [-> ->].
  rewrite Hdays. split; [done|]. split.
  { unfold len. pose proof (length_filter (λ r, 18 ≤ d_available_hours r) g). lia. }
  split; [exact Hshare|]. split; [exact Hmean|].
  unfold dist_row, series_median. simpl.
  split; [apply Hq|split; apply Hq].
Qed.

Lemma pipeline_hourly_flags :
  ∀ h, h ∈ pipeline_hourly → h_is_valid h = pm25_valid h && aqi_valid h.
Proof.
  apply Forall_forall, (bool_decide_unpack _). by vm_compute.
Qed.

Lemma pipeline_daily_run :
  _daily_aggregates pipeline_hourly 15 default_wartime_start = Ok pipeline_daily.
Proof. by vm_compute. Qed.

Lemma pipeline_kept_sub r : r ∈ pipeline_kept → r ∈ pipeline_daily.
Proof.
  unfold pipeline_kept. rewrite merge_inner_elements.
  by intros [_ ?]%list_elem_of_filter.
Qed.

Lemma city_distribution_bounds_witness :
  1 ≤ dist_days pipeline_year_row
  ∧ 0 ≤ dist_days_with_coverage_ge18 pipeline_year_row ≤ dist_days pipeline_year_row
  ∧ (∃ m, dist_exceedance_share pipeline_year_row = Some m
          ∧ (0 <= m)%Q ∧ (m <= 1)%Q)
  ∧ in_range 0 1000 (dist_pm25_mean pipeline_year_row)
  ∧ in_range 0 1000 (dist_pm25_median pipeline_year_row)
  ∧ in_range 0 1000 (dist_pm25_p90 pipeline_year_row)
  ∧ in_range 0 1000 (dist_pm25_p10 pipeline_year_row).
Proof.
  apply (city_distribution_bounds pipeline_hourly 15 default_wartime_start
           pipeline_daily pipeline_kept).
  - exact pipeline_hourly_flags.
  - exact pipeline_daily_run.
  - exact pipeline_kept_sub.
  - vm_compute. right. right. left.
Defined.

(** ** The region-period table *)

Lemma omap_id_Some {A} (l : list A) : omap id (Some <$> l) = l.
Proof. induction l as [|x l IH]; [done|]. csimpl. by rewrite IH. Qed.

Lemma nunique_nonempty (l : list Z) :
  l ≠ [] →
  1 ≤ series_nunique (Some <$> l) ∧ series_nunique (Some <$> l) ≤ len l.
Proof.
  intros Hne. unfold series_nunique, len. rewrite omap_id_Some. split.
  - destruct l as [|x l]; [done|].
    assert (x ∈ remove_dups (x :: l)) as Hin by (apply elem_of_remove_dups; left).
    destruct (remove_dups (x :: l)); [by apply not_elem_of_nil in Hin|simpl; lia].
  - apply inj_le, length_remove_dups.
Qed.

(** The region-period table has one row per (region_name, period).  On the
    daily table of the pipeline, or any part of it, every row counts at
    least one city and no more cities than days, and has a mean exceedance
    share in [0, 1] and pm25 statistics in [0, 1000] or NaN. *)
Theorem region_period_summary_bounds hourly guideline ws daily (kept : list Daily) :
  (∀ h, h ∈ hourly → h_is_valid h = pm25_valid h && aqi_valid h) →
  _daily_aggregates hourly guideline ws = Ok daily →
  (∀ r, r ∈ kept → r ∈ daily) →
  NoDup ((λ x, (rp_region_name x, rp_period x)) <$> _region_period_summary kept)
  ∧ ∀ x, x ∈ _region_period_summary kept →
      1 ≤ rp_cities x ≤ rp_days x
      ∧ (∃ m, rp_exceedance_share x = Some m ∧ (0 <= m)%Q ∧ (m <= 1)%Q)
      ∧ in_range 0 1000 (rp_pm25_mean x)
      ∧ in_range 0 1000 (rp_pm25_median x)
      ∧ in_range 0 1000 (rp_pm25_p90 x).
Proof.
  intros Hflag Hrun Hsub. unfold _region_period_summary. split.
  - rewrite <- list_fmap_compose.
    rewrite (list_fmap_ext _ fst (groupby _ kept)) by (by intros _ [[??]?] _).
    apply groupby_keys_NoDup.
  - intros x ([[region p] g] & -> & Hg)%list_elem_of_fmap.
    pose proof (groupby_group_nonempty _ _ _ _ Hg) as Hne.
    apply elem_of_groupby in Hg as [_ Hg].
    destruct (rollup_group_facts hourly guideline ws daily g Hflag Hrun Hne)
      as (Hdays & Hpos & Hshare & Hmean & Hq).
    { intros r Hr. rewrite Hg in Hr.
      by apply list_elem_of_filter in Hr as [_ ?%Hsub]. }
    simpl. rewrite filter_fmap_comm, length_fmap. fold (len (filter (λ r, cell_notna (d_date_local r)) g)).
    rewrite Hdays.
    destruct (nunique_nonempty (d_city_id <$> g)) as [Hc1 Hc2]; [by destruct g|].
    unfold len in Hc2. rewrite length_fmap in Hc2.
    split; [unfold len; lia|]. split; [exact Hshare|]. split; [exact Hmean|].
    unfold series_median. split; apply Hq.
Qed.

Lemma region_period_summary_bounds_witness :
  1 ≤ rp_cities pipeline_region_row ≤ rp_days pipeline_region_row
  ∧ (∃ m, rp_exceedance_share pipeline_region_row = Some m
          ∧ (0 <= m)%Q ∧ (m <= 1)%Q)
  ∧ in_range 0 1000 (rp_pm25_mean pipeline_region_row)
  ∧ in_range 0 1000 (rp_pm25_median pipeline_region_row)
  ∧ in_range 0 1000 (rp_pm25_p90 pipeline_region_row).
Proof.
  apply (proj2 (region_period_summary_bounds pipeline_hourly 15
                  default_wartime_start pipeline_daily pipeline_kept
                  pipeline_hourly_flags pipeline_daily_run pipeline_kept_sub)).
  vm_compute. left.
Defined.

(** ** The metadata join *)

Lemma elem_of_merge_meta hourly meta h :
  h ∈ merge_meta hourly meta ↔
  ∃ l, l ∈ hourly
    ∧ ((h = with_meta l None None ∧ ∀ m, m ∈ meta → m_city_id m ≠ l_city_id l)
       ∨ ∃ m, m ∈ meta ∧ m_city_id m = l_city_id l
              ∧ h = with_meta l (m_city_name m) (m_region_name m)).
Proof.
  unfold merge_meta. rewrite list_elem_of_bind.
  apply exist_proper. intros l. rewrite (comm and (l ∈ hourly)).
  apply and_iff_compat_r.
  destruct (filter (λ m, m_city_id m = l_city_id l) meta) as [|m0 ms] eqn:Hf.
  - rewrite list_elem_of_singleton. split.
    + intros ->. left. split; [done|]. intros m Hm Hc.
      assert (m ∈ filter (λ m, m_city_id m = l_city_id l) meta) as Hin
        by (by apply list_elem_of_filter).
      rewrite Hf in Hin. by apply not_elem_of_nil in Hin.
    + intros [[-> _]|(m & Hm & Hc & _)]; [done|].
      assert (m ∈ filter (λ m, m_city_id m = l_city_id l) meta) as Hin
        by (by apply list_elem_of_filter).
      rewrite Hf in Hin. by apply not_elem_of_nil in Hin.
  - rewrite <- Hf, list_elem_of_fmap. setoid_rewrite list_elem_of_filter. split.
    + intros (m & -> & Hc & Hm). right. eauto.
    + intros [[_ Hnone]|(m & Hm & Hc & ->)]; [|eauto].
      assert (m0 ∈ filter (λ m, m_city_id m = l_city_id l) meta)
        as [Hc Hm]%list_elem_of_filter by (rewrite Hf; left).
      by destruct (Hnone m0 Hm).
Qed.

Lemma merge_meta_unique_ids hourly meta :
  NoDup (m_city_id <$> meta) →
  length (merge_meta hourly meta) = length hourly.
Proof.
  intros Hnd. unfold merge_meta. induction hourly as [|l hourly IH]; [done|].
  rewrite bind_cons, length_app, IH.
  destruct (filter (λ m, m_city_id m = l_city_id l) meta) as [|m0 ms] eqn:Hf;
    [done|].
  destruct ms as [|m1 ms]; [done|]. exfalso.
  assert (NoDup (m_city_id <$> filter (λ m, m_city_id m = l_city_id l) meta)) as Hnd'.
  { eapply sublist_NoDup; [exact Hnd|]. apply fmap_sublist, sublist_filter. }
  rewrite Hf in Hnd'.
  assert (m0 ∈ filter (λ m, m_city_id m = l_city_id l) meta)
    as [H0 _]%list_elem_of_filter by (rewrite Hf; left).
  assert (m1 ∈ filter (λ m, m_city_id m = l_city_id l) meta)
    as [H1 _]%list_elem_of_filter by (rewrite Hf; right; left).
  csimpl in Hnd'. rewrite H0, H1 in Hnd'.
  apply NoDup_cons in Hnd' as [Hn _]. apply Hn. left.
Qed.

(** The left join drops no record: a record of a city without metadata
    stays, with a null name and a null region; with one metadata row per
    city the join keeps the number of records; and every record that comes
    out carries the validity flag of the two range tests. *)
Theorem enrich_keeps_every_record (hourly : list Localized) (meta : list Meta) :
  (∀ l, l ∈ hourly →
     ∃ h, h ∈ enrich_joined hourly meta
          ∧ h_city_id h = l_city_id l ∧ h_logged_at h = l_logged_at l
          ∧ h_date_local h = l_date_local l ∧ h_pm25 h = l_pm25 l
          ∧ h_aqi h = l_aqi l)
  ∧ (∀ h, h ∈ enrich_joined hourly meta →
       (∀ m, m ∈ meta → m_city_id m ≠ h_city_id h) →
       h_city_name h = None ∧ h_region_name h = None)
  ∧ (NoDup (m_city_id <$> meta) →
     length (enrich_joined hourly meta) = length hourly)
  ∧ (∀ h, h ∈ enrich_joined hourly meta →
       h_is_valid h = pm25_valid h && aqi_valid h).
Proof.
  unfold enrich_joined. split; [|split; [|split]].
  - intros l Hl.
    destruct (filter (λ m, m_city_id m = l_city_id l) meta) as [|m0 ms] eqn:Hf.
    + exists (mark_valid (with_meta l None None)). split; [|done].
      apply list_elem_of_fmap_2, elem_of_merge_meta. exists l. split; [done|].
      left. split; [done|]. intros m Hm Hc.
      assert (m ∈ filter (λ m, m_city_id m = l_city_id l) meta) as Hin
        by (by apply list_elem_of_filter).
      rewrite Hf in Hin. by apply not_elem_of_nil in Hin.
    + assert (m0 ∈ filter (λ m, m_city_id m = l_city_id l) meta)
        as [Hc Hm]%list_elem_of_filter by (rewrite Hf; left).
      exists (mark_valid (with_meta l (m_city_name m0) (m_region_name m0))).
      split; [|done].
      apply list_elem_of_fmap_2, elem_of_merge_meta. exists l. split; [done|].
      right. eauto.
  - intros h (h0 & -> & Hh0)%list_elem_of_fmap Hnone.
    apply elem_of_merge_meta in Hh0 as (l & Hl & [[-> _]|(m & Hm & Hc & ->)]);
      [done|].
    by destruct (Hnone m Hm).
  - intros Hnd. rewrite length_fmap. by apply merge_meta_unique_ids.
  - by intros h (h0 & -> & _)%list_elem_of_fmap.
Qed.

Lemma enrich_keeps_every_record_witness :
  length (enrich_joined sample_localized sample_meta) = length sample_localized.
Proof.
  apply (enrich_keeps_every_record sample_localized sample_meta).
  apply (bool_decide_unpack _). by vm_compute.
Defined.

(** A city that is not in the metadata never reaches the daily table, and
    so is never eligible, whatever its coverage. *)
Theorem cities_without_metadata_are_excluded
    (hourly : list Localized) (meta : list Meta) guideline ws daily pairs city :
  (∀ m, m ∈ meta → m_city_id m ≠ city) →
  _daily_aggregates (enrich_joined hourly meta) guideline ws = Ok daily →
  eligible_city_year_pairs_from_daily daily = Ok pairs →
  (∀ r, r ∈ daily → d_city_id r ≠ city) ∧ (∀ y, (city, y) ∉ pairs).
Proof.
  intros Hnone Hrun Hp.
  assert (∀ r, r ∈ daily → d_city_id r ≠ city) as Hrows.
  { intros r Hr Hc.
    destruct (daily_aggregates_rows _ _ _ _ _ Hrun Hr) as (k & g & Hg & Hne & ->).
    destruct g as [|h g]; [done|].
    assert (h ∈ filter (λ h, h_is_valid h ∧ daily_key h = Some k)
                       (enrich_joined hourly meta))
      as [[_ Hk] Hin]%list_elem_of_filter by (rewrite <- Hg; left).
    destruct k as [[[cid name] region] date]. change (cid = city) in Hc.
    unfold enrich_joined in Hin.
    apply list_elem_of_fmap in Hin as (h0 & -> & Hh0).
    apply elem_of_merge_meta in Hh0 as (l & Hl & [[-> _]|(m & Hm & Hmc & ->)]).
    - done.
    - unfold daily_key in Hk. simpl in Hk.
      destruct (m_city_name m), (m_region_name m); simplify_eq/=.
      by destruct (Hnone m Hm). }
  split; [done|]. intros y Hin.
  destruct (pair_has_row _ _ _ _ Hp Hin) as (r & Hr & Hc & _).
  by destruct (Hrows r Hr).
Qed.

Lemma cities_without_metadata_are_excluded_witness :
  (∀ r, r ∈ match _daily_aggregates (enrich_joined sample_localized sample_meta)
                    15 default_wartime_start with
            | Ok daily => daily | Raise _ => [] end → d_city_id r ≠ 9)
  ∧ (∀ y, (9, y) ∉ (∅ : gset (Z * Z))).
Proof.
  apply (cities_without_metadata_are_excluded sample_localized sample_meta
           15 default_wartime_start).
  - intros m Hm. unfold sample_meta in Hm.
    apply list_elem_of_singleton in Hm as ->. done.
  - by vm_compute.
  - by vm_compute.
Defined.

(** ** The QA stage *)

Lemma elem_of_insert_Z x y l : y ∈ insert_Z x l ↔ y = x ∨ y ∈ l.
Proof.
  induction l as [|z l IH]; simpl.
  - rewrite list_elem_of_singleton. set_solver.
  - case_bool_decide; rewrite !elem_of_cons; [tauto|]. rewrite IH. tauto.
Qed.

Lemma elem_of_sorted y l : y ∈ sorted l ↔ y ∈ l.
Proof.
  induction l as [|x l IH]; [done|]. simpl.
  rewrite elem_of_insert_Z, elem_of_cons, IH. tauto.
Qed.

Lemma insert_Z_sorted x l :
  StronglySorted Z.le l → StronglySorted Z.le (insert_Z x l).
Proof.
  induction 1 as [|y l Hl IH Hy]; simpl; [repeat constructor|].
  case_bool_decide as Hxy.
  - constructor; [by constructor|]. constructor; [done|].
    eapply Forall_impl; [exact Hy|]. simpl. lia.
  - constructor; [done|]. apply Forall_forall. intros z Hz.
    apply elem_of_insert_Z in Hz as [->|Hz]; [lia|].
    by apply (proj1 (Forall_forall _ _) Hy).
Qed.

Lemma sorted_sorted l : StronglySorted Z.le (sorted l).
Proof.
  induction l as [|x l IH]; [constructor|]. simpl. by apply insert_Z_sorted.
Qed.

Lemma insert_Z_NoDup x l : x ∉ l → NoDup l → NoDup (insert_Z x l).
Proof.
  intros Hx Hnd. induction Hnd as [|y l Hy Hnd IH]; simpl; [repeat constructor; set_solver|].
  case_bool_decide.
  - constructor; [done|]. by constructor.
  - constructor.
    + rewrite elem_of_insert_Z. intros [->|?]; [|done]. apply Hx. left.
    + apply IH. intros ?. apply Hx. by right.
Qed.

Lemma sorted_NoDup l : NoDup l → NoDup (sorted l).
Proof.
  induction 1 as [|x l Hx Hnd IH]; [constructor|]. simpl.
  apply insert_Z_NoDup; [|done]. by rewrite elem_of_sorted.
Qed.

Lemma share_ge_threshold_bounds (series : list Z) (threshold : Q) :
  series ≠ [] →
  ∃ s, _share_ge_threshold series threshold = Some s ∧ (0 <= s)%Q ∧ (s <= 1)%Q.
Proof.
  intros Hne. unfold _share_ge_threshold.
  destruct series as [|h series]; [done|]. eexists. split; [done|].
  apply Qz_share_bounds; unfold len.
  - pose proof (length_filter (λ h, Qle_bool threshold (Qz h)) (h :: series)). lia.
  - simpl. lia.
Qed.

(** [run_qa] fails only on a missing or an empty daily table.  Otherwise
    the summary counts every row, between one city and as many cities as
    rows; its years are the years of the table, each once, in increasing
    order; and every row of the coverage report has a share of days with
    coverage in [0, 1]. *)
Theorem run_qa_outcomes (file : option (list Daily)) (pm25_guideline : Q) :
  match run_qa file pm25_guideline with
  | Raise e =>
      (file = None ∧ e = FileNotFoundError
         "Daily processed data not found. Run aggregate stage first.")
      ∨ (file = Some [] ∧ e = RuntimeError
           "Daily dataset is empty; cannot compute QA metrics.")
  | Ok report =>
      ∃ daily, file = Some daily
        ∧ qs_daily_rows (qa_summary report) = len daily
        ∧ 1 ≤ qs_cities (qa_summary report) ≤ qs_daily_rows (qa_summary report)
        ∧ StronglySorted Z.le (qs_years (qa_summary report))
        ∧ NoDup (qs_years (qa_summary report))
        ∧ (∀ y, y ∈ qs_years (qa_summary report)
                ↔ ∃ r, r ∈ daily ∧ d_year r = Some y)
        ∧ ∀ c, c ∈ qa_coverage report →
            ∃ s, qc_share_days_ge18 c = Some s ∧ (0 <= s)%Q ∧ (s <= 1)%Q
  end.
Proof.
  destruct file as [[|r0 daily]|]; [by right| |by left].
  unfold run_qa. cbv beta iota zeta.
  exists (r0 :: daily). set (rows := r0 :: daily).
  cbn [qa_summary qa_coverage qs_daily_rows qs_cities qs_years].
  split; [done|]. split; [by unfold len; rewrite length_fmap|]. split.
  { destruct (nunique_nonempty (d_city_id <$> (with_datetime <$> rows)))
      as [H1 H2]; [done|].
    unfold len in *. rewrite !length_fmap in *. lia. }
  split; [apply sorted_sorted|].
  split; [apply sorted_NoDup, NoDup_remove_dups|]. split.
  - intros y. rewrite elem_of_sorted, elem_of_remove_dups, list_elem_of_omap.
    split.
    + intros (r & (r' & -> & Hr')%list_elem_of_fmap & Hy). eauto.
    + intros (r & Hr & Hy). exists (with_datetime r).
      split; [by apply list_elem_of_fmap_2|done].
  - intros c ([k g] & -> & Hg)%list_elem_of_fmap.
    apply groupby_group_nonempty in Hg.
    cbn [qc_share_days_ge18 qa_coverage_row fst snd].
    apply share_ge_threshold_bounds. by destruct g.
Qed.

Lemma kept_cities (daily : list Daily) pairs :
  (∀ r, r ∈ daily → d_year r = row_year r) →
  eligible_city_year_pairs_from_daily daily = Ok pairs →
  list_to_set (d_city_id <$> filter (λ d, pair_in pairs (daily_pair d)) daily)
  = set_map (D:=gset Z) fst pairs.
Proof.
  intros Hyear Hp. apply set_eq. intros city.
  rewrite elem_of_list_to_set, list_elem_of_fmap, elem_of_map.
  setoid_rewrite list_elem_of_filter. setoid_rewrite pair_in_daily. split.
  - intros (r & -> & (y & Hy & Hin) & Hr). by exists (d_city_id r, y).
  - intros ([c y] & -> & Hin). simpl.
    destruct (pair_has_row _ _ _ _ Hp Hin) as (r & Hr & Hc & Hy).
    exists r. split; [done|]. split; [|done]. exists y.
    by rewrite (Hyear r Hr), Hc.
Qed.

Lemma kept_years (daily : list Daily) pairs y :
  (∀ r, r ∈ daily → d_year r = row_year r) →
  eligible_city_year_pairs_from_daily daily = Ok pairs →
  (∃ r, r ∈ filter (λ d, pair_in pairs (daily_pair d)) daily ∧ d_year r = Some y)
  ↔ ∃ city, (city, y) ∈ pairs.
Proof.
  intros Hyear Hp. setoid_rewrite list_elem_of_filter.
  setoid_rewrite pair_in_daily. split.
  - intros (r & [(y' & Hy' & Hin) Hr] & Hy). exists (d_city_id r). congruence.
  - intros (city & Hin).
    destruct (pair_has_row _ _ _ _ Hp Hin) as (r & Hr & Hc & Hy).
    exists r. rewrite (Hyear r Hr). split; [|done]. split; [|done].
    exists y. by rewrite Hc.
Qed.

(** After a successful aggregation the QA stage does not fail on the daily
    file it finds, and its summary agrees with the run summary: the same
    number of daily rows, as many cities as eligible cities, and the years
    of the eligible pairs. *)
Theorem qa_agrees_with_aggregation hourly ws guideline fs res fs' qa_guideline :
  aggregate_data hourly ws guideline fs = (Ok res, fs') →
  ∃ report daily pairs,
    run_qa (daily_file fs') qa_guideline = Ok report
    ∧ _daily_aggregates hourly guideline ws = Ok daily
    ∧ eligible_city_year_pairs_from_daily daily = Ok pairs
    ∧ qs_daily_rows (qa_summary report) = daily_rows res
    ∧ qs_cities (qa_summary report) = eligible_cities res
    ∧ ∀ y, y ∈ qs_years (qa_summary report) ↔ ∃ city, (city, y) ∈ pairs.
Proof.
  unfold aggregate_data, bind, lift, raise, lift, to_parquet, pure.
  destruct (_daily_aggregates hourly guideline ws) as [daily|e] eqn:Hd; [|done].
  destruct (eligible_city_year_pairs_from_daily daily) as [pairs|e] eqn:Hp;
    [|done].
  destruct (decide (pairs = ∅)) as [|Hne]; [done|].
  rewrite !merge_inner_elements. intros [= <- <-].
  assert (∀ r, r ∈ daily → d_year r = row_year r) as Hyear.
  { intros r Hr. by apply (daily_year_column _ _ _ _ _ Hd Hr). }
  set (kept := filter (λ d, pair_in pairs (daily_pair d)) daily).
  assert (4 ≤ len kept) as H4 by (by apply kept_daily_rows_at_least_four).
  unfold daily_file.
  rewrite !lookup_insert_ne, lookup_insert_eq by done.
  unfold run_qa. destruct kept as [|r0 kept'] eqn:Hkept; [by vm_compute in H4|].
  rewrite <- Hkept. cbv beta iota zeta. eexists _, daily, pairs.
  split; [reflexivity|]. split; [done|]. split; [done|].
  cbn [qa_summary qs_daily_rows qs_cities qs_years daily_rows eligible_cities].
  split; [by unfold len; rewrite length_fmap|]. split.
  - rewrite nunique_size, omap_id_Some, <- list_fmap_compose.
    rewrite (list_fmap_ext _ d_city_id kept) by done.
    unfold kept. by rewrite (kept_cities daily pairs Hyear Hp).
  - intros y. rewrite elem_of_sorted, elem_of_remove_dups, list_elem_of_omap.
    rewrite <- (kept_years daily pairs y Hyear Hp). fold kept. split.
    + intros (r & (r' & -> & Hr')%list_elem_of_fmap & Hy). eauto.
    + intros (r & Hr & Hy). exists (with_datetime r).
      split; [by apply list_elem_of_fmap_2|done].
Qed.

Lemma qa_agrees_with_aggregation_witness :
  ∃ report daily pairs,
    run_qa (daily_file (aggregate_data pipeline_hourly default_wartime_start
                          15 ∅).2) 15 = Ok report
    ∧ _daily_aggregates pipeline_hourly 15 default_wartime_start = Ok daily
    ∧ eligible_city_year_pairs_from_daily daily = Ok pairs
    ∧ qs_daily_rows (qa_summary report) = daily_rows pipeline_result
    ∧ qs_cities (qa_summary report) = eligible_cities pipeline_result
    ∧ ∀ y, y ∈ qs_years (qa_summary report) ↔ ∃ city, (city, y) ∈ pairs.
Proof.
  apply (qa_agrees_with_aggregation pipeline_hourly default_wartime_start 15 ∅
           pipeline_result).
  vm_compute. reflexivity.
Defined.

(** ** Reading eligibility back from the distribution table *)

Section Rollup.
Variable tbl : list Daily.
Hypothesis Hyear : ∀ r, r ∈ tbl → d_year r = row_year r.
Hypothesis Hdate : ∀ r, r ∈ tbl → ∃ d, d_date_local r = Timestamp d.
Hypothesis Hkeys : NoDup (daily_row_key <$> tbl).
Hypothesis Hregion : ∀ r1 r2, r1 ∈ tbl → r2 ∈ tbl →
  d_city_id r1 = d_city_id r2 → d_city_name r1 = d_city_name r2 →
  d_region_name r1 = d_region_name r2.

Lemma year_group_is_named_rows r0 y :
  r0 ∈ tbl → d_year r0 = Some y →
  filter (λ r, year_key r = year_key r0) tbl
  = named_rows tbl (d_city_id r0) (d_city_name r0) y.
Proof.
  intros Hr0 Hy0. unfold named_rows. apply filter_ext_in. intros r Hr.
  unfold year_key. rewrite Hy0. split.
  - intros [= Hc Hn _ Hy]. by rewrite <- (Hyear r Hr).
  - intros (Hc & Hn & Hy). rewrite (Hregion r r0 Hr Hr0 Hc Hn).
    by rewrite Hc, Hn, (Hyear r Hr), Hy.
Qed.

Lemma group_dates_distinct (g : list Daily) cid name region :
  (∀ r, r ∈ g → r ∈ tbl) →
  (∀ r, r ∈ g → d_city_id r = cid ∧ d_city_name r = name
                 ∧ d_region_name r = region) →
  NoDup (daily_row_key <$> g) →
  distinct_dates g = len g.
Proof.
  intros Hsub Hsame Hnd. unfold distinct_dates, len. f_equal.
  assert (NoDup (omap (λ r, cell_date (to_datetime (d_date_local r))) g)
          ∧ length (omap (λ r, cell_date (to_datetime (d_date_local r))) g)
            = length g) as [Hnd' <-]; [|by apply size_list_to_set].
  induction g as [|r g IH]; [split; [constructor|done]|].
  apply NoDup_cons in Hnd as [Hr Hnd].
  destruct IH as [IH1 IH2]; [by intros; apply Hsub; right
                            |by intros; apply Hsame; right|done|].
  destruct (Hdate r (Hsub r ltac:(left))) as [d Hd].
  csimpl. rewrite Hd. simpl. split; [|by rewrite IH2].
  constructor; [|done]. intros (r' & Hr' & Hd')%list_elem_of_omap.
  apply Hr. apply list_elem_of_fmap. exists r'. split; [|done].
  destruct (Hdate r' (Hsub r' ltac:(by right))) as [d' Hd''].
  rewrite Hd'' in Hd'. simpl in Hd'. injection Hd' as ->.
  destruct (Hsame r ltac:(left)) as (? & ? & ?).
  destruct (Hsame r' ltac:(by right)) as (? & ? & ?).
  unfold daily_row_key. congruence.
Qed.

Lemma rollup_is_equivalent :
  coverage_equivalent_named tbl (_city_distributions tbl).
Proof.
  split.
  - intros r y Hr Hy.
    exists (dist_row (d_city_id r) (d_city_name r) (d_region_name r) None
              (d_year r) "year" (filter (λ r', year_key r' = year_key r) tbl)).
    split; [|by rewrite <- Hy, <- (Hyear r Hr)].
    unfold _city_distributions. apply elem_of_app. right.
    unfold year_summary. apply list_elem_of_fmap.
    exists (year_key r, filter (λ r', year_key r' = year_key r) tbl).
    split; [done|]. apply elem_of_groupby. eauto.
  - intros x y Hx Hl Hy. unfold _city_distributions in Hx.
    apply elem_of_app in Hx as [Hx%period_summary_level|Hx]; [congruence|].
    unfold year_summary in Hx.
    apply list_elem_of_fmap in Hx as ([[[[cid name] region] yo] g] & -> & Hg).
    apply elem_of_groupby in Hg as [(r0 & Hr0 & Hk) Hg].
    change (yo = Some y) in Hy. subst yo.
    injection Hk as Hc Hn Hrg Hy0. rewrite <- Hc, <- Hn, <- Hrg, <- Hy0 in Hg.
    fold (year_key r0) in Hg.
    destruct (dist_row_counts cid name region None (Some y) "year" g) as [-> ->].
    cbn [dist_city_id dist_city_name dist_row]. rewrite <- Hc, <- Hn.
    rewrite <- (year_group_is_named_rows r0 y Hr0 Hy0), <- Hg.
    assert (∀ r, r ∈ g → r ∈ tbl) as Hsub.
    { intros r Hr. rewrite Hg in Hr. by apply list_elem_of_filter in Hr as [_ ?]. }
    split; [|done].
    rewrite filter_all.
    + symmetry. apply (group_dates_distinct g cid name region); [done| |].
      * intros r Hr. rewrite Hg in Hr.
        apply list_elem_of_filter in Hr as [[= ? ? ? ?] _]. by subst.
      * eapply sublist_NoDup; [exact Hkeys|]. rewrite Hg.
        apply fmap_sublist, sublist_filter.
    + apply Forall_forall. intros r Hr.
      destruct (Hdate r (Hsub r Hr)) as [d ->]. done.
Qed.
End Rollup.

Lemma daily_rows_one_region hourly guideline ws daily r1 r2 :
  one_region_per_name hourly →
  _daily_aggregates hourly guideline ws = Ok daily →
  r1 ∈ daily → r2 ∈ daily →
  d_city_id r1 = d_city_id r2 → d_city_name r1 = d_city_name r2 →
  d_region_name r1 = d_region_name r2.
Proof.
  intros Hone Hrun Hr1 Hr2 Hc Hn.
  destruct (daily_row_group _ _ _ _ _ Hrun Hr1) as (k1 & g1 & _ & Hne1 & Hg1).
  destruct (daily_row_group _ _ _ _ _ Hrun Hr2) as (k2 & g2 & _ & Hne2 & Hg2).
  destruct g1 as [|h1 g1]; [done|]. destruct g2 as [|h2 g2]; [done|].
  destruct (proj1 (Hg1 h1) ltac:(left)) as (Hin1 & _ & Hc1 & Hn1 & Hrg1 & _).
  destruct (proj1 (Hg2 h2) ltac:(left)) as (Hin2 & _ & Hc2 & Hn2 & Hrg2 & _).
  rewrite Hrg1, Hrg2. apply Hone; congruence.
Qed.

(** The distribution table that the pipeline writes gives back the
    eligible cities of the run: [eligible_city_ids_from_distributions], as
    the figure stage calls it, returns the cities of the eligible pairs,
    as many as the run summary reports, when each city name goes with one
    region. *)
Theorem distributions_give_back_eligible_cities
    hourly ws guideline fs res fs' :
  one_region_per_name hourly →
  aggregate_data hourly ws guideline fs = (Ok res, fs') →
  ∃ dist daily pairs,
    fs' !! "city_distributions.parquet" = Some (DistTable dist)
    ∧ _daily_aggregates hourly guideline ws = Ok daily
    ∧ eligible_city_year_pairs_from_daily daily = Ok pairs
    ∧ eligible_city_ids_from_distributions dist = set_map (D:=gset Z) fst pairs
    ∧ Z.of_nat (size (eligible_city_ids_from_distributions dist))
      = eligible_cities res.
Proof.
  intros Hone.
  unfold aggregate_data, bind, lift, raise, lift, to_parquet, pure.
  destruct (_daily_aggregates hourly guideline ws) as [daily|e] eqn:Hd; [|done].
  destruct (eligible_city_year_pairs_from_daily daily) as [pairs|e] eqn:Hp;
    [|done].
  destruct (decide (pairs = ∅)) as [|Hne]; [done|].
  rewrite !merge_inner_elements. intros [= <- <-].
  set (kept := filter (λ d, pair_in pairs (daily_pair d)) daily).
  assert (∀ r, r ∈ kept → r ∈ daily) as Hsub
    by (by intros r [_ ?]%list_elem_of_filter).
  assert (∀ r, r ∈ daily → d_year r = row_year r) as Hyear.
  { intros r Hr. by apply (daily_year_column _ _ _ _ _ Hd Hr). }
  assert (coverage_equivalent_named kept (_city_distributions kept)) as Hequiv.
  { apply rollup_is_equivalent.
    - intros r Hr. by apply Hyear, Hsub.
    - intros r Hr. by apply (daily_year_column _ _ _ _ _ Hd (Hsub r Hr)).
    - eapply sublist_NoDup; [by eapply daily_keys_NoDup|].
      apply fmap_sublist, sublist_filter.
    - intros r1 r2 Hr1 Hr2.
      apply (daily_rows_one_region _ _ _ _ _ _ Hone Hd); by apply Hsub. }
  assert (eligible_city_ids_from_distributions (_city_distributions kept)
          = set_map (D:=gset Z) fst pairs) as Hids.
  { rewrite from_distributions_value.
    rewrite <- (eligible_ids_agree kept (_city_distributions kept))
      by (intros city y; by apply good_years_agree_named).
    pose proof (ids_from_daily_value daily) as Hv.
    unfold eligible_city_ids_from_daily in Hv. rewrite Hp in Hv.
    injection Hv as ->. apply set_eq. intros city.
    by apply (eligible_after_filter daily pairs Hyear Hp). }
  exists (_city_distributions kept), daily, pairs.
  split; [by rewrite !lookup_insert_ne, lookup_insert_eq by done|].
  split; [done|]. split; [done|]. split; [exact Hids|].
  by rewrite Hids.
Qed.

Lemma pipeline_hourly_one_region : one_region_per_name pipeline_hourly.
Proof.
  assert (Forall (λ h1, Forall (λ h2,
            h_city_id h1 = h_city_id h2 → h_city_name h1 = h_city_name h2 →
            h_region_name h1 = h_region_name h2) pipeline_hourly)
          pipeline_hourly) as Hall.
  { apply (bool_decide_unpack _). by vm_compute. }
  intros h1 h2 H1 H2.
  exact (proj1 (Forall_forall _ _) (proj1 (Forall_forall _ _) Hall h1 H1) h2 H2).
Qed.

Lemma distributions_give_back_eligible_cities_witness :
  ∃ dist daily pairs,
    (aggregate_data pipeline_hourly default_wartime_start 15 ∅).2
      !! "city_distributions.parquet" = Some (DistTable dist)
    ∧ _daily_aggregates pipeline_hourly 15 default_wartime_start = Ok daily
    ∧ eligible_city_year_pairs_from_daily daily = Ok pairs
    ∧ eligible_city_ids_from_distributions dist = set_map (D:=gset Z) fst pairs
    ∧ Z.of_nat (size (eligible_city_ids_from_distributions dist))
      = eligible_cities pipeline_result.
Proof.
  apply (distributions_give_back_eligible_cities pipeline_hourly
           default_wartime_start 15 ∅ pipeline_result).
  - exact pipeline_hourly_one_region.
  - vm_compute. reflexivity.
Defined.

(** ** The period of a day *)

Lemma date_geb_spec a b :
  date_geb a b ↔
  dt_y b < dt_y a
  ∨ (dt_y b = dt_y a
     ∧ (dt_m b < dt_m a ∨ (dt_m b = dt_m a ∧ dt_d b ≤ dt_d a))).
Proof.
  unfold date_geb.
  rewrite !orb_True, !andb_True, !orb_True, !andb_True.
  rewrite !Is_true_true, !Z.ltb_lt, !Z.eqb_eq, Z.leb_le. tauto.
Qed.

Lemma daily_row_period guideline ws k g :
  d_date_local (daily_row guideline ws k g) = Timestamp k.2
  ∧ d_year (daily_row guideline ws k g) = Some (dt_y k.2)
  ∧ d_is_wartime (daily_row guideline ws k g) = date_geb k.2 ws
  ∧ d_period (daily_row guideline ws k g) = period_of (date_geb k.2 ws).
Proof. by destruct k as [[[cid name] region] date]. Qed.

(** The period splits the daily table at one point in time: a day is
    wartime exactly from the start date on, so no day after a wartime day is
    pre-war; a day of an earlier year than the start date is pre-war and a
    day of a later year is wartime. *)
Theorem period_is_a_cut_in_time hourly guideline ws daily r1 r2 d1 d2 :
  _daily_aggregates hourly guideline ws = Ok daily →
  r1 ∈ daily → r2 ∈ daily →
  d_date_local r1 = Timestamp d1 → d_date_local r2 = Timestamp d2 →
  (d_period r1 = wartime ↔ date_geb d1 ws)
  ∧ (d_period r1 = wartime ↔ d_is_wartime r1)
  ∧ (d_period r1 = wartime → date_geb d2 d1 → d_period r2 = wartime)
  ∧ (∀ y, d_year r1 = Some y → y < dt_y ws → d_period r1 = pre_war)
  ∧ (∀ y, d_year r1 = Some y → dt_y ws < y → d_period r1 = wartime).
Proof.
  intros Hrun Hr1 Hr2 Hd1 Hd2.
  destruct (daily_aggregates_rows _ _ _ _ _ Hrun Hr1) as (k1 & g1 & _ & _ & ->).
  destruct (daily_aggregates_rows _ _ _ _ _ Hrun Hr2) as (k2 & g2 & _ & _ & ->).
  destruct (daily_row_period guideline ws k1 g1) as (Hl1 & Hy1 & Hw1 & Hp1).
  destruct (daily_row_period guideline ws k2 g2) as (Hl2 & _ & _ & Hp2).
  rewrite Hl1 in Hd1. rewrite Hl2 in Hd2.
  injection Hd1 as Hd1. injection Hd2 as Hd2.
  rewrite Hy1, Hw1, Hp1, Hp2, Hd1, Hd2.
  assert (∀ b : bool, period_of b = wartime ↔ b) as Hperiod
    by (intros []; simpl; naive_solver).
  rewrite !Hperiod.
  split; [done|]. split; [done|]. split; [|split].
  - rewrite !date_geb_spec. lia.
  - intros y [= <-] Hlt. destruct (date_geb d1 ws) eqn:Hge; [|done].
    apply Is_true_true, date_geb_spec in Hge. lia.
  - intros y [= <-] Hlt. apply Hperiod, date_geb_spec. lia.
Qed.

Lemma period_is_a_cut_in_time_witness :
  (d_period (pipeline_day_row 2021) = wartime
   ↔ date_geb (mkDate 2021 1 1) default_wartime_start)
  ∧ (d_period (pipeline_day_row 2021) = wartime
     ↔ d_is_wartime (pipeline_day_row 2021))
  ∧ (d_period (pipeline_day_row 2021) = wartime →
     date_geb (mkDate 2024 1 1) (mkDate 2021 1 1) →
     d_period (pipeline_day_row 2024) = wartime)
  ∧ (∀ y, d_year (pipeline_day_row 2021) = Some y →
     y < dt_y default_wartime_start →
     d_period (pipeline_day_row 2021) = pre_war)
  ∧ (∀ y, d_year (pipeline_day_row 2021) = Some y →
     dt_y default_wartime_start < y →
     d_period (pipeline_day_row 2021) = wartime).
Proof.
  apply (period_is_a_cut_in_time pipeline_hourly 15 default_wartime_start
           pipeline_daily).
  - by vm_compute.
  - apply (list_elem_of_lookup_2 _ 1%nat). by vm_compute.
  - apply (list_elem_of_lookup_2 _ 3%nat). by vm_compute.
  - reflexivity.
  - reflexivity.
Defined.

(** ** Order of the quantiles *)

Lemma insert_sorted_sorted x v :
  StronglySorted Qle v → StronglySorted Qle (insert_sorted x v).
Proof.
  induction 1 as [|y v Hv IH Hy]; simpl; [repeat constructor|].
  destruct (Qle_bool x y) eqn:Hxy.
  - apply Qle_bool_iff in Hxy.
    constructor; [by constructor|]. constructor; [done|].
    eapply Forall_impl; [exact Hy|]. simpl. intros z Hz. lra.
  - assert (y <= x)%Q as Hyx.
    { apply Qlt_le_weak, Qnot_le_lt. intros Hle.
      apply Qle_bool_iff in Hle. congruence. }
    constructor; [done|]. apply Forall_forall. intros z Hz.
    apply elem_of_insert_sorted in Hz as [->|Hz]; [done|].
    by apply (proj1 (Forall_forall _ _) Hy).
Qed.

Lemma sort_values_sorted v : StronglySorted Qle (sort_values v).
Proof.
  induction v as [|x v IH]; [constructor|]. simpl. by apply insert_sorted_sorted.
Qed.

Lemma sorted_nth_le (w : list Q) (d : Q) (i j : nat) :
  StronglySorted Qle w → (i ≤ j)%nat → (j < length w)%nat →
  (nth i w d <= nth j w d)%Q.
Proof.
  intros Hw. revert i j.
  induction Hw as [|y w Hw IH Hy]; intros i j Hij Hj; simpl in Hj; [lia|].
  destruct j as [|j].
  - assert (i = 0%nat) as -> by lia. simpl. lra.
  - destruct i as [|i]; simpl.
    + apply (proj1 (Forall_forall _ _) Hy), list_elem_of_In, nth_In. lia.
    + apply IH; lia.
Qed.

(** The two ranks a quantile interpolates between, for a position inside
    the sorted values. *)
Lemma quantile_ranks (w : list Q) (x : Q) (lo : Z) :
  StronglySorted Qle w → 0 ≤ lo → lo < Z.of_nat (length w) →
  let a := nth (Z.to_nat lo) w x in
  let b := nth (Z.to_nat (lo + 1)) w a in
  (a <= b)%Q
  ∧ (∀ lo', lo < lo' → lo' < Z.of_nat (length w) →
     (b <= nth (Z.to_nat lo') w x)%Q).
Proof.
  intros Hw H0 Hn a b.
  destruct (decide (lo + 1 < Z.of_nat (length w))) as [Hin|Hout].
  - assert (b = nth (Z.to_nat (lo + 1)) w x) as Hb
      by (apply nth_indep; lia).
    rewrite Hb. split.
    + apply sorted_nth_le; [done|lia..].
    + intros lo' Hlt Hlo'. apply sorted_nth_le; [done|lia..].
  - assert (b = a) as Hb by (apply nth_overflow; lia).
    rewrite Hb. split; [lra|]. intros lo' Hlt Hlo'. lia.
Qed.

Lemma quantile_position (n : nat) (q : Q) :
  (0 < n)%nat → (0 <= q)%Q → (q <= 1)%Q →
  0 ≤ Qfloor (Qz (Z.of_nat n - 1) * q) < Z.of_nat n.
Proof.
  intros Hn H0 H1.
  assert (0 <= Qz (Z.of_nat n - 1))%Q as HN.
  { unfold Qz. change 0%Q with (inject_Z 0). rewrite <- Zle_Qle. lia. }
  split.
  - rewrite <- (Qfloor_Z 0). apply Qfloor_resp_le.
    change (inject_Z 0) with 0%Q. by apply Qmult_le_0_compat.
  - assert (Qfloor (Qz (Z.of_nat n - 1) * q)
            ≤ Qfloor (inject_Z (Z.of_nat n - 1))) as Hle.
    { apply Qfloor_resp_le. unfold Qz in *.
      generalize dependent (inject_Z (Z.of_nat n - 1)). intros N HN.
      assert (0 <= N * (1 - q))%Q by (apply Qmult_le_0_compat; lra). lra. }
    rewrite Qfloor_Z in Hle. lia.
Qed.

Lemma Q_interpolation_mono a b f1 f2 :
  (a <= b)%Q → (f1 <= f2)%Q → (a + (b - a) * f1 <= a + (b - a) * f2)%Q.
Proof.
  intros Hab Hf.
  assert (0 <= (b - a) * (f2 - f1))%Q by (apply Qmult_le_0_compat; lra). lra.
Qed.

Lemma series_quantile_mono (q1 q2 : Q) (s : list Float) (v1 v2 : Q) :
  (0 <= q1)%Q → (q1 <= q2)%Q → (q2 <= 1)%Q →
  series_quantile q1 s = Some v1 → series_quantile q2 s = Some v2 →
  (v1 <= v2)%Q.
Proof.
  intros H0 H12 H1. unfold series_quantile.
  pose proof (sort_values_sorted (dropna_values s)) as Hw.
  destruct (sort_values (dropna_values s)) as [|x v]; [done|].
  cbv zeta. intros E1 E2. apply (inj Some) in E1, E2.
  rewrite <- E1, <- E2, !Qred_correct. clear E1 E2.
  set (w := x :: v) in *.
  set (N := Qz (Z.of_nat (length w) - 1)).
  assert (0 < length w)%nat as Hlen by (simpl; lia).
  assert (0 <= N)%Q as HN.
  { unfold N, Qz. change 0%Q with (inject_Z 0). rewrite <- Zle_Qle. lia. }
  assert (N * q1 <= N * q2)%Q as Hpos.
  { assert (0 <= N * (q2 - q1))%Q by (apply Qmult_le_0_compat; lra). lra. }
  pose proof (Qfloor_resp_le _ _ Hpos) as Hlo.
  destruct (quantile_position (length w) q1 Hlen) as [Ha1 Hb1]; [lra..|].
  destruct (quantile_position (length w) q2 Hlen) as [Ha2 Hb2]; [lra..|].
  fold N in Ha1, Hb1, Ha2, Hb2.
  destruct (quantile_ranks w x (Qfloor (N * q1)) Hw Ha1 Hb1) as [Hab1 Hnext].
  destruct (quantile_ranks w x (Qfloor (N * q2)) Hw Ha2 Hb2) as [Hab2 _].
  destruct (Qfloor_fraction (N * q1)) as [Hf1 Hf1'].
  destruct (Qfloor_fraction (N * q2)) as [Hf2 Hf2'].
  cbv zeta in Hab1, Hab2, Hnext.
  destruct (decide (Qfloor (N * q1) = Qfloor (N * q2))) as [Heq|Hne].
  - rewrite <- Heq in *.
    set (a := nth (Z.to_nat (Qfloor (N * q1))) w x) in *.
    set (b := nth (Z.to_nat (Qfloor (N * q1) + 1)) w a) in *.
    apply Q_interpolation_mono; [done|]. lra.
  - specialize (Hnext (Qfloor (N * q2))).
    assert (Qfloor (N * q1) < Qfloor (N * q2)) as Hlt by lia.
    specialize (Hnext Hlt Hb2).
    set (a1 := nth (Z.to_nat (Qfloor (N * q1))) w x) in *.
    set (b1 := nth (Z.to_nat (Qfloor (N * q1) + 1)) w a1) in *.
    set (a2 := nth (Z.to_nat (Qfloor (N * q2))) w x) in *.
    set (b2 := nth (Z.to_nat (Qfloor (N * q2) + 1)) w a2) in *.
    destruct (Q_interpolation a1 b1 a1 b1 (N * q1 - Qz (Qfloor (N * q1))))
      as [_ Hv1]; [lra..|].
    destruct (Q_interpolation a2 b2 a2 b2 (N * q2 - Qz (Qfloor (N * q2))))
      as [Hv2 _]; [lra..|].
    lra.
Qed.

Lemma max_fold_ge (x : Q) (v : list Q) :
  let m := foldr (λ a b, if Qle_bool a b then b else a) x v in
  (x <= m)%Q ∧ Forall (λ y, (y <= m)%Q) v.
Proof.
  induction v as [|y v [IHx IHv]]; simpl; [split; [lra|constructor]|].
  destruct (Qle_bool y _) eqn:Hle.
  - apply Qle_bool_iff in Hle. split; [done|]. by constructor.
  - assert (foldr (λ a b, if Qle_bool a b then b else a) x v <= y)%Q as Hlt.
    { apply Qlt_le_weak, Qnot_le_lt. intros H.
      apply Qle_bool_iff in H. congruence. }
    split; [lra|]. constructor; [lra|].
    eapply Forall_impl; [exact IHv|]. simpl. intros z Hz. lra.
Qed.

Lemma series_quantile_le_max (q : Q) (s : list Float) (v m : Q) :
  series_quantile q s = Some v → series_max s = Some m → (v <= m)%Q.
Proof.
  intros Hq Hm.
  assert (∃ lo, Forall (λ y, (lo <= y)%Q ∧ (y <= m)%Q) (dropna_values s))
    as [lo Hall].
  { unfold series_max in Hm.
    destruct (dropna_values s) as [|x w]; [done|]. injection Hm as <-.
    destruct (max_fold_ge x w) as [Hx Hw]. simpl in Hx, Hw.
    set (m := foldr (λ a b, if Qle_bool a b then b else a) x w) in *.
    clearbody m. clear Hq.
    assert (∃ lo, Forall (λ y, (lo <= y)%Q) (x :: w)) as [lo Hlo].
    { generalize (x :: w). intros l. induction l as [|y l [lo IH]].
      - exists 0%Q. constructor.
      - destruct (Qlt_le_dec y lo) as [Hy|Hy].
        + exists y. constructor; [lra|].
          eapply Forall_impl; [exact IH|]. simpl. intros z Hz. lra.
        + exists lo. by constructor. }
    exists lo. apply Forall_forall. intros y Hy. split.
    - by apply (proj1 (Forall_forall _ _) Hlo).
    - apply elem_of_cons in Hy as [->|Hy]; [done|].
      by apply (proj1 (Forall_forall _ _) Hw). }
  assert (Forall (in_range lo m) s) as Hs.
  { apply Forall_forall. intros [y|] Hy z; [|done]. intros [= <-].
    apply (proj1 (Forall_forall _ _) Hall). unfold dropna_values.
    apply list_elem_of_omap. by exists (Some y). }
  by apply (series_quantile_in_range lo m q s Hs v).
Qed.

Lemma daily_row_quantiles guideline ws k g :
  d_pm25_p10 (daily_row guideline ws k g) = series_quantile (1 # 10) (h_pm25 <$> g)
  ∧ d_pm25_median (daily_row guideline ws k g)
    = series_quantile (1 # 2) (h_pm25 <$> g)
  ∧ d_pm25_p90 (daily_row guideline ws k g)
    = series_quantile (9 # 10) (h_pm25 <$> g)
  ∧ d_pm25_max (daily_row guideline ws k g) = series_max (h_pm25 <$> g).
Proof. by destruct k as [[[cid name] region] date]. Qed.

(** The daily pm25 quantiles of a day that has a reading are ordered:
    p10 <= median <= p90 <= max. *)
Theorem daily_quantiles_ordered hourly guideline ws daily row p10 med p90 mx :
  _daily_aggregates hourly guideline ws = Ok daily → row ∈ daily →
  d_pm25_p10 row = Some p10 → d_pm25_median row = Some med →
  d_pm25_p90 row = Some p90 → d_pm25_max row = Some mx →
  (p10 <= med)%Q ∧ (med <= p90)%Q ∧ (p90 <= mx)%Q.
Proof.
  intros Hrun Hrow.
  destruct (daily_aggregates_rows _ _ _ _ _ Hrun Hrow) as (k & g & _ & _ & ->).
  destruct (daily_row_quantiles guideline ws k g) as (-> & -> & -> & ->).
  intros H10 H50 H90 Hmax. split; [|split].
  - by apply (series_quantile_mono (1 # 10) (1 # 2) (h_pm25 <$> g)).
  - by apply (series_quantile_mono (1 # 2) (9 # 10) (h_pm25 <$> g)).
  - by apply (series_quantile_le_max (9 # 10) (h_pm25 <$> g)).
Qed.

Lemma daily_quantiles_ordered_witness :
  (12 <= 20)%Q ∧ (20 <= 28)%Q ∧ (28 <= 30)%Q.
Proof.
  apply (daily_quantiles_ordered kyiv_scenario 15 default_wartime_start
           [kyiv_scenario_row] kyiv_scenario_row).
  - by vm_compute.
  - left.
  - by vm_compute.
  - by vm_compute.
  - by vm_compute.
  - by vm_compute.
Defined.
